(** * trex_capture: the console's live capture monitor

    A shallow embedding of
    [scripts/automation/trex_control_plane/stl/console/trex_capture.py]:
    the monitor writers (stdout and named pipe), the [CaptureMonitor] object
    with its worker thread, and the [CaptureManager] that owns at most one
    monitor.

    Python objects are records, attributes that may be [None] or not yet
    assigned are options, exceptions are values of [exn], and every method is
    a computation in a small state-and-exception monad that also collects the
    calls made to the outside world (logger, operating system, RPC client,
    command lock) as a list of events.  What the outside world answers is
    given to each method as an explicit environment record. *)

From Stdlib Require Import ZArith String List Bool Lia.
From stdpp Require Import base decidable gmap strings pretty.
Import ListNotations.

Local Open Scope string_scope.
Local Open Scope list_scope.
Local Open Scope Z_scope.

(** ** Exceptions and results *)

(** The exception classes the module tells apart: [STLError] (the only one
    the console reports as a monitor error), [KeyboardInterrupt] (not a
    subclass of [Exception]), [OSError], and any other subclass of
    [Exception], kept with its class name (binascii.Error, RuntimeError,
    AttributeError, ...). *)
Inductive exn : Type :=
| STLError (msg : string)
| KeyboardInterrupt
| OSError (msg : string)
| Exception (cls msg : string).

(** [isinstance(e, Exception)] *)
Definition is_Exception (e : exn) : bool :=
  match e with
  | KeyboardInterrupt => false
  | _ => true
  end.


(** [str(e)] *)
Definition exn_str (e : exn) : string :=
  match e with
  | STLError m => m
  | KeyboardInterrupt => EmptyString
  | OSError m => m
  | Exception _ m => m
  end.

Inductive result (A : Type) : Type :=
| Ok (a : A)
| Raise (e : exn).
Arguments Ok {A} a.
Arguments Raise {A} e.

(** ** Captured packets, as the fetch RPC returns them *)

(** A Python float.  The model gives every float an integer for a name and
    never computes on it: what the program computes with floats is left to
    the library interface below. *)
Definition pyfloat : Type := Z.

Record packet : Type := Packet {
  binary : string;          (* pkt['binary'], base64 text *)
  index  : Z;               (* pkt['index'] *)
  port   : Z;               (* pkt['port'] *)
  origin : string;          (* pkt['origin'] *)
  ts     : pyfloat          (* pkt['ts'] *)
}.

(** A packet as scapy dissects it: a layer with its name and, unless it is
    the last one, its payload; the payload of the last layer is scapy's
    [NoPayload], which is false in a test. *)
Inductive scapy_pkt : Type :=
| Last (name : string)
| Layer (name : string) (payload : scapy_pkt).

Definition layer_name (l : scapy_pkt) : string :=
  match l with
  | Last n => n
  | Layer n _ => n
  end.

(** [CaptureMonitorWriterStdout.get_scapy_name] *)
Fixpoint get_scapy_name (layer : scapy_pkt) : string :=
  match layer with
  | Last name => name
  | Layer name payload =>
      if bool_decide (layer_name payload ∈ ["Padding"; "Raw"]) then name
      else get_scapy_name payload
  end.

(** The library functions the writers call on what the server sends are an
    interface of the model.  [b64decode] is [base64.b64decode], [None]
    standing for the decoder raising (binascii.Error in Python 3, TypeError
    in Python 2); [Ether], [scapy_command] and [scapy_show] are scapy's
    [Ether(pkt_bin)], [pkt.command()] and [pkt.show()], each of which
    returns or raises.  Timestamps are floats: [fsub] is the subtraction of
    two floats and [sec_split_usec] the function of that name of
    [trex_stl_lib], from a float to its seconds and microseconds. *)
Class Decoder : Type := mkDecoder {
  b64decode      : string -> option (list Byte.byte);
  Ether          : list Byte.byte -> result scapy_pkt;
  scapy_command  : scapy_pkt -> result string;
  scapy_show     : scapy_pkt -> result unit;
  fsub           : pyfloat -> pyfloat -> pyfloat;
  sec_split_usec : pyfloat -> Z * Z
}.

(** ** Events: the calls that leave the module *)

Inductive event : Type :=
| EvLog (msg : string)                       (* logger.pre_cmd / post_cmd / log *)
| EvPromptRedraw                             (* logger.prompt_redraw() *)
| EvPktHeader (idx prt : Z) (org name : string) (size : nat) (rel_ts : pyfloat)
                                             (* the two header lines of a packet *)
| EvPktBody (brief : bool)                   (* command() line or show() dump *)
| EvMkfifo (path : string)
| EvOpen (path : string) (fd : Z)
| EvClose (fd : Z)
| EvUnlink (path : string)
| EvPcapOpen (path : string)                 (* RawPcapWriter(path, linktype = 1, sync = True) *)
| EvPcapHeader                               (* writer._write_header(None) *)
| EvPollRegister (fd : Z)
| EvPoll (timeout : Z)                       (* self.poll.poll(timeout) *)
| EvWritePacket (data : list Byte.byte) (sec usec : Z)
| EvHandlePkts (n : nat)                     (* writer.handle_pkts(pkts) entered *)
| EvPeriodicCheck                            (* writer.periodic_check() entered *)
| EvDeinit                                   (* writer.deinit() entered *)
| EvSleep                                    (* time.sleep(0.1) *)
| EvAcquire (rc : bool)                      (* cmd_lock.acquire(False) *)
| EvRelease                                  (* cmd_lock.release() *)
| EvIsConnected
| EvStartCapture (tx rx : list Z) (limit : Z) (mode : string)
| EvGetCaptureStatus
| EvStopCapture (id : Z)
| EvFetch (id : option Z) (pkt_limit : Z)
| EvRemoveAllCaptures
| EvThreadStart
| EvThreadJoin.

(** ** The monad: state, exceptions and an event log *)

Definition M (S A : Type) : Type := S -> result A * S * list event.

Definition ret {S A} (a : A) : M S A := fun s => (Ok a, s, []).

Definition raise {S A} (e : exn) : M S A := fun s => (Raise e, s, []).

Definition bind {S A B} (m : M S A) (k : A -> M S B) : M S B :=
  fun s =>
    match m s with
    | (Ok a, s1, ev1) =>
        match k a s1 with
        | (r, s2, ev2) => (r, s2, ev1 ++ ev2)
        end
    | (Raise e, s1, ev1) => (Raise e, s1, ev1)
    end.

Declare Scope m_scope.
Delimit Scope m_scope with m.
Notation "x <- c ;; k" := (bind c (fun x => k))
  (at level 100, c at next level, right associativity) : m_scope.
Notation "c ;; k" := (bind c (fun _ => k))
  (at level 100, right associativity) : m_scope.
Local Open Scope m_scope.

Definition emit {S} (e : event) : M S unit := fun s => (Ok tt, s, [e]).
Definition get {S} : M S S := fun s => (Ok s, s, []).
Definition gets {S A} (f : S -> A) : M S A := fun s => (Ok (f s), s, []).
Definition modify {S} (f : S -> S) : M S unit := fun s => (Ok tt, f s, []).

(** [try: body finally: fin] *)
Definition try_finally {S A} (body : M S A) (fin : M S unit) : M S A :=
  fun s =>
    match body s with
    | (r, s1, ev1) =>
        match fin s1 with
        | (Ok _, s2, ev2) => (r, s2, ev1 ++ ev2)
        | (Raise e, s2, ev2) => (Raise e, s2, ev1 ++ ev2)
        end
    end.

(** [try: body except ...: handler]; the handler answers [None] for an
    exception no [except] clause matches. *)
Definition try_except {S A} (body : M S A) (handler : exn -> option (M S A)) : M S A :=
  fun s =>
    match body s with
    | (Ok a, s1, ev1) => (Ok a, s1, ev1)
    | (Raise e, s1, ev1) =>
        match handler e with
        | None => (Raise e, s1, ev1)
        | Some h =>
            match h s1 with
            | (r, s2, ev2) => (r, s2, ev1 ++ ev2)
            end
        end
    end.

(** A call that returns or raises and does nothing else. *)
Definition lift {S A} (r : result A) : M S A :=
  match r with
  | Ok a => ret a
  | Raise e => raise e
  end.

(** Running a computation on a part of the state. *)
Definition zoom {S T A} (proj : S -> T) (upd : T -> S -> S) (m : M T A) : M S A :=
  fun s =>
    match m (proj s) with
    | (r, t1, ev) => (r, upd t1 s, ev)
    end.

(** ** The world outside the objects *)

Record World : Type := mkWorld {
  fs        : gset string;   (* paths that exist in the filesystem *)
  fds       : gset Z;        (* file descriptors this process holds open *)
  lock_held : bool           (* the worker holds the command lock *)
}.

Definition set_fs (f : gset string -> gset string) (w : World) : World :=
  {| fs := f (fs w); fds := fds w; lock_held := lock_held w |}.
Definition set_fds (f : gset Z -> gset Z) (w : World) : World :=
  {| fs := fs w; fds := f (fds w); lock_held := lock_held w |}.
Definition set_lock_held (b : bool) (w : World) : World :=
  {| fs := fs w; fds := fds w; lock_held := b |}.

(** What a call to the operating system or to a library on top of it does
    when it is made: it returns, fails with [OSError], is interrupted by
    Ctrl-C, or fails with an exception of another class ([IOError] in
    Python 2, where it is not an [OSError]; AttributeError, TypeError, ...). *)
Inductive os_outcome (A : Type) : Type :=
| OsOk (a : A)
| OsErr (msg : string)
| OsIntr
| OsFail (cls msg : string).
Arguments OsOk {A} a.
Arguments OsErr {A} msg.
Arguments OsIntr {A}.
Arguments OsFail {A} cls msg.

Definition os_call {S A} (o : os_outcome A) : M S A :=
  match o with
  | OsOk a => ret a
  | OsErr m => raise (OSError m)
  | OsIntr => raise KeyboardInterrupt
  | OsFail cls m => raise (Exception cls m)
  end.

(** [os.mkfifo(path)]: the path must be new. *)
Definition os_mkfifo (path : string) (o : os_outcome unit) : M World unit :=
  os_call o ;;
  w <- get ;;
  if decide (path = EmptyString) then raise (OSError "[Errno 2] No such file or directory")
  else if decide (path ∈ fs w) then raise (OSError "[Errno 17] File exists")
  else modify (set_fs (fun f => {[ path ]} ∪ f)) ;; emit (EvMkfifo path).

(** [os.open(path, os.O_WRONLY)]: blocks until a reader attaches. *)
Definition os_open (path : string) (o : os_outcome Z) : M World Z :=
  fd <- os_call o ;;
  w <- get ;;
  if decide (path ∈ fs w)
  then modify (set_fds (fun d => {[ fd ]} ∪ d)) ;; emit (EvOpen path fd) ;; ret fd
  else raise (OSError "[Errno 2] No such file or directory").

(** [os.close(fd)] *)
Definition os_close (fd : Z) : M World unit :=
  w <- get ;;
  if decide (fd ∈ fds w)
  then modify (set_fds (fun d => d ∖ {[ fd ]})) ;; emit (EvClose fd)
  else raise (OSError "[Errno 9] Bad file descriptor").

(** [os.unlink(path)] *)
Definition os_unlink (path : string) : M World unit :=
  w <- get ;;
  if decide (path ∈ fs w)
  then modify (set_fs (fun f => f ∖ {[ path ]})) ;; emit (EvUnlink path)
  else raise (OSError "[Errno 2] No such file or directory").

(** ** The writers *)

(** [CaptureMonitorWriterStdout] *)
Record WriterStdout : Type := mkStdout {
  so_is_brief : bool;
  so_start_ts : pyfloat
}.

(** [CaptureMonitorWriterPipe] *)
Record WriterPipe : Type := mkPipe {
  fifo       : option Z;        (* self.fifo: None or the descriptor *)
  fifo_name  : option string;   (* self.fifo_name *)
  pp_start_ts : pyfloat;
  pcap       : bool;            (* self.writer, the RawPcapWriter, has been assigned *)
  poll       : bool;            (* self.poll has been assigned and registered *)
  is_init    : bool
}.

Definition set_fifo (v : option Z) (p : WriterPipe) : WriterPipe :=
  {| fifo := v; fifo_name := fifo_name p; pp_start_ts := pp_start_ts p;
     pcap := pcap p; poll := poll p; is_init := is_init p |}.
Definition set_fifo_name (v : option string) (p : WriterPipe) : WriterPipe :=
  {| fifo := fifo p; fifo_name := v; pp_start_ts := pp_start_ts p;
     pcap := pcap p; poll := poll p; is_init := is_init p |}.
Definition set_pcap (v : bool) (p : WriterPipe) : WriterPipe :=
  {| fifo := fifo p; fifo_name := fifo_name p; pp_start_ts := pp_start_ts p;
     pcap := v; poll := poll p; is_init := is_init p |}.
Definition set_poll (v : bool) (p : WriterPipe) : WriterPipe :=
  {| fifo := fifo p; fifo_name := fifo_name p; pp_start_ts := pp_start_ts p;
     pcap := pcap p; poll := v; is_init := is_init p |}.
Definition set_is_init (v : bool) (p : WriterPipe) : WriterPipe :=
  {| fifo := fifo p; fifo_name := fifo_name p; pp_start_ts := pp_start_ts p;
     pcap := pcap p; poll := poll p; is_init := v |}.

(** A pipe writer in the making, with the world it acts on. *)
Record pipe_st : Type := mkPipeSt {
  ps_self  : WriterPipe;
  ps_world : World
}.

Definition on_pipe (f : WriterPipe -> WriterPipe) : M pipe_st unit :=
  modify (fun s => {| ps_self := f (ps_self s); ps_world := ps_world s |}).
Definition in_world {A} (m : M World A) : M pipe_st A :=
  zoom ps_world (fun w s => {| ps_self := ps_self s; ps_world := w |}) m.

(** Python truth values of the two attributes [deinit] tests. *)
Definition truthy_fd (f : option Z) : option Z :=
  match f with
  | Some fd => if decide (fd = 0) then None else Some fd
  | None => None
  end.
Definition truthy_name (n : option string) : option string :=
  match n with
  | Some s => if decide (s = EmptyString) then None else Some s
  | None => None
  end.

(** [CaptureMonitorWriterPipe.deinit]; the descriptor of the RawPcapWriter
    is not its business. *)
Definition pipe_deinit : M pipe_st unit :=
  emit EvDeinit ;;
  try_except
    (p <- gets ps_self ;;
     match truthy_fd (fifo p) with
     | Some fd => in_world (os_close fd) ;; on_pipe (set_fifo None)
     | None => ret tt
     end ;;
     p <- gets ps_self ;;
     match truthy_name (fifo_name p) with
     | Some n => in_world (os_unlink n) ;; on_pipe (set_fifo_name None)
     | None => ret tt
     end)
    (fun e => match e with
              | OSError _ => Some (ret tt)
              | _ => None
              end).

(** What the operating system answers during the construction of a pipe
    writer. *)
Record pipe_env : Type := mkPipeEnv {
  pe_mktemp   : string;            (* tempfile.mktemp() *)
  pe_mkfifo   : os_outcome unit;   (* os.mkfifo(self.fifo_name) *)
  pe_open     : os_outcome Z;      (* os.open(self.fifo_name, os.O_WRONLY) *)
  pe_pcap     : os_outcome Z;      (* RawPcapWriter(self.fifo_name, ...): it opens the
                                      file by its name, on a descriptor of its own *)
  pe_header   : os_outcome unit;   (* self.writer._write_header(None) *)
  pe_register : os_outcome unit    (* select.poll() and its register() *)
}.

(** [str.format] of an attribute that may be [None] *)
Definition fmt_name (n : option string) : string :=
  match n with
  | Some s => s
  | None => "None"
  end.

(** The [try] block of [CaptureMonitorWriterPipe.__init__]. *)
Definition pipe_init_try (env : pipe_env) : M pipe_st unit :=
  emit (EvLog "Starting pipe capture monitor") ;;
  in_world (os_mkfifo (pe_mktemp env) (pe_mkfifo env)) ;;
  emit (EvLog "OK") ;;
  emit (EvLog ("*** Please run 'wireshark -k -i " +:+ pe_mktemp env +:+ "' ***")) ;;
  emit (EvLog "Waiting for Wireshark pipe connection") ;;
  fd <- in_world (os_open (pe_mktemp env) (pe_open env)) ;;
  on_pipe (set_fifo (Some fd)) ;;
  emit (EvLog "OK") ;;
  emit (EvLog "*** Capture monitoring started ***") ;;
  fd' <- os_call (pe_pcap env) ;;
  in_world (modify (set_fds (fun d => {[ fd' ]} ∪ d))) ;;
  emit (EvPcapOpen (pe_mktemp env)) ;;
  on_pipe (set_pcap true) ;;
  os_call (pe_header env) ;;
  emit EvPcapHeader ;;
  os_call (pe_register env) ;;
  emit (EvPollRegister fd) ;;
  on_pipe (set_poll true) ;;
  on_pipe (set_is_init true).

(** Its two [except] clauses. *)
Definition pipe_init_except (e : exn) : option (M pipe_st unit) :=
  match e with
  | KeyboardInterrupt =>
      Some (pipe_deinit ;;
            emit (EvLog "ERR") ;;
            raise (STLError "*** pipe monitor aborted...cleaning up"))
  | OSError m =>
      Some (pipe_deinit ;;
            emit (EvLog "ERR") ;;
            p <- gets ps_self ;;
            raise (STLError ("failed to create pipe " +:+ fmt_name (fifo_name p)
                             +:+ String (Ascii.ascii_of_nat 10) m)))
  | _ => None
  end.

(** [CaptureMonitorWriterPipe.__init__]; the attributes assigned before the
    [try] block make the fresh object. *)
Definition pipe_init (env : pipe_env) (start_ts : pyfloat) : M pipe_st unit :=
  on_pipe (fun _ => {| fifo := None; fifo_name := Some (pe_mktemp env);
                       pp_start_ts := start_ts; pcap := false;
                       poll := false; is_init := false |}) ;;
  try_except (pipe_init_try env) pipe_init_except.

(** [CaptureMonitorWriterStdout.__init__]: it only writes to the logger. *)
Definition stdout_init {S} (is_brief : bool) (start_ts : pyfloat) : M S WriterStdout :=
  emit (EvLog ("Starting stdout capture monitor - verbose: '"
               +:+ (if is_brief then "low" else "high") +:+ "'")) ;;
  emit (EvLog "OK") ;;
  emit (EvLog "*** use 'capture monitor stop' to abort capturing... ***") ;;
  ret {| so_is_brief := is_brief; so_start_ts := start_ts |}.

(** What the pipe answers while a batch is handled: the result of the
    [poll(0)] probe, a list of (descriptor, event mask) pairs, and for each
    packet in turn whether [_write_packet] raises. *)
Record write_env : Type := mkWriteEnv {
  we_poll  : list (Z * Z);
  we_write : list (option exn)
}.

Section Writers.
Context `{Decoder}.
Context {S : Type}.

(** [CaptureMonitorWriterStdout.__handle_pkt]; [format_origin] only puts an
    arrow before the origin, and the two header lines are one event. *)
Definition stdout_handle_pkt (wr : WriterStdout) (pkt : packet) : M S Z :=
  match b64decode (binary pkt) with
  | None => raise (Exception "binascii.Error" "Incorrect padding")
  | Some pkt_bin =>
      pkt_scapy <- lift (Ether pkt_bin) ;;
      emit (EvPktHeader (index pkt) (port pkt) (origin pkt) (get_scapy_name pkt_scapy)
                        (length pkt_bin) (fsub (ts pkt) (so_start_ts wr))) ;;
      (if so_is_brief wr
       then lift (scapy_command pkt_scapy) ;; ret tt
       else lift (scapy_show pkt_scapy)) ;;
      emit (EvPktBody (so_is_brief wr)) ;;
      ret (Z.of_nat (length pkt_bin))
  end.

(** The [for pkt in pkts] loop of the stdout writer. *)
Fixpoint stdout_loop (wr : WriterStdout) (pkts : list packet) (byte_count : Z) : M S Z :=
  match pkts with
  | [] => ret byte_count
  | pkt :: rest =>
      n <- stdout_handle_pkt wr pkt ;;
      stdout_loop wr rest (byte_count + n)
  end.

(** [CaptureMonitorWriterStdout.handle_pkts] *)
Definition stdout_handle_pkts (wr : WriterStdout) (pkts : list packet) : M S Z :=
  try_finally (stdout_loop wr pkts 0) (emit EvPromptRedraw).

(** [CaptureMonitorWriterPipe.check_pipe] *)
Definition check_pipe (polled : list (Z * Z)) : M S unit :=
  emit (EvPoll 0) ;;
  match polled with
  | [] => ret tt
  | _ :: _ => raise (STLError "pipe has been disconnected")
  end.

(** The [for pkt in pkts] loop of [handle_pkts_internal]. *)
Fixpoint pipe_loop (p : WriterPipe) (pkts : list packet) (outs : list (option exn))
  (byte_count : Z) : M S Z :=
  match pkts with
  | [] => ret byte_count
  | pkt :: rest =>
      match b64decode (binary pkt) with
      | None => raise (Exception "binascii.Error" "Incorrect padding")
      | Some pkt_bin =>
          try_except
            (match hd None outs with
             | None =>
                 let ts_split := sec_split_usec (fsub (ts pkt) (pp_start_ts p)) in
                 emit (EvWritePacket pkt_bin (fst ts_split) (snd ts_split))
             | Some e => raise e
             end)
            (fun e => if is_Exception e
                      then Some (raise (STLError ("fail to write packets to pipe: "
                                                  +:+ exn_str e)))
                      else None) ;;
          pipe_loop p rest (tl outs) (byte_count + Z.of_nat (length pkt_bin))
      end
  end.

(** [CaptureMonitorWriterPipe.handle_pkts_internal] *)
Definition pipe_handle_pkts_internal (p : WriterPipe) (env : write_env)
  (pkts : list packet) : M S Z :=
  pipe_loop p pkts (we_write env) 0.

(** [CaptureMonitorWriterPipe.handle_pkts] *)
Definition pipe_handle_pkts (p : WriterPipe) (env : write_env) (pkts : list packet) : M S Z :=
  check_pipe (we_poll env) ;;
  pipe_handle_pkts_internal p env pkts.

(** [CaptureMonitorWriterPipe.periodic_check] *)
Definition pipe_periodic_check (polled : list (Z * Z)) : M S unit :=
  check_pipe polled.

End Writers.

(** The writer variants behind the [CaptureMonitorWriter] interface. *)
Inductive CaptureMonitorWriter : Type :=
| WStdout (s : WriterStdout)
| WPipe (p : WriterPipe).

(** [writer.handle_pkts(pkts)] *)
Definition handle_pkts `{Decoder} {S} (wr : CaptureMonitorWriter) (env : write_env)
  (pkts : list packet) : M S Z :=
  emit (EvHandlePkts (length pkts)) ;;
  match wr with
  | WStdout s => stdout_handle_pkts s pkts
  | WPipe p => pipe_handle_pkts p env pkts
  end.

(** [writer.periodic_check()] *)
Definition periodic_check {S} (wr : CaptureMonitorWriter) (polled : list (Z * Z)) : M S unit :=
  emit EvPeriodicCheck ;;
  match wr with
  | WStdout _ => ret tt
  | WPipe _ => pipe_periodic_check polled
  end.

(** ** The monitor *)

(** A [threading.Thread] object: created, started and running, or finished. *)
Inductive thread : Type := Unstarted | Alive | Dead.

Definition is_alive (th : thread) : bool :=
  match th with
  | Alive => true
  | _ => false
  end.

(** [CaptureMonitor]; [pkt_count] and [byte_count] are [None] while the
    attribute has not been assigned.  [orphan] is not an attribute of the
    Python object: it keeps in sight the thread object that [self.t = None]
    has let go of, which goes on living or not on its own. *)
Record CaptureMonitor : Type := mkMonitor {
  t            : option thread;
  writer       : option CaptureMonitorWriter;
  capture_id   : option Z;
  start_ts     : option pyfloat;
  active       : option bool;
  pkt_count    : option Z;
  byte_count   : option Z;
  tx_port_list : list Z;
  rx_port_list : list Z;
  rate_pps     : Z;
  mon_type     : string;
  orphan       : option thread
}.

Definition set_t (v : option thread) (m : CaptureMonitor) : CaptureMonitor :=
  {| t := v; writer := writer m; capture_id := capture_id m; start_ts := start_ts m;
     active := active m; pkt_count := pkt_count m; byte_count := byte_count m;
     tx_port_list := tx_port_list m; rx_port_list := rx_port_list m;
     rate_pps := rate_pps m; mon_type := mon_type m; orphan := orphan m |}.
Definition set_writer (v : option CaptureMonitorWriter) (m : CaptureMonitor) : CaptureMonitor :=
  {| t := t m; writer := v; capture_id := capture_id m; start_ts := start_ts m;
     active := active m; pkt_count := pkt_count m; byte_count := byte_count m;
     tx_port_list := tx_port_list m; rx_port_list := rx_port_list m;
     rate_pps := rate_pps m; mon_type := mon_type m; orphan := orphan m |}.
Definition set_capture_id (v : option Z) (m : CaptureMonitor) : CaptureMonitor :=
  {| t := t m; writer := writer m; capture_id := v; start_ts := start_ts m;
     active := active m; pkt_count := pkt_count m; byte_count := byte_count m;
     tx_port_list := tx_port_list m; rx_port_list := rx_port_list m;
     rate_pps := rate_pps m; mon_type := mon_type m; orphan := orphan m |}.
(** [self.t = None] *)
Definition drop_t (m : CaptureMonitor) : CaptureMonitor :=
  {| t := None; writer := writer m; capture_id := capture_id m; start_ts := start_ts m;
     active := active m; pkt_count := pkt_count m; byte_count := byte_count m;
     tx_port_list := tx_port_list m; rx_port_list := rx_port_list m;
     rate_pps := rate_pps m; mon_type := mon_type m; orphan := t m |}.
Definition set_start_ts (v : option pyfloat) (m : CaptureMonitor) : CaptureMonitor :=
  {| t := t m; writer := writer m; capture_id := capture_id m; start_ts := v;
     active := active m; pkt_count := pkt_count m; byte_count := byte_count m;
     tx_port_list := tx_port_list m; rx_port_list := rx_port_list m;
     rate_pps := rate_pps m; mon_type := mon_type m; orphan := orphan m |}.
Definition set_active (v : option bool) (m : CaptureMonitor) : CaptureMonitor :=
  {| t := t m; writer := writer m; capture_id := capture_id m; start_ts := start_ts m;
     active := v; pkt_count := pkt_count m; byte_count := byte_count m;
     tx_port_list := tx_port_list m; rx_port_list := rx_port_list m;
     rate_pps := rate_pps m; mon_type := mon_type m; orphan := orphan m |}.
Definition set_pkt_count (v : option Z) (m : CaptureMonitor) : CaptureMonitor :=
  {| t := t m; writer := writer m; capture_id := capture_id m; start_ts := start_ts m;
     active := active m; pkt_count := v; byte_count := byte_count m;
     tx_port_list := tx_port_list m; rx_port_list := rx_port_list m;
     rate_pps := rate_pps m; mon_type := mon_type m; orphan := orphan m |}.
Definition set_byte_count (v : option Z) (m : CaptureMonitor) : CaptureMonitor :=
  {| t := t m; writer := writer m; capture_id := capture_id m; start_ts := start_ts m;
     active := active m; pkt_count := pkt_count m; byte_count := v;
     tx_port_list := tx_port_list m; rx_port_list := rx_port_list m;
     rate_pps := rate_pps m; mon_type := mon_type m; orphan := orphan m |}.

(** The state a monitor method runs in: the object and the world. *)
Record st : Type := mkSt {
  self  : CaptureMonitor;
  world : World
}.

Definition on_self (f : CaptureMonitor -> CaptureMonitor) : M st unit :=
  modify (fun s => {| self := f (self s); world := world s |}).
Definition on_world (f : World -> World) : M st unit :=
  modify (fun s => {| self := self s; world := f (world s) |}).

(** An attribute read that fails when the attribute is missing or [None]. *)
Definition attr {A} (name : string) (f : CaptureMonitor -> option A) : M st A :=
  v <- gets (fun s => f (self s)) ;;
  match v with
  | Some a => ret a
  | None => raise (Exception "AttributeError" name)
  end.

(** An answer of the RPC client: a value or an exception. *)
Definition call {S A} (ev : event) (r : result A) : M S A :=
  emit ev ;;
  match r with
  | Ok a => ret a
  | Raise e => raise e
  end.

(** The [rc] object a transmit returns: truthy with its data, or falsy with
    an error text. *)
Inductive RC : Type :=
| RC_OK (pkts : list packet)
| RC_ERR (msg : string).

(** What the worker observes during one pass of its [while] loop. *)
Record cycle : Type := mkCycle {
  c_active     : bool;             (* self.active at the loop test *)
  c_sleep      : list bool;        (* self.active at the ticks of __sleep *)
  c_check_poll : list (Z * Z);     (* poll(0) during periodic_check *)
  c_lock_busy  : nat;              (* failed acquires with self.active still set *)
  c_lock_got   : bool;             (* then: acquired, or failed with the flag cleared *)
  c_connected  : result bool;      (* client.is_connected() *)
  c_fetch      : result RC;        (* client._transmit("capture", ...) *)
  c_write      : write_env         (* the writer's destination during handle_pkts *)
}.

(** [CaptureMonitor.__sleep]: [n] ticks left; a missing observation reads
    the flag as still set. *)
Fixpoint sleep_ticks (n : nat) (reads : list bool) : M st bool :=
  match n with
  | O => ret true
  | Datatypes.S n' =>
      if hd true reads
      then emit EvSleep ;; sleep_ticks n' (tl reads)
      else ret false
  end.

Definition __sleep (reads : list bool) : M st bool := sleep_ticks 5 reads.

(** [CaptureMonitor.__lock] *)
Fixpoint __lock (busy : nat) (got : bool) : M st bool :=
  match busy with
  | Datatypes.S n =>
      emit (EvAcquire false) ;;
      emit EvSleep ;;
      __lock n got
  | O =>
      emit (EvAcquire got) ;;
      if got
      then on_world (set_lock_held true) ;; ret true
      else ret false
  end.

(** [CaptureMonitor.__unlock] *)
Definition __unlock : M st unit :=
  emit EvRelease ;;
  on_world (set_lock_held false).

(** [self.pkt_count += n; self.byte_count += b] *)
Definition add_counters (n b : Z) : M st unit :=
  pc <- attr "pkt_count" pkt_count ;;
  on_self (set_pkt_count (Some (pc + n))) ;;
  bc <- attr "byte_count" byte_count ;;
  on_self (set_byte_count (Some (bc + b))).

Inductive loop_ctl : Type := Continue | Return.

Section Worker.
Context `{Decoder}.

(** The [try: ... finally: self.__unlock()] block of the loop: the fetch
    under the command lock; it answers [rc.data()['pkts']]. *)
Definition fetch_under_lock (c : cycle) : M st (list packet) :=
  try_finally
    (conn <- call EvIsConnected (c_connected c) ;;
     if negb conn then raise (STLError "client has been disconnected")
     else
       cid <- gets (fun s => capture_id (self s)) ;;
       rc <- call (EvFetch cid 10) (c_fetch c) ;;
       match rc with
       | RC_ERR msg => raise (STLError msg)
       | RC_OK pkts => ret pkts
       end)
    __unlock.

(** The body of the [while self.active] loop of [__thread_main_loop]. *)
Definition cycle_body (c : cycle) : M st loop_ctl :=
  slept <- __sleep (c_sleep c) ;;
  if negb slept then ret Return
  else
    wr <- attr "periodic_check" writer ;;
    periodic_check wr (c_check_poll c) ;;
    locked <- __lock (c_lock_busy c) (c_lock_got c) ;;
    if negb locked then ret Return
    else
      rc <- fetch_under_lock c ;;
      match rc with
      | [] => ret Continue
      | _ :: _ =>
          byte_count' <- handle_pkts wr (c_write c) rc ;;
          add_counters (Z.of_nat (length rc)) byte_count' ;;
          ret Continue
      end.

(** How far the worker got: still inside the loop when the observations run
    out, or out of it. *)
Inductive loop_status : Type := Running | Finished.

(** The [while self.active] loop over the observations of the worker. *)
Fixpoint main_loop (script : list cycle) : M st loop_status :=
  match script with
  | [] => ret Running
  | c :: rest =>
      if c_active c
      then
        ctl <- cycle_body c ;;
        match ctl with
        | Continue => main_loop rest
        | Return => ret Finished
        end
      else ret Finished
  end.

(** [CaptureMonitor.__thread_main_loop] *)
Definition __thread_main_loop (script : list cycle) : M st loop_status :=
  on_self (set_pkt_count (Some 0)) ;;
  on_self (set_byte_count (Some 0)) ;;
  main_loop script.

(** The two [except] clauses of [__thread_cb]. *)
Definition thread_cb_handler (e : exn) : option (M st loop_status) :=
  match e with
  | STLError msg =>
      Some (emit (EvLog ("Monitor has encountered the following error: '" +:+ msg +:+ "'")) ;;
            emit (EvLog "*** monitor is inactive - please restart the monitor ***") ;;
            emit EvPromptRedraw ;;
            ret Finished)
  | KeyboardInterrupt => None
  | _ =>
      Some (emit (EvLog ("*** A fatal internal error has occurred: '" +:+ exn_str e +:+ "'")) ;;
            emit (EvLog "*** monitor is inactive - please restart the monitor ***") ;;
            emit EvPromptRedraw ;;
            ret Finished)
  end.

(** [CaptureMonitor.__thread_cb] *)
Definition __thread_cb (script : list cycle) : M st loop_status :=
  try_except (__thread_main_loop script) thread_cb_handler.

(** The thread object has run its target to the end. *)
Definition ended (s : st) : st :=
  {| self := set_t (Some Dead) (self s); world := world s |}.

(** The worker thread of the monitor runs on the observations [script]: with
    no observation it has not moved; otherwise a thread that has not entered
    its target yet runs [__thread_cb] from the top (the two assignments of
    the counters before the first loop test are taken together: the model
    has no state between them), and one that is inside the loop goes on with
    it.  The thread object is dead once the target has returned or raised,
    and what the target raises is the result of the run. *)
Definition run_worker (script : list cycle) : M st unit :=
  th <- gets (fun s => t (self s)) ;;
  pc <- gets (fun s => pkt_count (self s)) ;;
  match th, script with
  | Some Alive, _ :: _ =>
      fun s =>
        match (match pc with
               | None => __thread_cb script
               | Some _ => try_except (main_loop script) thread_cb_handler
               end) s with
        | (Ok Running, s1, ev) => (Ok tt, s1, ev)
        | (Ok Finished, s1, ev) => (Ok tt, ended s1, ev)
        | (Raise e, s1, ev) => (Raise e, ended s1, ev)
        end
  | _, _ => ret tt
  end.

End Worker.

(** [self.writer.deinit()]: the base class has nothing to release, the pipe
    writer closes its descriptor and removes its file. *)
Definition writer_deinit (wr : CaptureMonitorWriter) : M st unit :=
  match wr with
  | WStdout _ => emit EvDeinit
  | WPipe p =>
      zoom (fun s => {| ps_self := p; ps_world := world s |})
           (fun ps s => {| self := set_writer (Some (WPipe (ps_self ps))) (self s);
                           world := ps_world ps |})
           pipe_deinit
  end.

(** [CaptureMonitorWriterPipe(self.logger, self.start_ts)] called from the
    monitor: the new object is returned only when [__init__] returns. *)
Definition new_pipe (env : pipe_env) (start_ts : pyfloat) : M st WriterPipe :=
  zoom (fun s => {| ps_self := {| fifo := None; fifo_name := None; pp_start_ts := start_ts;
                                  pcap := false; poll := false; is_init := false |};
                    ps_world := world s |})
       (fun ps s => {| self := self s; world := ps_world ps |})
       (pipe_init env start_ts ;; gets ps_self).

(** What the outside answers while a monitor starts. *)
Record start_env : Type := mkStartEnv {
  se_start_capture : result (Z * pyfloat);
                                       (* client.start_capture(...): data['id'], data['ts'] *)
  se_pipe          : pipe_env;         (* used by the pipe writer only *)
  se_thread_start  : result unit       (* self.t.start() *)
}.

(** What the outside answers while a monitor stops.  [st_pending] is what the
    worker still observes between the last time the model looked at it and
    the moment its loop test sees the cleared flag. *)
Record stop_env : Type := mkStopEnv {
  st_pending      : list cycle;
  st_connected    : result bool;       (* client.is_connected() *)
  st_status       : result (list Z);   (* ids of client.get_capture_status() *)
  st_stop_capture : result unit        (* client.stop_capture(capture_id) *)
}.

(** The loop test that reads the cleared flag. *)
Definition stop_cycle : cycle :=
  {| c_active := false; c_sleep := []; c_check_poll := []; c_lock_busy := 0;
     c_lock_got := false; c_connected := Ok false; c_fetch := Ok (RC_OK []);
     c_write := {| we_poll := []; we_write := [] |} |}.

Section Monitor.
Context `{Decoder}.

(** [self.t.join()], called after [self.active = False]: the caller waits
    until the worker is through; what the target of the thread may have
    raised stays in the thread. *)
Definition join (pending : list cycle) : M st unit :=
  emit EvThreadJoin ;;
  fun s =>
    match run_worker (pending ++ [stop_cycle]) s with
    | (_, s1, ev) => (Ok tt, s1, ev)
    end.

(** [CaptureMonitor.__start] *)
Definition __start (env : start_env) : M st unit :=
  m <- gets self ;;
  data <- call (EvStartCapture (tx_port_list m) (rx_port_list m) (rate_pps m) "cyclic")
               (se_start_capture env) ;;
  on_self (set_capture_id (Some (fst data))) ;;
  on_self (set_start_ts (Some (snd data))) ;;
  (if decide (mon_type m = "compact") then
     wr <- stdout_init true (snd data) ;;
     on_self (set_writer (Some (WStdout wr)))
   else if decide (mon_type m = "verbose") then
     wr <- stdout_init false (snd data) ;;
     on_self (set_writer (Some (WStdout wr)))
   else if decide (mon_type m = "pipe") then
     wr <- new_pipe (se_pipe env) (snd data) ;;
     on_self (set_writer (Some (WPipe wr)))
   else raise (STLError "Internal error: unknown writer type")) ;;
  on_self (set_t (Some Unstarted)) ;;
  on_self (set_active (Some true)) ;;
  call EvThreadStart (se_thread_start env) ;;
  on_self (set_t (Some Alive)).

(** The first block of [__stop], "stop the thread". *)
Definition stop_thread (pending : list cycle) : M st unit :=
  th <- gets (fun s => t (self s)) ;;
  match th with
  | Some Alive =>
      on_self (set_active (Some false)) ;;
      join pending ;;
      on_self drop_t
  | _ => ret tt
  end.

(** Its second block, "deinit the writer". *)
Definition stop_writer : M st unit :=
  wr <- gets (fun s => writer (self s)) ;;
  match wr with
  | Some w => writer_deinit w ;; on_self (set_writer None)
  | None => ret tt
  end.

(** The rest of it: "take the capture ID", and remove the capture when the
    client is connected and the server still lists it. *)
Definition stop_remote (env : stop_env) : M st unit :=
  cid <- gets (fun s => capture_id (self s)) ;;
  on_self (set_capture_id None) ;;
  conn <- call EvIsConnected (st_connected env) ;;
  if negb conn then ret tt
  else
    captures <- call EvGetCaptureStatus (st_status env) ;;
    match cid with
    | Some id =>
        if decide (id ∈ captures)
        then call (EvStopCapture id) (st_stop_capture env)
        else ret tt
    | None => ret tt
    end.

(** [CaptureMonitor.__stop] *)
Definition __stop (env : stop_env) : M st unit :=
  stop_thread (st_pending env) ;;
  stop_writer ;;
  stop_remote env.

(** [CaptureMonitor.stop] *)
Definition stop (env : stop_env) : M st unit :=
  emit (EvLog "Stopping capture monitor") ;;
  try_except (__stop env)
    (fun e => if is_Exception e then Some (emit (EvLog "ERR") ;; raise e) else None) ;;
  emit (EvLog "OK").

(** [CaptureMonitor.__init__]: [renv] is what the outside answers to the
    [__stop] of the [except] clause. *)
Definition CaptureMonitor_init (tx rx : list Z) (rate : Z) (type : string)
  (env : start_env) (renv : stop_env) : M st unit :=
  on_self (fun _ => {| t := None; writer := None; capture_id := None; start_ts := None;
                       active := None; pkt_count := None; byte_count := None;
                       tx_port_list := tx; rx_port_list := rx; rate_pps := rate;
                       mon_type := type; orphan := None |}) ;;
  try_except (__start env)
    (fun e => if is_Exception e then Some (__stop renv ;; raise e) else None).

End Monitor.

(** The row [get_mon_row] builds; [format_text] and [format_num] only render
    the status and the byte counter, which are kept as they are. *)
Record mon_row : Type := mkRow {
  row_id     : option Z;
  row_status : string;
  row_pkts   : Z;
  row_bytes  : Z;
  row_tx     : string;
  row_rx     : string
}.

(** [', '.join([str(x) for x in ports] if ports else '-')] *)
Definition ports_str (ports : list Z) : string :=
  match ports with
  | [] => "-"
  | _ :: _ => String.concat ", " (map pretty ports)
  end.

(** [CaptureMonitor.get_mon_row] *)
Definition get_mon_row (m : CaptureMonitor) : result mon_row :=
  match t m with
  | None => Raise (Exception "AttributeError" "'NoneType' object has no attribute 'is_alive'")
  | Some th =>
      match pkt_count m with
      | None => Raise (Exception "AttributeError"
                         "'CaptureMonitor' object has no attribute 'pkt_count'")
      | Some pc =>
          match byte_count m with
          | None => Raise (Exception "AttributeError"
                             "'CaptureMonitor' object has no attribute 'byte_count'")
          | Some bc =>
              Ok {| row_id := capture_id m;
                    row_status := if is_alive th then "ACTIVE" else "DEAD";
                    row_pkts := pc;
                    row_bytes := bc;
                    row_tx := ports_str (tx_port_list m);
                    row_rx := ports_str (rx_port_list m) |}
          end
      end
  end.

(** [CaptureMonitor.is_active] *)
Definition is_active (m : CaptureMonitor) : option bool := active m.

(** [CaptureMonitor.get_capture_id] *)
Definition get_capture_id (m : CaptureMonitor) : option Z := capture_id m.

(** ** The manager *)

(** The manager with its one [monitor] attribute, the world, and every
    monitor object the manager has let go of ([dropped] is not a field of the
    Python object: it keeps the unreferenced monitors in sight). *)
Record sys : Type := mkSys {
  monitor   : option CaptureMonitor;
  dropped   : list CaptureMonitor;
  sys_world : World
}.

(** [CaptureManager.__init__] *)
Definition CaptureManager_init (w : World) : sys :=
  {| monitor := None; dropped := []; sys_world := w |}.

(** The options of [capture monitor start]. *)
Record opts : Type := mkOpts {
  opt_verbose      : bool;
  opt_pipe         : bool;
  opt_tx_port_list : list Z;
  opt_rx_port_list : list Z
}.

Section Manager.
Context `{Decoder}.

(** Running a method of the monitor the manager holds. *)
Definition on_monitor {A} (m : CaptureMonitor) (c : M st A) : M sys A :=
  zoom (fun s => {| self := m; world := sys_world s |})
       (fun s1 s => {| monitor := Some (self s1); dropped := dropped s;
                       sys_world := world s1 |})
       c.

(** [self.monitor = None] *)
Definition forget_monitor : M sys unit :=
  modify (fun s => match monitor s with
                   | Some m => {| monitor := None; dropped := m :: dropped s;
                                  sys_world := sys_world s |}
                   | None => s
                   end).

(** [if self.monitor: self.monitor.stop(); self.monitor = None], the body of
    [CaptureManager.stop] and [parse_monitor_stop], and the first step of
    [parse_clear] and of a monitor start. *)
Definition manager_stop (env : stop_env) : M sys unit :=
  mon <- gets monitor ;;
  match mon with
  | Some m => on_monitor m (stop env) ;; forget_monitor
  | None => ret tt
  end.

(** [self.monitor = CaptureMonitor(...)]: the attribute is assigned only when
    the constructor returns. *)
Definition new_monitor (tx rx : list Z) (rate : Z) (type : string)
  (env : start_env) (renv : stop_env) : M sys unit :=
  fun s =>
    match CaptureMonitor_init tx rx rate type env renv
            {| self := {| t := None; writer := None; capture_id := None; start_ts := None;
                          active := None; pkt_count := None; byte_count := None;
                          tx_port_list := tx; rx_port_list := rx; rate_pps := rate;
                          mon_type := type; orphan := None |};
               world := sys_world s |} with
    | (Ok _, s1, ev) =>
        (Ok tt, {| monitor := Some (self s1); dropped := dropped s; sys_world := world s1 |}, ev)
    | (Raise e, s1, ev) =>
        (Raise e, {| monitor := monitor s; dropped := self s1 :: dropped s;
                     sys_world := world s1 |}, ev)
    end.

(** What the outside answers during [capture monitor start]. *)
Record monitor_start_env : Type := mkMonitorStartEnv {
  ms_stop     : stop_env;     (* stopping the monitor in place *)
  ms_start    : start_env;    (* starting the new one *)
  ms_rollback : stop_env      (* the [__stop] after a failed start *)
}.

(** [CaptureManager.parse_monitor_start] *)
Definition parse_monitor_start (o : opts) (env : monitor_start_env) : M sys unit :=
  let mon_type := if opt_verbose o then "verbose"
                  else if opt_pipe o then "pipe" else "compact" in
  match opt_tx_port_list o, opt_rx_port_list o with
  | [], [] => emit (EvLog "please provide either --tx or --rx")
  | _, _ =>
      manager_stop (ms_stop env) ;;
      new_monitor (opt_tx_port_list o) (opt_rx_port_list o) 100 mon_type
                  (ms_start env) (ms_rollback env)
  end.

(** [CaptureManager.parse_monitor_stop] *)
Definition parse_monitor_stop (env : stop_env) : M sys unit :=
  manager_stop env.

(** [CaptureManager.parse_clear] *)
Definition parse_clear (env : stop_env) (remove_all : result unit) : M sys unit :=
  manager_stop env ;;
  call EvRemoveAllCaptures remove_all.




End Manager.

(** The monitor refers to a worker thread that is alive. *)
Definition live (m : CaptureMonitor) : bool :=
  match t m with
  | Some th => is_alive th
  | None => false
  end.

(** The monitor has let go of a thread that is alive. *)
Definition orphan_alive (m : CaptureMonitor) : bool :=
  match orphan m with
  | Some th => is_alive th
  | None => false
  end.

(** The worker thread of the monitor is alive, whether the monitor still
    refers to it or has let go of it. *)
Definition running (m : CaptureMonitor) : bool := live m || orphan_alive m.

Definition all_monitors (s : sys) : list CaptureMonitor :=
  match monitor s with
  | Some m => m :: dropped s
  | None => dropped s
  end.

Definition live_count (s : sys) : nat :=
  length (filter (fun m => live m = true) (all_monitors s)).


(** ** Vocabulary of the statements *)

(** The size of a batch: the sum of the sizes of its decoded packets, when
    all of them decode. *)
Fixpoint batch_bytes `{Decoder} (pkts : list packet) : option Z :=
  match pkts with
  | [] => Some 0
  | pkt :: rest =>
      match b64decode (binary pkt), batch_bytes rest with
      | Some pkt_bin, Some n => Some (Z.of_nat (length pkt_bin) + n)
      | _, _ => None
      end
  end.

(** What [writer.handle_pkts(pkts)] answers; the writers do not read the
    state they run in. *)
Definition handle_result `{Decoder} (wr : CaptureMonitorWriter) (env : write_env)
  (pkts : list packet) : result Z :=
  fst (fst (handle_pkts wr env pkts tt)).

(** The events a writer produces while it checks its destination or handles
    a batch. *)
Definition writer_event (e : event) : bool :=
  match e with
  | EvHandlePkts _ | EvPeriodicCheck | EvPoll _ | EvPktHeader _ _ _ _ _ _ | EvPktBody _
  | EvWritePacket _ _ _ | EvPromptRedraw => true
  | _ => false
  end.

(** The events the worker thread produces. *)
Definition worker_event (e : event) : bool :=
  match e with
  | EvSleep | EvAcquire _ | EvRelease | EvIsConnected | EvFetch _ _ | EvLog _ => true
  | _ => writer_event e
  end.

Definition is_release (e : event) : bool :=
  match e with
  | EvRelease => true
  | _ => false
  end.

Definition is_acquired (e : event) : bool :=
  match e with
  | EvAcquire true => true
  | _ => false
  end.

Definition is_handle_pkts (e : event) : bool :=
  match e with
  | EvHandlePkts _ => true
  | _ => false
  end.

Definition is_fetch (e : event) : bool :=
  match e with
  | EvFetch _ _ => true
  | _ => false
  end.

Definition is_stop_capture (e : event) : bool :=
  match e with
  | EvStopCapture _ => true
  | _ => false
  end.

(** The discipline of the command lock, read off a trace of the worker:
    [scan held ev] follows the lock through [ev] and answers whether it is
    held at the end, or [None] when the trace acquires a lock it holds,
    releases one it does not hold, or does anything but talk to the client
    while it holds the lock. *)
Fixpoint scan (held : bool) (ev : list event) : option bool :=
  match ev with
  | [] => Some held
  | e :: rest =>
      match e with
      | EvAcquire true => if held then None else scan true rest
      | EvRelease => if held then scan false rest else None
      | EvIsConnected | EvFetch _ _ => scan held rest
      | _ => if held then None else scan false rest
      end
  end.

(** The trace of [__lock]: [busy] failed attempts, each followed by a
    nap, and the last attempt. *)
Fixpoint lock_trace (busy : nat) (got : bool) : list event :=
  match busy with
  | O => [EvAcquire got]
  | Datatypes.S n => EvAcquire false :: EvSleep :: lock_trace n got
  end.

(** What the worker leaves alone: the attributes the command thread owns,
    and the filesystem. *)
Record frame (s s' : st) : Prop := mkFrame {
  fr_t          : t (self s') = t (self s);
  fr_writer     : writer (self s') = writer (self s);
  fr_capture_id : capture_id (self s') = capture_id (self s);
  fr_start_ts   : start_ts (self s') = start_ts (self s);
  fr_active     : active (self s') = active (self s);
  fr_tx         : tx_port_list (self s') = tx_port_list (self s);
  fr_rx         : rx_port_list (self s') = rx_port_list (self s);
  fr_rate       : rate_pps (self s') = rate_pps (self s);
  fr_type       : mon_type (self s') = mon_type (self s);
  fr_fs         : fs (world s') = fs (world s);
  fr_fds        : fds (world s') = fds (world s)
}.

(** The same, and the thread the monitor has let go of. *)
Definition frame_o (s s' : st) : Prop :=
  frame s s' /\ orphan (self s') = orphan (self s).

(** The state with the command lock taken, or given back, by the worker. *)
Definition locked (s : st) : st :=
  {| self := self s; world := set_lock_held true (world s) |}.
Definition unlocked (s : st) : st :=
  {| self := self s; world := set_lock_held false (world s) |}.

(** The events of the worker while it does not hold the lock, and the two
    calls it makes while it does. *)
Definition unlocked_event (e : event) : bool :=
  match e with
  | EvSleep | EvAcquire false | EvLog _ => true
  | _ => writer_event e
  end.

Definition rpc_event (e : event) : bool :=
  match e with
  | EvIsConnected | EvFetch _ _ => true
  | _ => false
  end.

(** What a pipe monitor accounts for: a constructed writer that holds its
    file under [name] and an open descriptor, or no writer and no file. *)
Definition pipe_accounted (name : string) (s : st) : Prop :=
  match writer (self s) with
  | Some (WPipe p) =>
      fifo_name p = Some name /\ forall fd, fifo p = Some fd -> fd ∈ fds (world s)
  | Some (WStdout _) => False
  | None => name ∉ fs (world s)
  end.

(** How many events of a kind a trace holds. *)
Fixpoint count (p : event -> bool) (ev : list event) : nat :=
  match ev with
  | [] => O
  | e :: rest => if p e then Datatypes.S (count p rest) else count p rest
  end.

(** The paths through one pass of the worker loop, each with its result,
    the state it leaves and its trace: woken from the sleep by the cleared
    flag; no writer to check; the writer's check fails; the wait for the lock
    given up; the fetch under the lock fails; the fetch returns nothing; the
    fetched batch is handed to the writer and counted. *)
Inductive cycle_path `{Decoder} (c : cycle) (s : st) :
  result loop_ctl -> st -> list event -> Prop :=
| path_woken k :
    cycle_path c s (Ok Return) s (repeat EvSleep k)
| path_no_writer k e :
    writer (self s) = None ->
    cycle_path c s (Raise e) s (repeat EvSleep k)
| path_check_failed k wr e evp :
    writer (self s) = Some wr ->
    periodic_check wr (c_check_poll c) s = (Raise e, s, evp) ->
    cycle_path c s (Raise e) s (repeat EvSleep k ++ evp)
| path_lock_given_up k wr evp :
    writer (self s) = Some wr ->
    periodic_check wr (c_check_poll c) s = (Ok tt, s, evp) ->
    c_lock_got c = false ->
    cycle_path c s (Ok Return) s
      (repeat EvSleep k ++ evp ++ lock_trace (c_lock_busy c) false)
| path_fetch_failed k wr evp e evf :
    writer (self s) = Some wr ->
    periodic_check wr (c_check_poll c) s = (Ok tt, s, evp) ->
    c_lock_got c = true ->
    fetch_under_lock c (locked s) = (Raise e, unlocked s, evf) ->
    cycle_path c s (Raise e) (unlocked s)
      (repeat EvSleep k ++ evp ++ lock_trace (c_lock_busy c) true ++ evf)
| path_nothing_fetched k wr evp evf :
    writer (self s) = Some wr ->
    periodic_check wr (c_check_poll c) s = (Ok tt, s, evp) ->
    c_lock_got c = true ->
    fetch_under_lock c (locked s) = (Ok [], unlocked s, evf) ->
    cycle_path c s (Ok Continue) (unlocked s)
      (repeat EvSleep k ++ evp ++ lock_trace (c_lock_busy c) true ++ evf)
| path_write_failed k wr evp evf pkt pkts e :
    writer (self s) = Some wr ->
    periodic_check wr (c_check_poll c) s = (Ok tt, s, evp) ->
    c_lock_got c = true ->
    fetch_under_lock c (locked s) = (Ok (pkt :: pkts), unlocked s, evf) ->
    handle_result wr (c_write c) (pkt :: pkts) = Raise e ->
    cycle_path c s (Raise e) (unlocked s)
      (repeat EvSleep k ++ evp ++ lock_trace (c_lock_busy c) true ++ evf ++
       snd (handle_pkts wr (c_write c) (pkt :: pkts) tt))
| path_counted k wr evp evf pkt pkts b r s' :
    writer (self s) = Some wr ->
    periodic_check wr (c_check_poll c) s = (Ok tt, s, evp) ->
    c_lock_got c = true ->
    fetch_under_lock c (locked s) = (Ok (pkt :: pkts), unlocked s, evf) ->
    handle_result wr (c_write c) (pkt :: pkts) = Ok b ->
    add_counters (Z.of_nat (length (pkt :: pkts))) b (unlocked s) = (r, s', []) ->
    cycle_path c s (match r with Ok _ => Ok Continue | Raise e => Raise e end) s'
      (repeat EvSleep k ++ evp ++ lock_trace (c_lock_busy c) true ++ evf ++
       snd (handle_pkts wr (c_write c) (pkt :: pkts) tt)).

(** A pass of the worker loop that goes all the way: the flag is read as set
    at the loop test and at every tick, the writer finds its destination in
    order, the lock is acquired, the client is connected, the fetch returns
    [k] packets, and the writer answers [b] bytes for them (no call, and no
    bytes, for an empty batch). *)
Definition cycle_ok `{Decoder} (wr : CaptureMonitorWriter) (c : cycle) (k b : Z) : Prop :=
  c_active c = true /\
  forallb (fun x => x) (firstn 5 (c_sleep c)) = true /\
  (forall p, wr = WPipe p -> c_check_poll c = []) /\
  c_lock_got c = true /\
  c_connected c = Ok true /\
  exists pkts, c_fetch c = Ok (RC_OK pkts) /\
               k = Z.of_nat (length pkts) /\
               match pkts with
               | [] => b = 0
               | _ :: _ => handle_result wr (c_write c) pkts = Ok b
               end.

(** A run of such passes with their packet and byte counts. *)
Inductive cycles_ok `{Decoder} (wr : CaptureMonitorWriter) :
  list cycle -> list Z -> list Z -> Prop :=
| cycles_ok_nil : cycles_ok wr [] [] []
| cycles_ok_cons c k b script ks bs :
    cycle_ok wr c k b -> cycles_ok wr script ks bs ->
    cycles_ok wr (c :: script) (k :: ks) (b :: bs).

Definition sumZ (l : list Z) : Z := fold_right Z.add 0 l.

(** The counters of a monitor after its worker has run on [script] from the
    top of [__thread_main_loop]. *)
Definition counters_after `{Decoder} (script : list cycle) (s : st) : option Z * option Z :=
  let s' := snd (fst (__thread_main_loop script s)) in
  (pkt_count (self s'), byte_count (self s')).

(** The ways the loop of the pipe writer fails: a packet that does not
    decode, a write that raises an [Exception], or something that is not an
    [Exception] coming out of the write. *)
Definition pipe_failure `{Decoder} (pkts : list packet) (outs : list (option exn))
  (e : exn) : Prop :=
  (e = Exception "binascii.Error" "Incorrect padding" /\
   exists pkt, In pkt pkts /\ b64decode (binary pkt) = None) \/
  (exists e0, In (Some e0) outs /\ is_Exception e0 = true /\
              e = STLError ("fail to write packets to pipe: " +:+ exn_str e0)) \/
  (In (Some e) outs /\ is_Exception e = false).

(** The ways the loop of the stdout writer fails: a packet that does not
    decode, one that scapy cannot dissect, or one whose body scapy cannot
    render ([command()] for the brief writer, [show()] for the other). *)
Definition stdout_failure `{Decoder} (wr : WriterStdout) (pkts : list packet) (e : exn) : Prop :=
  exists pkt, In pkt pkts /\
    match b64decode (binary pkt) with
    | None => e = Exception "binascii.Error" "Incorrect padding"
    | Some pkt_bin =>
        Ether pkt_bin = Raise e \/
        exists pkt_scapy, Ether pkt_bin = Ok pkt_scapy /\
          if so_is_brief wr then scapy_command pkt_scapy = Raise e
          else scapy_show pkt_scapy = Raise e
    end.

(** One of the calls of the constructor of the pipe writer fails with an
    exception that is neither an [OSError] nor a [KeyboardInterrupt]. *)
Definition pipe_env_fails (env : pipe_env) (cls msg : string) : Prop :=
  pe_mkfifo env = OsFail cls msg \/ pe_open env = OsFail cls msg \/
  pe_pcap env = OsFail cls msg \/ pe_header env = OsFail cls msg \/
  pe_register env = OsFail cls msg.


(** The monitor as [__init__] has it when it calls [__start]. *)
Definition monitor_entry (tx rx : list Z) (rate : Z) (type : string) (s : st) : st :=
  {| self := {| t := None; writer := None; capture_id := None; start_ts := None;
                active := None; pkt_count := None; byte_count := None;
                tx_port_list := tx; rx_port_list := rx; rate_pps := rate;
                mon_type := type; orphan := None |};
     world := world s |}.

(** The pipe writer as [__init__] has it when it enters its [try] block. *)
Definition pipe_entry (env : pipe_env) (start_ts : Z) (s : pipe_st) : pipe_st :=
  {| ps_self := {| fifo := None; fifo_name := Some (pe_mktemp env); pp_start_ts := start_ts;
                   pcap := false; poll := false; is_init := false |};
     ps_world := ps_world s |}.

(** [keeps R P Q m]: whatever [m] does, the states before and after are
    related by [R], every event it produces satisfies [P], and a value it
    returns satisfies [Q]. *)
Definition keeps {S A} (R : S -> S -> Prop) (P : event -> bool) (Q : A -> Prop)
  (m : M S A) : Prop :=
  forall s r s' ev, m s = (r, s', ev) ->
    R s s' /\ forallb P ev = true /\ (forall a, r = Ok a -> Q a).


(** ** Sample data *)

Module Samples.

(** Two Ethernet frames with addresses of zeros and the type 0x88b5, which
    scapy binds to no layer, one with no payload and one with a payload of a
    single byte, and three bytes that are too short for a frame. *)
Definition frame14 : list Byte.byte := repeat Byte.x00 12 ++ [Byte.x88; Byte.xb5].
Definition frame15 : list Byte.byte := frame14 ++ [Byte.x00].
Definition runt : list Byte.byte := [Byte.x00; Byte.x01; Byte.x02].

(** The library on a few inputs.  The decoder knows the base64 texts of the
    frames above and refuses anything else, as any base64 decoder refuses
    a text of two characters without its padding.  Scapy reads the two
    addresses and the type of the Ethernet header as long as bytes are left:
    a field that is cut short makes [struct.unpack] raise (the text is that
    of Python 3), and a payload of a type scapy does not know is taken as
    Raw.  The samples name the float of [k] quarters of a second by [k]:
    subtraction and the split in seconds and microseconds are exact on
    them. *)
Definition decoder : Decoder :=
  {| b64decode := fun s =>
       if decide (s = "AAAAAAAAAAAAAAAAiLUA") then Some frame15
       else if decide (s = "AAAAAAAAAAAAAAAAiLU=") then Some frame14
       else if decide (s = "AAEC") then Some runt
       else if decide (s = EmptyString) then Some []
       else None;
     Ether := fun pkt_bin =>
       match length pkt_bin with
       | 0 | 6 | 12 | 14 => Ok (Last "Ethernet")
       | 13 => Raise (Exception "struct.error" "unpack requires a buffer of 2 bytes")
       | n => if (n <? 12)%nat
              then Raise (Exception "struct.error" "unpack requires a buffer of 6 bytes")
              else Ok (Layer "Ethernet" (Last "Raw"))
       end%nat;
     scapy_command := fun _ => Ok "Ether()";
     scapy_show := fun _ => Ok tt;
     fsub := Z.sub;
     sec_split_usec := fun d => (d / 4, 250000 * (d mod 4)) |}.

Definition pkt (b : string) (i : Z) : packet :=
  {| binary := b; index := i; port := 0; origin := "RX"; ts := 1000000 + i |}.

Definition good_batch : list packet :=
  [pkt "AAAAAAAAAAAAAAAAiLUA" 1; pkt "AAAAAAAAAAAAAAAAiLU=" 2; pkt "AAAAAAAAAAAAAAAAiLUA" 3].

Definition quiet : write_env := {| we_poll := []; we_write := [] |}.

Definition world0 : World := {| fs := ∅; fds := ∅; lock_held := false |}.

Definition stdout_writer : CaptureMonitorWriter :=
  WStdout {| so_is_brief := true; so_start_ts := 1000000 |}.

(** A pass that fetches [pkts]. *)
Definition fetching (pkts : list packet) : cycle :=
  {| c_active := true; c_sleep := []; c_check_poll := []; c_lock_busy := 1;
     c_lock_got := true; c_connected := Ok true; c_fetch := Ok (RC_OK pkts);
     c_write := quiet |}.

(** A pass in which the fetch is refused by the server. *)
Definition refused : cycle :=
  {| c_active := true; c_sleep := []; c_check_poll := []; c_lock_busy := 0;
     c_lock_got := true; c_connected := Ok true; c_fetch := Ok (RC_ERR "no such capture");
     c_write := quiet |}.

Definition pipe_ok : pipe_env :=
  {| pe_mktemp := "/tmp/tmpq1"; pe_mkfifo := OsOk tt; pe_open := OsOk 3;
     pe_pcap := OsOk 4; pe_header := OsOk tt; pe_register := OsOk tt |}.

(** Ctrl-C while the constructor waits for the reader of the pipe. *)
Definition pipe_interrupted : pipe_env :=
  {| pe_mktemp := "/tmp/tmpq1"; pe_mkfifo := OsOk tt; pe_open := OsIntr;
     pe_pcap := OsOk 4; pe_header := OsOk tt; pe_register := OsOk tt |}.


Definition blank_pipe_st : pipe_st :=
  {| ps_self := {| fifo := None; fifo_name := None; pp_start_ts := 0; pcap := false;
                   poll := false; is_init := false |};
     ps_world := world0 |}.

Definition start_ok : start_env :=
  {| se_start_capture := Ok (7, 1000000); se_pipe := pipe_ok; se_thread_start := Ok tt |}.



(** The server still lists capture 7 and stops it on request. *)
Definition stop_ok : stop_env :=
  {| st_pending := []; st_connected := Ok true; st_status := Ok [5; 7];
     st_stop_capture := Ok tt |}.

(** The server fails to answer the status request. *)
Definition stop_failing : stop_env :=
  {| st_pending := []; st_connected := Ok true;
     st_status := Raise (STLError "timeout"); st_stop_capture := Ok tt |}.

Definition blank_monitor : CaptureMonitor :=
  {| t := None; writer := None; capture_id := None; start_ts := None; active := None;
     pkt_count := None; byte_count := None; tx_port_list := []; rx_port_list := [];
     rate_pps := 0; mon_type := EmptyString; orphan := None |}.

Definition blank : st := {| self := blank_monitor; world := world0 |}.

(** A compact monitor on tx port 0 and rx port 1, just constructed. *)
Definition started : st :=
  snd (fst (CaptureMonitor_init (H := decoder) [0] [1] 100 "compact" start_ok stop_ok blank)).

(** The same monitor after its worker has fetched three packets and has then
    been refused by the server: the worker thread has ended on the error. *)
Definition worker_died : st :=
  snd (fst (run_worker (H := decoder) [fetching good_batch; refused] started)).


Definition start_cmd : monitor_start_env :=
  {| ms_stop := stop_ok; ms_start := start_ok; ms_rollback := stop_ok |}.

End Samples.

(** * The rest of the module *)

(** ** The layers of a packet *)

(** The names of the layers of a packet, from the outermost one. *)
Fixpoint layers (l : scapy_pkt) : list string :=
  match l with
  | Last n => [n]
  | Layer n p => n :: layers p
  end.

(** The longest prefix of a list whose elements pass a test. *)
Fixpoint take_while {A} (f : A -> bool) (l : list A) : list A :=
  match l with
  | [] => []
  | x :: rest => if f x then x :: take_while f rest else []
  end.

(** ** The console commands of the manager *)

(** One element of [client.get_capture_status()]; the two filters are the
    bit fields of the ports, as the server sends them. *)
Record capture_info : Type := mkInfo {
  ci_id    : Z;
  ci_state : string;
  ci_count : Z;
  ci_limit : Z;
  ci_bytes : Z;
  ci_tx    : Z;
  ci_rx    : Z
}.

(** A row of the table of recorders; [format_text], [format_num] and
    [bitfield_to_str] only render the state, the bytes and the filters,
    which are kept as they are. *)
Record cap_row : Type := mkCapRow {
  cr_id      : Z;
  cr_state   : string;
  cr_packets : string;
  cr_bytes   : Z;
  cr_tx      : Z;
  cr_rx      : Z
}.

(** The row [parse_show] builds for a capture that is not the monitor's. *)
Definition recorder_row (elem : capture_info) : cap_row :=
  {| cr_id := ci_id elem;
     cr_state := ci_state elem;
     cr_packets := "[" +:+ pretty (ci_count elem) +:+ "/" +:+ pretty (ci_limit elem) +:+ "]";
     cr_bytes := ci_bytes elem;
     cr_tx := ci_tx elem;
     cr_rx := ci_rx elem |}.

(** [self.monitor and (self.monitor.get_capture_id() == id)]: the monitor
    when the test holds. *)
Definition monitor_of (mon : option CaptureMonitor) (id : Z) : option CaptureMonitor :=
  match mon with
  | Some m => if decide (get_capture_id m = Some id) then Some m else None
  | None => None
  end.

(** The [for elem in data] loop of [parse_show], with the rows of the two
    tables so far. *)
Fixpoint show_rows (mon : option CaptureMonitor) (data : list capture_info)
  (cap_table : list cap_row) (mon_table : list mon_row) :
  result (list cap_row * list mon_row) :=
  match data with
  | [] => Ok (cap_table, mon_table)
  | elem :: rest =>
      match monitor_of mon (ci_id elem) with
      | Some m =>
          match get_mon_row m with
          | Ok row => show_rows mon rest cap_table (mon_table ++ [row])
          | Raise e => Raise e
          end
      | None => show_rows mon rest (cap_table ++ [recorder_row elem]) mon_table
      end
  end.

(** The subcommands of [capture record] and of [capture monitor], and the
    commands of [capture], as the argument parser hands them over. *)
Inductive record_cmd : Type :=
| RecordStart (tx rx : list Z) (limit : Z)
| RecordStop (capture_id : Z) (output_filename : string)
| RecordNone.

Inductive monitor_cmd : Type :=
| MonStart (o : opts)
| MonStop
| MonNone.

Inductive command : Type :=
| CmdRecord (c : record_cmd)
| CmdMonitor (c : monitor_cmd)
| CmdClear
| CmdShow.

(** What the outside answers during a console command. *)
Record console_env : Type := mkConsoleEnv {
  ce_monitor       : monitor_start_env;            (* starting and stopping monitors *)
  ce_status        : result (list capture_info);   (* client.get_capture_status() *)
  ce_start_capture : result Z;                     (* client.start_capture(...)['id'] *)
  ce_stop_capture  : result unit;                  (* client.stop_capture(id, file) *)
  ce_remove_all    : result unit                   (* client.remove_all_captures() *)
}.

Section Console.
Context `{Decoder}.

(** [CaptureManager.parse_record_start] *)
Definition parse_record_start (tx rx : list Z) (limit : Z) (env : console_env) : M sys unit :=
  match tx, rx with
  | [], [] => emit (EvLog "please provide either --tx or --rx")
  | _, _ =>
      id <- call (EvStartCapture tx rx limit "fixed") (ce_start_capture env) ;;
      emit (EvLog ("*** Capturing ID is set to '" +:+ pretty id +:+ "' ***")) ;;
      emit (EvLog ("*** Please call 'capture record stop --id " +:+ pretty id
                   +:+ " -o <out.pcap>' when done ***"))
  end.

(** [CaptureManager.parse_record_stop]; the output file goes to the client
    with the id. *)
Definition parse_record_stop (capture_id : Z) (output_filename : string)
  (env : console_env) : M sys unit :=
  captures <- call EvGetCaptureStatus (ce_status env) ;;
  mon <- gets monitor ;;
  match monitor_of mon capture_id with
  | Some _ =>
      emit (EvLog ("'" +:+ pretty capture_id
                   +:+ "' is a monitor, please use 'capture monitor stop'"))
  | None =>
      if decide (capture_id ∈ map ci_id captures)
      then call (EvStopCapture capture_id) (ce_stop_capture env)
      else emit (EvLog ("'" +:+ pretty capture_id +:+ "' is not an active capture ID"))
  end.

(** [CaptureManager.parse_record] *)
Definition parse_record (c : record_cmd) (env : console_env) : M sys unit :=
  match c with
  | RecordStart tx rx limit => parse_record_start tx rx limit env
  | RecordStop id file => parse_record_stop id file env
  | RecordNone => emit (EvLog "too few arguments")
  end.

(** [CaptureManager.parse_monitor] *)
Definition parse_monitor (c : monitor_cmd) (env : console_env) : M sys unit :=
  match c with
  | MonStart o => parse_monitor_start o (ce_monitor env)
  | MonStop => parse_monitor_stop (ms_stop (ce_monitor env))
  | MonNone => emit (EvLog "too few arguments")
  end.

(** [CaptureManager.parse_show]; it answers the rows of the two tables it
    prints, the recorders first. *)
Definition parse_show (env : console_env) : M sys (list cap_row * list mon_row) :=
  data <- call EvGetCaptureStatus (ce_status env) ;;
  mon <- gets monitor ;;
  tables <- match show_rows mon data [] [] with
            | Ok tables => ret tables
            | Raise e => raise e
            end ;;
  match fst tables with
  | [] => ret tt
  | _ :: _ => emit (EvLog "Active Recorders")
  end ;;
  match snd tables with
  | [] => ret tt
  | _ :: _ => emit (EvLog "Active Monitor")
  end ;;
  ret tables.

(** [CaptureManager.parse_line_internal]; [parse_args] is the argument
    parser on the words of the line, [None] when it refuses them. *)
Definition parse_line_internal (parse_args : string -> option command) (line : string)
  (env : console_env) : M sys unit :=
  let line := if decide (line = EmptyString) then "show" else line in
  match parse_args line with
  | None => ret tt
  | Some (CmdRecord c) => parse_record c env
  | Some (CmdMonitor c) => parse_monitor c env
  | Some CmdClear => parse_clear (ms_stop (ce_monitor env)) (ce_remove_all env)
  | Some CmdShow => parse_show env ;; ret tt
  end.

(** [CaptureManager.parse_line]: it answers [None], or the text of the
    [RC_ERR] it returns; the line it logs is kept without its line breaks
    and its bold face, as the other lines of the logger are. *)
Definition parse_line (parse_args : string -> option command) (line : string)
  (env : console_env) : M sys (option string) :=
  try_except
    (parse_line_internal parse_args line env ;; ret None)
    (fun e => match e with
              | STLError msg =>
                  Some (emit (EvLog ("Action has failed with the following error: " +:+ msg)) ;;
                        ret (Some msg))
              | _ => None
              end).

End Console.

(** ** More vocabulary of the statements *)

Definition is_redraw (e : event) : bool :=
  match e with
  | EvPromptRedraw => true
  | _ => false
  end.

Definition is_deinit (e : event) : bool :=
  match e with
  | EvDeinit => true
  | _ => false
  end.

Definition is_join (e : event) : bool :=
  match e with
  | EvThreadJoin => true
  | _ => false
  end.

Definition is_acquire (e : event) : bool :=
  match e with
  | EvAcquire _ => true
  | _ => false
  end.

Definition is_write_packet (e : event) : bool :=
  match e with
  | EvWritePacket _ _ _ => true
  | _ => false
  end.

Definition is_thread_start (e : event) : bool :=
  match e with
  | EvThreadStart => true
  | _ => false
  end.

(** The events of a [stop] that finds nothing to stop: the log, the
    connectivity probe and the status request. *)
Definition probe_event (e : event) : bool :=
  match e with
  | EvLog _ | EvIsConnected | EvGetCaptureStatus => true
  | _ => false
  end.

(** The calls a console command makes to the server. *)
Definition is_server_call (e : event) : bool :=
  match e with
  | EvIsConnected | EvStartCapture _ _ _ _ | EvGetCaptureStatus | EvStopCapture _
  | EvFetch _ _ | EvRemoveAllCaptures => true
  | _ => false
  end.

(** The packets of a batch up to the first one that does not decode, each
    with its decoded bytes. *)
Fixpoint decoded_prefix `{Decoder} (pkts : list packet) : list (packet * list Byte.byte) :=
  match pkts with
  | [] => []
  | pkt :: rest =>
      match b64decode (binary pkt) with
      | Some pkt_bin => (pkt, pkt_bin) :: decoded_prefix rest
      | None => []
      end
  end.





Definition written `{Decoder} (p : WriterPipe) (x : packet * list Byte.byte) : event :=
  EvWritePacket (snd x)
                (fst (sec_split_usec (fsub (ts (fst x)) (pp_start_ts p))))
                (snd (sec_split_usec (fsub (ts (fst x)) (pp_start_ts p)))).

(** The counters of a monitor are assigned and at least [pc] and [bc]. *)
Definition counters_from (pc bc : Z) (m : CaptureMonitor) : Prop :=
  exists pc' bc', pkt_count m = Some pc' /\ byte_count m = Some bc' /\ pc <= pc' /\ bc <= bc'.

(** The counters of a monitor do not go back, and stay assigned. *)
Definition grows (s s' : st) : Prop :=
  forall pc bc, counters_from pc bc (self s) -> counters_from pc bc (self s').

(** The events of the local part of [__stop]: those of the worker it joins,
    the join, and the release of the writer. *)
Definition stop_local_event (e : event) : bool :=
  match e with
  | EvThreadJoin | EvDeinit | EvClose _ | EvUnlink _ => true
  | _ => worker_event e
  end.

(** What [deinit] of the pipe writer does to the operating system. *)
Definition os_release_event (e : event) : bool :=
  match e with
  | EvClose _ | EvUnlink _ => true
  | _ => false
  end.

(** The talk of [__stop] with the server. *)
Definition stop_remote_event (e : event) : bool :=
  match e with
  | EvIsConnected | EvGetCaptureStatus | EvStopCapture _ => true
  | _ => false
  end.

(** The server answers every call of a [__stop]. *)
Definition answering (env : stop_env) : Prop :=
  (forall e, st_connected env <> Raise e) /\
  (forall e, st_status env <> Raise e) /\
  (forall e, st_stop_capture env <> Raise e).

(** An element of the status list that [parse_show] takes for the capture
    of the monitor. *)
Definition monitored (mon : option CaptureMonitor) (elem : capture_info) : bool :=
  match monitor_of mon (ci_id elem) with
  | Some _ => true
  | None => false
  end.

(** The writer [parse_monitor_start] asks for. *)
Definition chosen_writer (o : opts) (wr : CaptureMonitorWriter) : Prop :=
  match wr with
  | WStdout s => (opt_verbose o = true \/ opt_pipe o = false) /\
                 so_is_brief s = negb (opt_verbose o)
  | WPipe p => opt_verbose o = false /\ opt_pipe o = true /\ is_init p = true
  end.

(** ** More sample data *)

Module Examples.

(** Ethernet / IP / UDP / Raw / Padding *)
Definition udp_pkt : scapy_pkt :=
  Layer "Ethernet" (Layer "IP" (Layer "UDP" (Layer "Raw" (Last "Padding")))).

(** A pipe writer that holds descriptor 4, which the process has lost. *)
Definition stale_pipe : pipe_st :=
  {| ps_self := {| fifo := Some 4; fifo_name := Some "/tmp/tmpq1"; pp_start_ts := 0;
                   pcap := true; poll := true; is_init := true |};
     ps_world := {| fs := {[ "/tmp/tmpq1" ]}; fds := ∅; lock_held := false |} |}.

(** A world in which the path of the pipe is taken. *)
Definition taken : pipe_st :=
  {| ps_self := ps_self Samples.blank_pipe_st;
     ps_world := {| fs := {[ "/tmp/tmpq1" ]}; fds := ∅; lock_held := false |} |}.

(** The reader of the pipe never comes: the open fails. *)
Definition pipe_no_reader : pipe_env :=
  {| pe_mktemp := "/tmp/tmpq1"; pe_mkfifo := OsOk tt; pe_open := OsErr "[Errno 4] EINTR";
     pe_pcap := OsOk 4; pe_header := OsOk tt; pe_register := OsOk tt |}.

(** The second write to the pipe fails. *)
Definition second_write_fails : write_env :=
  {| we_poll := []; we_write := [None; Some (OSError "[Errno 32] Broken pipe")] |}.

Definition pipe_writer : WriterPipe :=
  {| fifo := Some 3; fifo_name := Some "/tmp/tmpq1"; pp_start_ts := 1000000;
     pcap := true; poll := true; is_init := true |}.

(** A pipe monitor on tx port 0, just constructed, and the same monitor
    after its worker has fetched three packets. *)
Definition pipe_started : st :=
  snd (fst (CaptureMonitor_init (H := Samples.decoder) [0] [] 100 "pipe" Samples.start_ok
              Samples.stop_ok Samples.blank)).

Definition pipe_running : st :=
  snd (fst (run_worker (H := Samples.decoder) [Samples.fetching Samples.good_batch]
              pipe_started)).

(** The compact monitor of the samples after its worker has fetched three
    packets. *)
Definition running : st :=
  snd (fst (run_worker (H := Samples.decoder) [Samples.fetching Samples.good_batch]
              Samples.started)).

(** A pass in which the reader of the pipe has gone. *)
Definition hangup : cycle :=
  {| c_active := true; c_sleep := []; c_check_poll := [(3, 8)]; c_lock_busy := 0;
     c_lock_got := true; c_connected := Ok true; c_fetch := Ok (RC_OK Samples.good_batch);
     c_write := Samples.quiet |}.

(** A pass whose second write to the pipe fails. *)
Definition failing_write : cycle :=
  {| c_active := true; c_sleep := []; c_check_poll := []; c_lock_busy := 0;
     c_lock_got := true; c_connected := Ok true; c_fetch := Ok (RC_OK Samples.good_batch);
     c_write := second_write_fails |}.

(** The client has lost its connection. *)
Definition stop_offline : stop_env :=
  {| st_pending := []; st_connected := Ok false; st_status := Raise (STLError "not connected");
     st_stop_capture := Raise (STLError "not connected") |}.

(** The server lists a recorder, 5, and the capture of the monitor, 7. *)
Definition listing : list capture_info :=
  [ {| ci_id := 5; ci_state := "ACTIVE"; ci_count := 12; ci_limit := 1000; ci_bytes := 768;
       ci_tx := 1; ci_rx := 0 |};
    {| ci_id := 7; ci_state := "ACTIVE"; ci_count := 40; ci_limit := 100; ci_bytes := 2560;
       ci_tx := 1; ci_rx := 2 |} ].

Definition console : console_env :=
  {| ce_monitor := Samples.start_cmd; ce_status := Ok listing; ce_start_capture := Ok 9;
     ce_stop_capture := Ok tt; ce_remove_all := Ok tt |}.

(** The manager with the compact monitor of the samples, its worker
    running. *)
Definition managing : sys :=
  {| monitor := Some (self running); dropped := []; sys_world := world running |}.

(** The manager with the same monitor before its worker has run. *)
Definition managing_fresh : sys :=
  {| monitor := Some (self Samples.started); dropped := [];
     sys_world := world Samples.started |}.

(** Ctrl-C while [capture monitor start --pipe] waits for the reader. *)
Definition interrupted_cmd : console_env :=
  {| ce_monitor := {| ms_stop := Samples.stop_ok;
                      ms_start := {| se_start_capture := Ok (7, 1000000);
                                     se_pipe := Samples.pipe_interrupted;
                                     se_thread_start := Ok tt |};
                      ms_rollback := Samples.stop_ok |};
     ce_status := Ok listing; ce_start_capture := Ok 9; ce_stop_capture := Ok tt;
     ce_remove_all := Ok tt |}.

Definition pipe_opts : opts :=
  {| opt_verbose := false; opt_pipe := true; opt_tx_port_list := [0];
     opt_rx_port_list := [] |}.

(** Both --verbose and --pipe. *)
Definition both_opts : opts :=
  {| opt_verbose := true; opt_pipe := true; opt_tx_port_list := [0];
     opt_rx_port_list := [] |}.

(** An argument parser for a few lines. *)
Definition parse_args (line : string) : option command :=
  if decide (line = "show") then Some CmdShow
  else if decide (line = "clear") then Some CmdClear
  else if decide (line = "monitor stop") then Some (CmdMonitor MonStop)
  else if decide (line = "monitor start --tx 0 --pipe") then Some (CmdMonitor (MonStart pipe_opts))
  else if decide (line = "record stop --id 7 -o out.pcap")
       then Some (CmdRecord (RecordStop 7 "out.pcap"))
  else None.

End Examples.

(** * Proofs *)

#[local] Set Warnings "-clear-no-such-hyp".

(** ** Reasoning about computations *)

Lemma bind_inv {S A B} (m : M S A) (k : A -> M S B) s r s' ev :
  bind m k s = (r, s', ev) ->
  (exists a s1 ev1 ev2, m s = (Ok a, s1, ev1) /\ k a s1 = (r, s', ev2) /\ ev = ev1 ++ ev2) \/
  (exists e, m s = (Raise e, s', ev) /\ r = Raise e).
Proof.
  unfold bind. destruct (m s) as [[[a|e] s1] ev1].
  - destruct (k a s1) as [[r2 s2] ev2] eqn:Hk. intros [= <- <- <-].
    left. exists a, s1, ev1, ev2. auto.
  - intros [= <- <- <-]. right. exists e. auto.
Qed.

Lemma try_except_inv {S A} (body : M S A) h s r s' ev :
  try_except body h s = (r, s', ev) ->
  (exists a, body s = (Ok a, s', ev) /\ r = Ok a) \/
  (exists e, body s = (Raise e, s', ev) /\ h e = None /\ r = Raise e) \/
  (exists e s1 ev1 hm ev2, body s = (Raise e, s1, ev1) /\ h e = Some hm /\
                           hm s1 = (r, s', ev2) /\ ev = ev1 ++ ev2).
Proof.
  unfold try_except. destruct (body s) as [[[a|e] s1] ev1].
  - intros [= <- <- <-]. left. eauto.
  - destruct (h e) as [hm|] eqn:Hh.
    + destruct (hm s1) as [[r2 s2] ev2] eqn:Hm. intros [= <- <- <-].
      right. right. exists e, s1, ev1, hm, ev2. auto.
    + intros [= <- <- <-]. right. left. eauto.
Qed.

(** ** The pipe writer *)

Ltac pipe_unfold :=
  unfold pipe_init_try, pipe_deinit, in_world, on_pipe, os_mkfifo, os_open, os_close,
         os_unlink, os_call, zoom, try_except, try_finally, bind, modify, emit, get, gets,
         ret, raise, truthy_fd, truthy_name in *.

Ltac pipe_step H :=
  first
    [ progress cbn in H
    | match type of H with
      | context [decide ?P] =>
          first [ rewrite (decide_True (P := P)) in H by (cbn; set_solver)
                | rewrite (decide_False (P := P)) in H by (cbn; set_solver)
                | destruct (decide P) ]
      end
    | match type of H with
      | context [match ?o with OsOk _ => _ | OsErr _ => _ | OsIntr => _ | OsFail _ _ => _ end] =>
          destruct o
      end ].

(** [deinit] never raises, and removes the file of a writer whose descriptor,
    if it has one, is open. *)
Lemma pipe_deinit_spec (p : WriterPipe) (w : World) :
  exists p' w' ev,
    pipe_deinit {| ps_self := p; ps_world := w |} = (Ok tt, {| ps_self := p'; ps_world := w' |}, ev) /\
    lock_held w' = lock_held w /\
    In EvDeinit ev /\
    (forall x, ~ In (EvMkfifo x) ev) /\
    count is_stop_capture ev = O /\
    (forall n, n ∉ fs w -> n ∉ fs w') /\
    (forall n, fifo_name p = Some n -> n <> EmptyString ->
               (forall fd, fifo p = Some fd -> fd ∈ fds w) ->
               (n ∉ fs w') /\ (n ∈ fs w -> In (EvUnlink n) ev)).
Proof.
  destruct p as [fo fn sts pc pl ii]. destruct w as [f d l].
  destruct (pipe_deinit {| ps_self := mkPipe fo fn sts pc pl ii; ps_world := mkWorld f d l |})
    as [[r [p' w']] ev] eqn:H.
  pipe_unfold. cbn in H.
  destruct fo as [fd|], fn as [n|]; cbn in H; repeat pipe_step H;
    inversion H; subst; do 3 eexists; (split; [reflexivity|]); cbn;
    (split; [reflexivity|]); (split; [auto|]);
    (split; [intros x Hx; cbn in Hx; intuition discriminate|]);
    (split; [reflexivity|]); (split; [intros n' Hn'; cbn; set_solver|]);
    intros n' Hn Hne Hfd;
    try discriminate; try (injection Hn as ->); try (specialize (Hfd _ eq_refl)); cbn in *;
    try (split; [set_solver | intros; cbn; auto 6]); try congruence; try set_solver.
Qed.

(** The [try] block leaves the name in place, holds only an open descriptor,
    never calls [deinit] or removes a file, and fails with what its calls
    fail with. *)
Lemma pipe_init_try_spec (env : pipe_env) (p : WriterPipe) (w : World) r s1 ev :
  fifo p = None ->
  fifo_name p = Some (pe_mktemp env) ->
  pipe_init_try env {| ps_self := p; ps_world := w |} = (r, s1, ev) ->
  fifo_name (ps_self s1) = Some (pe_mktemp env) /\
  lock_held (ps_world s1) = lock_held w /\
  (forall fd, fifo (ps_self s1) = Some fd -> fd ∈ fds (ps_world s1)) /\
  (In (EvMkfifo (pe_mktemp env)) ev -> pe_mktemp env ∈ fs (ps_world s1)) /\
  match r with
  | Ok _ => pe_mktemp env ∈ fs (ps_world s1) /\ is_init (ps_self s1) = true /\
            poll (ps_self s1) = true /\ pcap (ps_self s1) = true
  | Raise e => e = KeyboardInterrupt \/ (exists m, e = OSError m) \/
               (exists cls m, e = Exception cls m /\ pipe_env_fails env cls m)
  end /\
  ~ In EvDeinit ev /\ (forall x, ~ In (EvUnlink x) ev).
Proof.
  destruct env as [name mk op pc hd rg], p as [fo fn sts pcp pl ii], w as [f d l].
  cbn [fifo fifo_name pe_mktemp]. intros -> -> H.
  unfold pipe_env_fails. cbn [pe_mkfifo pe_open pe_pcap pe_header pe_register].
  pipe_unfold. cbn in H.
  repeat pipe_step H; inversion H; subst; cbn;
    repeat split; eauto 10; try discriminate; try set_solver;
    try (intros fd' [= <-]; set_solver);
    try (intros [?|?]; try discriminate; try set_solver);
    try (intros Hx; repeat (destruct Hx as [Hx|Hx]; try discriminate Hx); try destruct Hx; set_solver);
    try (intros x Hx; repeat (destruct Hx as [Hx|Hx]; try discriminate Hx); destruct Hx).
Qed.

(** A failed construction: a failure of the two classes the constructor
    catches has run [deinit] and has become an [STLError]; any other one
    comes out as it is, and nothing has been released. *)
Lemma pipe_init_raise (env : pipe_env) (start_ts : Z) (s s' : pipe_st)
  (e : exn) (ev : list event) :
  pipe_init env start_ts s = (Raise e, s', ev) ->
  exists e0 s1 ev1,
    pipe_init_try env (pipe_entry env start_ts s) = (Raise e0, s1, ev1) /\
    match e0 with
    | KeyboardInterrupt | OSError _ =>
        (exists msg, e = STLError msg) /\ In EvDeinit ev /\
        (pe_mktemp env <> EmptyString ->
         (pe_mktemp env ∉ fs (ps_world s')) /\
         (In (EvMkfifo (pe_mktemp env)) ev -> In (EvUnlink (pe_mktemp env)) ev))
    | Exception cls msg =>
        pipe_env_fails env cls msg /\ e = e0 /\ s' = s1 /\ ev = ev1 /\
        ~ In EvDeinit ev /\ (forall x, ~ In (EvUnlink x) ev) /\
        (In (EvMkfifo (pe_mktemp env)) ev -> pe_mktemp env ∈ fs (ps_world s'))
    | STLError _ => False
    end.
Proof.
  intros H. unfold pipe_init in H.
  apply bind_inv in H as [(a & s1 & ev1 & ev2 & Hset & H & ->)|(e0 & Hset & _)];
    [|discriminate Hset].
  unfold on_pipe, modify in Hset. injection Hset as <- <- <-. cbn [app].
  change {| ps_self := _; ps_world := ps_world s |} with (pipe_entry env start_ts s) in H.
  apply try_except_inv in H as [(a' & _ & Hr)|[(e0 & Hb & Hh & Hr)|(e0 & s2 & ev3 & hm & ev4 & Hb & Hh & Hm & ->)]];
    [discriminate Hr| |].
  - exists e0, s', ev2. split; [exact Hb|].
    apply pipe_init_try_spec in Hb as (_ & _ & _ & Hmk & [->|[[m ->]|(cls & m & -> & Hf)]] & Hnd & Hnu);
      [discriminate Hh|discriminate Hh| |reflexivity|reflexivity].
    injection Hr as ->. auto 10.
  - exists e0, s2, ev3. split; [exact Hb|]. destruct s2 as [p2 w2].
    apply pipe_init_try_spec in Hb as (Hn & _ & Hfd & Hmk & Hcls & _); [|reflexivity ..].
    cbn [ps_self ps_world] in *.
    destruct (pipe_deinit_spec p2 w2) as (p3 & w3 & evd & Hd & _ & Hin & Hnomk & _ & _ & Hrm).
    assert (Hev : (e0 = KeyboardInterrupt \/ exists m, e0 = OSError m) /\
                  s' = {| ps_self := p3; ps_world := w3 |} /\
                  (exists msg, e = STLError msg) /\ ev4 = evd ++ [EvLog "ERR"]).
    { destruct Hcls as [->|[[m ->]|(cls & m & -> & _)]]; [| |discriminate Hh];
        injection Hh as <-;
        unfold bind, emit, raise, gets in Hm; rewrite Hd in Hm; cbn in Hm;
        injection Hm as <- <- <-; rewrite ?app_nil_r; eauto 10. }
    destruct Hev as (Hc & -> & He & ->). cbn [ps_world].
    assert (Hgoal : (exists msg, e = STLError msg) /\ In EvDeinit (ev3 ++ evd ++ [EvLog "ERR"]) /\
              (pe_mktemp env <> EmptyString ->
               (pe_mktemp env ∉ fs w3) /\
               (In (EvMkfifo (pe_mktemp env)) (ev3 ++ evd ++ [EvLog "ERR"]) ->
                In (EvUnlink (pe_mktemp env)) (ev3 ++ evd ++ [EvLog "ERR"])))).
    { split; [exact He|]. split; [rewrite !in_app_iff; auto|].
      intros Hname. split; [apply (Hrm _ Hn Hname Hfd)|].
      destruct (Hrm _ Hn Hname Hfd) as [_ Hunl].
      rewrite !in_app_iff. intros [Hx|[Hx|[Hx|[]]]].
      + right. left. auto.
      + destruct (Hnomk _ Hx).
      + discriminate Hx. }
    destruct Hc as [->|[m ->]]; exact Hgoal.
Qed.


(** ** The writers *)

Section WriterFacts.
Context `{Decoder}.

(** The writers do not read or change the state they run in. *)
Lemma stdout_handle_pkt_param {S} (wr : WriterStdout) (pkt : packet) (s : S) :
  stdout_handle_pkt wr pkt s =
  (fst (fst (stdout_handle_pkt wr pkt tt)), s, snd (stdout_handle_pkt wr pkt tt)).
Proof.
  unfold stdout_handle_pkt, bind, lift, emit, ret, raise.
  destruct (b64decode (binary pkt)) as [bin|]; [|reflexivity].
  destruct (Ether bin) as [sp|e]; [|reflexivity].
  destruct (so_is_brief wr);
    [destruct (scapy_command sp)|destruct (scapy_show sp)]; reflexivity.
Qed.

Lemma stdout_loop_param {S} (wr : WriterStdout) (pkts : list packet) (acc : Z) (s : S) :
  stdout_loop wr pkts acc s =
  (fst (fst (stdout_loop wr pkts acc tt)), s, snd (stdout_loop wr pkts acc tt)).
Proof.
  revert acc. induction pkts as [|pkt rest IH]; intros acc; [reflexivity|].
  cbn [stdout_loop]. unfold bind. rewrite (stdout_handle_pkt_param wr pkt s).
  destruct (stdout_handle_pkt wr pkt ()) as [[[n|e] []] ev1]; cbn [fst snd]; [|reflexivity].
  rewrite (IH (acc + n)).
  destruct (stdout_loop wr rest (acc + n) ()) as [[r []] ev]. reflexivity.
Qed.

Lemma pipe_loop_param {S} (p : WriterPipe) (pkts : list packet) outs (acc : Z) (s : S) :
  pipe_loop p pkts outs acc s =
  (fst (fst (pipe_loop p pkts outs acc tt)), s, snd (pipe_loop p pkts outs acc tt)).
Proof.
  revert outs acc. induction pkts as [|pkt rest IH]; intros outs acc; [reflexivity|].
  cbn [pipe_loop].
  destruct (b64decode (binary pkt)) as [bin|]; [|reflexivity].
  unfold bind, try_except.
  destruct (hd None outs) as [e|]; unfold raise, emit; cbn.
  - destruct (is_Exception e); reflexivity.
  - rewrite (IH (tl outs) (acc + Z.of_nat (length bin))).
    destruct (pipe_loop p rest (tl outs) (acc + Z.of_nat (length bin)) ()) as [[r []] ev].
    reflexivity.
Qed.

Lemma handle_pkts_param {S} (wr : CaptureMonitorWriter) (env : write_env)
  (pkts : list packet) (s : S) :
  handle_pkts wr env pkts s =
  (handle_result wr env pkts, s, snd (handle_pkts wr env pkts tt)).
Proof.
  unfold handle_result, handle_pkts, bind, emit. cbn.
  destruct wr as [so|p].
  - unfold stdout_handle_pkts, try_finally, emit.
    rewrite (stdout_loop_param so pkts 0 s).
    destruct (stdout_loop so pkts 0 ()) as [[r []] ev]. reflexivity.
  - unfold pipe_handle_pkts, pipe_handle_pkts_internal, check_pipe, bind, emit. cbn.
    destruct (we_poll env); unfold ret, raise; cbn; [|reflexivity].
    rewrite (pipe_loop_param p pkts (we_write env) 0 s).
    destruct (pipe_loop p pkts (we_write env) 0 ()) as [[r []] ev]. reflexivity.
Qed.

(** One packet through the stdout writer: its size, or the failure of the
    decoder or of scapy. *)
Lemma stdout_handle_pkt_result (wr : WriterStdout) (pkt : packet) :
  match fst (fst (stdout_handle_pkt wr pkt tt)) with
  | Ok n => exists bin, b64decode (binary pkt) = Some bin /\ n = Z.of_nat (length bin)
  | Raise e => stdout_failure wr [pkt] e
  end.
Proof.
  unfold stdout_failure, stdout_handle_pkt, bind, lift, emit, ret, raise.
  destruct (b64decode (binary pkt)) as [bin|] eqn:Hd; cbn.
  - destruct (Ether bin) as [sp|e] eqn:He; cbn.
    + destruct (so_is_brief wr) eqn:Hbr;
        [destruct (scapy_command sp) as [x|e] eqn:Hc|destruct (scapy_show sp) as [x|e] eqn:Hc];
        cbn; eauto;
        exists pkt; (split; [left; reflexivity|]); rewrite Hd; right; exists sp; auto.
    + exists pkt. split; [left; reflexivity|]. rewrite Hd. auto.
  - exists pkt. split; [left; reflexivity|]. rewrite Hd. reflexivity.
Qed.

Lemma stdout_failure_cons (wr : WriterStdout) (pkt : packet) (rest : list packet) (e : exn) :
  stdout_failure wr [pkt] e \/ stdout_failure wr rest e -> stdout_failure wr (pkt :: rest) e.
Proof.
  intros [(q & [Heq|[]] & Hq)|(q & Hin & Hq)]; exists q; (split; [|exact Hq]);
    [left; exact Heq|right; exact Hin].
Qed.

(** What the loop of the stdout writer answers. *)
Lemma stdout_loop_result (wr : WriterStdout) (pkts : list packet) (acc : Z) :
  match fst (fst (stdout_loop wr pkts acc tt)) with
  | Ok b => exists n, batch_bytes pkts = Some n /\ b = acc + n
  | Raise e => stdout_failure wr pkts e
  end.
Proof.
  revert acc. induction pkts as [|pkt rest IH]; intros acc.
  - cbn. exists 0. split; [reflexivity|lia].
  - cbn [stdout_loop batch_bytes]. unfold bind.
    pose proof (stdout_handle_pkt_result wr pkt) as Hp.
    destruct (stdout_handle_pkt wr pkt ()) as [[[n|e] []] ev1]; cbn [fst snd] in *.
    + destruct Hp as (bin & -> & ->).
      specialize (IH (acc + Z.of_nat (length bin))).
      destruct (stdout_loop wr rest (acc + Z.of_nat (length bin)) ()) as [[[b|e] []] ev];
        cbn [fst snd] in *.
      * destruct IH as (m & -> & ->). exists (Z.of_nat (length bin) + m).
        split; [reflexivity|lia].
      * apply stdout_failure_cons. right. exact IH.
    + apply stdout_failure_cons. left. exact Hp.
Qed.

Lemma batch_bytes_None (pkts : list packet) :
  batch_bytes pkts = None -> exists pkt, In pkt pkts /\ b64decode (binary pkt) = None.
Proof.
  induction pkts as [|pkt rest IH]; [discriminate|].
  cbn [batch_bytes]. destruct (b64decode (binary pkt)) eqn:Hd.
  - destruct (batch_bytes rest); [discriminate|].
    intros _. destruct (IH eq_refl) as (q & Hq & Hn). exists q. split; [right|]; auto.
  - intros _. exists pkt. split; [left|]; auto.
Qed.

Lemma batch_bytes_nonneg (pkts : list packet) (n : Z) :
  batch_bytes pkts = Some n -> 0 <= n.
Proof.
  revert n. induction pkts as [|pkt rest IH]; intros n.
  - intros [= <-]. lia.
  - cbn [batch_bytes]. destruct (b64decode (binary pkt)); [|discriminate].
    destruct (batch_bytes rest) as [m|]; [|discriminate].
    intros [= <-]. specialize (IH m eq_refl). lia.
Qed.

Lemma pipe_loop_result (p : WriterPipe) (pkts : list packet) outs (acc : Z) :
  match fst (fst (pipe_loop p pkts outs acc tt)) with
  | Ok b => exists n, batch_bytes pkts = Some n /\ b = acc + n
  | Raise e => pipe_failure pkts outs e
  end.
Proof.
  revert outs acc. induction pkts as [|pkt rest IH]; intros outs acc.
  - cbn. exists 0. split; [reflexivity|lia].
  - cbn [pipe_loop batch_bytes].
    destruct (b64decode (binary pkt)) as [bin|] eqn:Hd.
    + unfold bind, try_except.
      destruct outs as [|[e|] outs']; cbn [hd tl]; unfold raise, emit; cbn.
      * specialize (IH [] (acc + Z.of_nat (length bin))).
        destruct (pipe_loop p rest [] (acc + Z.of_nat (length bin)) ()) as [[[b|e] []] ev]; cbn in *.
        -- destruct IH as (n & -> & ->). exists (Z.of_nat (length bin) + n). split; [reflexivity|lia].
        -- destruct IH as [(-> & q & Hq & Hn)|[(e0 & [] & _)|([] & _)]].
           left. split; [reflexivity|]. exists q. split; [right|]; auto.
      * destruct (is_Exception e) eqn:He; cbn.
        -- right. left. exists e. split; [left; reflexivity|]. auto.
        -- right. right. split; [left; reflexivity|]. auto.
      * specialize (IH outs' (acc + Z.of_nat (length bin))).
        destruct (pipe_loop p rest outs' (acc + Z.of_nat (length bin)) ()) as [[[b|e] []] ev]; cbn in *.
        -- destruct IH as (n & -> & ->). exists (Z.of_nat (length bin) + n). split; [reflexivity|lia].
        -- destruct IH as [(-> & q & Hq & Hn)|[(e0 & Hin & He & ->)|(Hin & He)]].
           ++ left. split; [reflexivity|]. exists q. split; [right|]; auto.
           ++ right. left. exists e0. split; [right|]; auto.
           ++ right. right. split; [right|]; auto.
    + cbn. left. split; [reflexivity|]. exists pkt. split; [left|]; auto.
Qed.

(** What [handle_pkts] answers, for both writers. *)
Lemma handle_pkts_spec {S} (wr : CaptureMonitorWriter) (env : write_env)
  (pkts : list packet) (s s' : S) (r : result Z) (ev : list event) :
  handle_pkts wr env pkts s = (r, s', ev) ->
  s' = s /\
  match r with
  | Ok b => batch_bytes pkts = Some b
  | Raise e =>
      match wr with
      | WStdout so => stdout_failure so pkts e
      | WPipe p =>
          we_poll env <> [] /\ e = STLError "pipe has been disconnected" \/
          pipe_failure pkts (we_write env) e
      end
  end.
Proof.
  rewrite handle_pkts_param. intros [= <- <- <-]. split; [reflexivity|].
  unfold handle_result, handle_pkts, bind, emit. cbn.
  destruct wr as [so|p].
  - unfold stdout_handle_pkts, try_finally, emit.
    pose proof (stdout_loop_result so pkts 0) as Hr.
    destruct (stdout_loop so pkts 0 ()) as [[[b|e] []] ev]; cbn in *.
    + destruct Hr as (n & -> & ->). reflexivity.
    + exact Hr.
  - unfold pipe_handle_pkts, pipe_handle_pkts_internal, check_pipe, bind, emit. cbn.
    destruct (we_poll env) as [|hup more] eqn:Hp; unfold ret, raise; cbn.
    + pose proof (pipe_loop_result p pkts (we_write env) 0) as Hr.
      destruct (pipe_loop p pkts (we_write env) 0 ()) as [[[b|e] []] ev]; cbn in *.
      * destruct Hr as (n & -> & ->). reflexivity.
      * right. exact Hr.
    + left. split; [discriminate|reflexivity].
Qed.

End WriterFacts.

Section WriterClaims.
Context `{Decoder}.

(** C8. For the pipe writer, [periodic_check] and [handle_pkts] both
    poll the descriptor with a timeout of zero before anything else; when
    the poll reports an event they raise an [STLError] at once, without
    writing a packet, and its message, "pipe has been disconnected", names
    the pipe and its disconnection. *)
Theorem pipe_probe_hangup {S} (p : WriterPipe) (hup : Z * Z) (more : list (Z * Z))
  (outs : list (option exn)) (pkts : list packet) (s : S) :
  periodic_check (WPipe p) (hup :: more) s =
    (Raise (STLError "pipe has been disconnected"), s, [EvPeriodicCheck; EvPoll 0]) /\
  handle_pkts (WPipe p) {| we_poll := hup :: more; we_write := outs |} pkts s =
    (Raise (STLError "pipe has been disconnected"), s, [EvHandlePkts (length pkts); EvPoll 0]) /\
  periodic_check (WPipe p) [] s = (Ok tt, s, [EvPeriodicCheck; EvPoll 0]) /\
  (exists ev, snd (handle_pkts (WPipe p) {| we_poll := []; we_write := outs |} pkts s) =
              EvHandlePkts (length pkts) :: EvPoll 0 :: ev) /\
  String.index 0 "pipe" "pipe has been disconnected" = Some 0%nat /\
  String.index 0 "disconnected" "pipe has been disconnected" = Some 14%nat.
Proof.
  repeat split.
  unfold handle_pkts, pipe_handle_pkts, check_pipe, bind, emit, ret. cbn.
  destruct (pipe_handle_pkts_internal p _ pkts s) as [[r s1] ev]. cbn. eauto.
Qed.

End WriterClaims.

(** A constructed pipe writer holds its file and an open descriptor. *)
Lemma pipe_init_success (env : pipe_env) (start_ts : Z) (s s' : pipe_st) (ev : list event) :
  pipe_init env start_ts s = (Ok tt, s', ev) ->
  fifo_name (ps_self s') = Some (pe_mktemp env) /\
  (forall fd, fifo (ps_self s') = Some fd -> fd ∈ fds (ps_world s')) /\
  pe_mktemp env ∈ fs (ps_world s').
Proof.
  intros H. unfold pipe_init in H.
  apply bind_inv in H as [(a & s1 & ev1 & ev2 & Hset & H & ->)|(e0 & Hset & _)];
    [|discriminate Hset].
  unfold on_pipe, modify in Hset. injection Hset as <- <- <-.
  apply try_except_inv in H
    as [(a' & Hb & _)|[(e0 & _ & _ & Hr)|(e0 & s2 & ev3 & hm & ev4 & Hb & Hh & Hm & _)]];
    [|discriminate Hr|].
  - apply pipe_init_try_spec in Hb as (Hn & _ & Hfd & _ & (Hin & _) & _); [|reflexivity ..]. auto.
  - exfalso. destruct s2 as [p2 w2].
    apply pipe_init_try_spec in Hb as (_ & _ & _ & _ & Hcls & _); [|reflexivity ..].
    destruct (pipe_deinit_spec p2 w2) as (p3 & w3 & evd & Hd & _).
    destruct Hcls as [->|[[m ->]|(cls & m & -> & _)]]; [| |discriminate Hh]; injection Hh as <-;
      unfold bind, emit, raise, gets in Hm; rewrite Hd in Hm; cbn in Hm; discriminate Hm.
Qed.

(** ** A small program logic: what a computation keeps *)

Section Keeps.
Context {S : Type} (R : S -> S -> Prop) (P : event -> bool).
Context {R_refl : Reflexive R} {R_trans : Transitive R}.

Lemma keeps_ret {A} (Q : A -> Prop) (a : A) : Q a -> keeps R P Q (ret a).
Proof. intros Ha s r s' ev [= <- <- <-]. repeat split; auto. intros ? [= <-]. auto. Qed.

Lemma keeps_raise {A} (Q : A -> Prop) (e : exn) : keeps R P Q (raise e).
Proof. intros s r s' ev [= <- <- <-]. repeat split; auto. discriminate. Qed.

Lemma keeps_emit (Q : unit -> Prop) (e : event) : P e = true -> Q tt -> keeps R P Q (emit e).
Proof.
  intros He Hq s r s' ev [= <- <- <-]. repeat split; auto.
  - cbn. rewrite He. reflexivity.
  - intros [] _. auto.
Qed.

Lemma keeps_lift {A} (Q : A -> Prop) (r : result A) :
  (forall a, r = Ok a -> Q a) -> keeps R P Q (lift r).
Proof. intros Hq. destruct r; [apply keeps_ret|apply keeps_raise]; auto. Qed.

Lemma keeps_gets {A} (Q : A -> Prop) (f : S -> A) : (forall s, Q (f s)) -> keeps R P Q (gets f).
Proof. intros Hq s r s' ev [= <- <- <-]. repeat split; auto. intros ? [= <-]. auto. Qed.

Lemma keeps_modify (Q : unit -> Prop) (f : S -> S) :
  (forall s, R s (f s)) -> Q tt -> keeps R P Q (modify f).
Proof. intros Hf Hq s r s' ev [= <- <- <-]. repeat split; auto. intros [] _. auto. Qed.

Lemma keeps_bind {A B} (Qa : A -> Prop) (Qb : B -> Prop) (m : M S A) (k : A -> M S B) :
  keeps R P Qa m -> (forall a, Qa a -> keeps R P Qb (k a)) -> keeps R P Qb (bind m k).
Proof.
  intros Hm Hk s r s' ev H.
  apply bind_inv in H as [(a & s1 & ev1 & ev2 & H1 & H2 & ->)|(e & H1 & ->)].
  - destruct (Hm _ _ _ _ H1) as (HR1 & HP1 & HQ1).
    destruct (Hk a (HQ1 a eq_refl) _ _ _ _ H2) as (HR2 & HP2 & HQ2).
    repeat split; eauto. rewrite forallb_app, HP1, HP2. reflexivity.
  - destruct (Hm _ _ _ _ H1) as (HR1 & HP1 & HQ1). repeat split; auto. discriminate.
Qed.

Lemma keeps_try_finally {A} (Q : A -> Prop) (body : M S A) (fin : M S unit) :
  keeps R P Q body -> keeps R P (fun _ => True) fin -> keeps R P Q (try_finally body fin).
Proof.
  intros Hb Hf s r s' ev. unfold try_finally.
  destruct (body s) as [[rb s1] ev1] eqn:H1. destruct (fin s1) as [[rf s2] ev2] eqn:H2.
  destruct (Hb _ _ _ _ H1) as (HR1 & HP1 & HQ1). destruct (Hf _ _ _ _ H2) as (HR2 & HP2 & _).
  destruct rf; intros [= <- <- <-]; repeat split; eauto;
    try (rewrite forallb_app, HP1, HP2; reflexivity); discriminate.
Qed.

Lemma keeps_try_except {A} (Q : A -> Prop) (body : M S A) (h : exn -> option (M S A)) :
  keeps R P Q body -> (forall e hm, h e = Some hm -> keeps R P Q hm) ->
  keeps R P Q (try_except body h).
Proof.
  intros Hb Hh s r s' ev H.
  apply try_except_inv in H
    as [(a & H1 & ->)|[(e & H1 & _ & ->)|(e & s1 & ev1 & hm & ev2 & H1 & Hhe & H2 & ->)]].
  - apply (Hb _ _ _ _ H1).
  - destruct (Hb _ _ _ _ H1) as (HR1 & HP1 & _). repeat split; auto. discriminate.
  - destruct (Hb _ _ _ _ H1) as (HR1 & HP1 & _).
    destruct (Hh _ _ Hhe _ _ _ _ H2) as (HR2 & HP2 & HQ2).
    repeat split; eauto. rewrite forallb_app, HP1, HP2. reflexivity.
Qed.

End Keeps.

#[local] Hint Extern 1 (Reflexive _) => typeclasses eauto : core.
#[local] Hint Extern 1 (Transitive _) => typeclasses eauto : core.

(** One step through a [bind], with nothing asked of the value passed on. *)
Ltac kbind :=
  eapply keeps_bind with (Qa := fun _ => True); try typeclasses eauto; [|intros ? _].
Tactic Notation "kbind" "as" ident(x) :=
  eapply keeps_bind with (Qa := fun _ => True); try typeclasses eauto; [|intros x _].

(** Counting over traces. *)
Lemma count_app (p : event -> bool) (a b : list event) :
  count p (a ++ b) = (count p a + count p b)%nat.
Proof. induction a as [|e a IH]; cbn; [reflexivity|]. destruct (p e); cbn; lia. Qed.

Lemma count_none (p q : event -> bool) (ev : list event) :
  (forall e, q e = true -> p e = false) -> forallb q ev = true -> count p ev = O.
Proof.
  intros Hpq. induction ev as [|e ev IH]; cbn; [reflexivity|].
  intros [He Hev]%andb_true_iff. rewrite (Hpq _ He). auto.
Qed.

Lemma count_zero_not_in (p : event -> bool) (ev : list event) (e : event) :
  count p ev = O -> p e = true -> ~ In e ev.
Proof.
  induction ev as [|x ev IH]; cbn; [tauto|].
  destruct (p x) eqn:Hx; [discriminate|]. intros H0 He [->|Hin]; [congruence|].
  exact (IH H0 He Hin).
Qed.

Lemma scan_app (h : bool) (a b : list event) :
  scan h (a ++ b) = match scan h a with Some h' => scan h' b | None => None end.
Proof.
  revert h. induction a as [|e a IH]; intros h; [reflexivity|].
  cbn [app scan]. destruct e; try destruct rc; destruct h; auto.
Qed.

Lemma scan_free (q : event -> bool) (ev : list event) :
  (forall e, q e = true -> is_acquired e = false /\ is_release e = false) ->
  forallb q ev = true -> scan false ev = Some false.
Proof.
  intros Hq. induction ev as [|e ev IH]; cbn [forallb scan]; [reflexivity|].
  intros [He Hev]%andb_true_iff. destruct (Hq _ He) as [Ha Hr].
  destruct e; try destruct rc; cbn in *; try discriminate; auto.
Qed.

(** ** The pieces of a pass of the worker loop *)

Global Instance frame_refl : Reflexive frame.
Proof. intros s. constructor; reflexivity. Qed.

Global Instance frame_trans : Transitive frame.
Proof. intros a b c [] []. constructor; congruence. Qed.

Global Instance frame_o_refl : Reflexive frame_o.
Proof. intros s. split; reflexivity. Qed.

Global Instance frame_o_trans : Transitive frame_o.
Proof. intros a b c [Hf1 Ho1] [Hf2 Ho2]. split; [etransitivity; eassumption|congruence]. Qed.

Lemma sleep_ticks_inv (n : nat) (reads : list bool) (s s1 : st) r ev :
  sleep_ticks n reads s = (r, s1, ev) ->
  s1 = s /\ exists b k, r = Ok b /\ ev = repeat EvSleep k /\
                        (forallb (fun x => x) (firstn n reads) = true -> b = true).
Proof.
  revert reads r ev. induction n as [|n IH]; intros reads r ev.
  - intros [= <- <- <-]. split; [reflexivity|]. exists true, O. auto.
  - cbn [sleep_ticks]. destruct reads as [|[] reads]; cbn [hd tl].
    + intros H. apply bind_inv in H as [(a & s2 & ev1 & ev2 & H1 & H2 & ->)|(e & H1 & _)];
        [|discriminate H1].
      injection H1 as <- <- <-. apply IH in H2 as (-> & b & k & -> & -> & Hb).
      split; [reflexivity|]. exists b, (Datatypes.S k). repeat split.
      intros _. apply Hb. destruct n; reflexivity.
    + intros H. apply bind_inv in H as [(a & s2 & ev1 & ev2 & H1 & H2 & ->)|(e & H1 & _)];
        [|discriminate H1].
      injection H1 as <- <- <-. apply IH in H2 as (-> & b & k & -> & -> & Hb).
      split; [reflexivity|]. exists b, (Datatypes.S k). repeat split.
      cbn. intros Hf. apply Hb, Hf.
    + intros [= <- <- <-]. split; [reflexivity|]. exists false, O. repeat split.
      cbn. discriminate.
Qed.

Lemma lock_eq (busy : nat) (got : bool) (s : st) :
  __lock busy got s = (Ok got, if got then locked s else s, lock_trace busy got).
Proof.
  induction busy as [|n IH]; cbn [__lock lock_trace].
  - unfold bind, emit. cbn. destruct got; cbn; [|reflexivity].
    destruct s; reflexivity.
  - unfold bind, emit in *. cbn. rewrite IH. reflexivity.
Qed.

Lemma lock_trace_scan (busy : nat) (got : bool) : scan false (lock_trace busy got) = Some got.
Proof. induction busy; cbn; [destruct got; reflexivity|assumption]. Qed.

Lemma lock_trace_acquired (busy : nat) (got : bool) :
  count is_acquired (lock_trace busy got) = if got then 1%nat else 0%nat.
Proof. induction busy; cbn; [destruct got; reflexivity|assumption]. Qed.

Lemma lock_trace_count (p : event -> bool) (busy : nat) (got : bool) :
  (forall b, p (EvAcquire b) = false) -> p EvSleep = false ->
  count p (lock_trace busy got) = O.
Proof. intros Ha Hs. induction busy; cbn; rewrite ?Ha, ?Hs; auto. Qed.

Lemma lock_trace_worker (busy : nat) (got : bool) :
  forallb worker_event (lock_trace busy got) = true.
Proof. induction busy; cbn; auto. Qed.

Lemma repeat_sleep_unlocked (k : nat) : forallb unlocked_event (repeat EvSleep k) = true.
Proof. induction k; cbn; auto. Qed.

Lemma periodic_check_inv {S} (wr : CaptureMonitorWriter) polled (s s1 : S) r ev :
  periodic_check wr polled s = (r, s1, ev) ->
  s1 = s /\ forallb writer_event ev = true /\ count is_handle_pkts ev = O /\
  ((forall p, wr = WPipe p -> polled = []) -> r = Ok tt).
Proof.
  unfold periodic_check, pipe_periodic_check, check_pipe, bind, emit, ret, raise.
  destruct wr as [so|p]; [|destruct polled]; cbn; intros [= <- <- <-]; repeat split; auto.
  intros Hp. discriminate (Hp p eq_refl).
Qed.

Lemma fetch_under_lock_inv (c : cycle) (s s1 : st) r ev :
  fetch_under_lock c s = (r, s1, ev) ->
  s1 = unlocked s /\
  exists mid, ev = mid ++ [EvRelease] /\ forallb rpc_event mid = true /\
    match r with
    | Ok pkts => c_connected c = Ok true /\ c_fetch c = Ok (RC_OK pkts) /\
                 mid = [EvIsConnected; EvFetch (capture_id (self s)) 10]
    | Raise e => ~ exists pkts, c_connected c = Ok true /\ c_fetch c = Ok (RC_OK pkts)
    end.
Proof.
  unfold fetch_under_lock, try_finally, __unlock, call, bind, emit, gets, ret, raise, on_world,
         modify, unlocked.
  destruct (c_connected c) as [[]|e]; cbn.
  - destruct (c_fetch c) as [[pkts|msg]|e]; cbn; intros [= <- <- <-];
      (split; [reflexivity|]); exists [EvIsConnected; EvFetch (capture_id (self s)) 10];
      (split; [reflexivity|]); (split; [reflexivity|]);
      auto; intros (pkts' & _ & Hf); discriminate Hf.
  - intros [= <- <- <-]. split; [reflexivity|]. exists [EvIsConnected]. repeat split.
    intros (pkts' & Hc & _); discriminate Hc.
  - intros [= <- <- <-]. split; [reflexivity|]. exists [EvIsConnected]. repeat split.
    intros (pkts' & Hc & _); discriminate Hc.
Qed.

Lemma add_counters_inv (n b : Z) (s s1 : st) r ev :
  add_counters n b s = (r, s1, ev) ->
  ev = [] /\ world s1 = world s /\ frame s s1 /\
  match pkt_count (self s), byte_count (self s) with
  | Some pc, Some bc => r = Ok tt /\ pkt_count (self s1) = Some (pc + n) /\
                        byte_count (self s1) = Some (bc + b)
  | _, _ => exists e, r = Raise e
  end.
Proof.
  unfold add_counters, attr, on_self, bind, gets, modify, ret, raise.
  destruct s as [m w]. cbn.
  destruct (pkt_count m) as [pc|] eqn:Hpc; cbn.
  - destruct (byte_count m) as [bc|] eqn:Hbc; cbn; intros [= <- <- <-];
      repeat split; eauto.
  - intros [= <- <- <-]. repeat split; eauto.
Qed.

Section WorkerFacts.
Context `{Decoder}.

Lemma handle_pkts_events (wr : CaptureMonitorWriter) (env : write_env) (pkts : list packet) :
  forallb writer_event (snd (handle_pkts wr env pkts tt)) = true.
Proof.
  assert (Hso : forall so pkts acc, keeps (@eq unit) writer_event (fun _ : Z => True)
                                      (stdout_loop so pkts acc)).
  { intros so l. induction l as [|pkt rest IH]; intros acc; cbn [stdout_loop].
    - apply keeps_ret; auto.
    - kbind; [|apply IH].
      unfold stdout_handle_pkt. destruct (b64decode (binary pkt)).
      + kbind as pkt_scapy; [apply keeps_lift; auto|].
        kbind; [apply keeps_emit; auto|].
        kbind.
        { destruct (so_is_brief so); [|apply keeps_lift; auto].
          kbind; [apply keeps_lift; auto|apply keeps_ret; auto]. }
        kbind; [apply keeps_emit; auto|]. apply keeps_ret; auto.
      + apply keeps_raise; auto. }
  assert (Hpp : forall p pkts outs acc, keeps (@eq unit) writer_event
                                          (fun _ : Z => True) (pipe_loop p pkts outs acc)).
  { intros p l. induction l as [|pkt rest IH]; intros outs acc; cbn [pipe_loop].
    - apply keeps_ret; auto.
    - destruct (b64decode (binary pkt)); [|apply keeps_raise; auto].
      kbind; [|apply IH].
      apply keeps_try_except; try typeclasses eauto.
      + destruct (hd None outs); [apply keeps_raise|apply keeps_emit]; auto.
      + intros e hm. destruct (is_Exception e); [|discriminate].
        intros [= <-]. apply keeps_raise; auto. }
  assert (Hall : keeps (@eq unit) writer_event (fun _ : Z => True)
                   (handle_pkts wr env pkts)).
  { unfold handle_pkts.
    kbind.
    - apply keeps_emit; auto.
    - destruct wr as [so|p].
      + apply keeps_try_finally; try typeclasses eauto; [apply Hso|apply keeps_emit; auto].
      + unfold pipe_handle_pkts, pipe_handle_pkts_internal, check_pipe.
        kbind; [|apply Hpp].
        kbind.
        * apply keeps_emit; auto.
        * destruct (we_poll env); [apply keeps_ret|apply keeps_raise]; auto. }
  destruct (handle_pkts wr env pkts ()) as [[r s] ev] eqn:Heq.
  apply (Hall _ _ _ _ Heq).
Qed.

End WorkerFacts.

Lemma writer_worker_event (e : event) : writer_event e = true -> worker_event e = true.
Proof. destruct e; cbn; auto. Qed.

Lemma rpc_worker_event (e : event) : rpc_event e = true -> worker_event e = true.
Proof. destruct e; cbn; auto; discriminate. Qed.

Lemma forallb_impl (p q : event -> bool) (ev : list event) :
  (forall e, p e = true -> q e = true) -> forallb p ev = true -> forallb q ev = true.
Proof. intros Hpq. rewrite !forallb_forall. auto. Qed.

Lemma frame_locked (s : st) : frame_o s (locked s).
Proof. split; [constructor|]; reflexivity. Qed.

Lemma frame_unlocked (s : st) : frame_o s (unlocked s).
Proof. split; [constructor|]; reflexivity. Qed.

Section WorkerKeeps.
Context `{Decoder}.

Lemma sleep_keeps (reads : list bool) : keeps frame_o worker_event (fun _ => True) (__sleep reads).
Proof.
  intros s r s' ev (-> & b & k & -> & -> & _)%sleep_ticks_inv.
  refine (conj _ (conj _ (fun _ _ => I))); [reflexivity|]. induction k; cbn; auto.
Qed.

Lemma attr_keeps {A} (name : string) (f : CaptureMonitor -> option A) :
  keeps frame_o worker_event (fun _ => True) (attr name f).
Proof.
  unfold attr. kbind as v; [apply keeps_gets; auto|].
  destruct v; [apply keeps_ret|apply keeps_raise]; auto.
Qed.

Lemma periodic_check_keeps (wr : CaptureMonitorWriter) polled :
  keeps frame_o worker_event (fun _ => True) (periodic_check wr polled).
Proof.
  intros s r s' ev (-> & Hev & _)%periodic_check_inv.
  refine (conj _ (conj _ (fun _ _ => I))); [reflexivity|].
  eapply forallb_impl; [apply writer_worker_event|exact Hev].
Qed.

Lemma lock_keeps (busy : nat) (got : bool) :
  keeps frame_o worker_event (fun _ => True) (__lock busy got).
Proof.
  intros s r s' ev. rewrite lock_eq. intros [= <- <- <-].
  refine (conj _ (conj _ (fun _ _ => I)));
    [destruct got; [apply frame_locked|reflexivity]|apply lock_trace_worker].
Qed.

Lemma fetch_under_lock_keeps (c : cycle) :
  keeps frame_o worker_event (fun _ => True) (fetch_under_lock c).
Proof.
  intros s r s' ev (-> & mid & -> & Hmid & _)%fetch_under_lock_inv.
  refine (conj _ (conj _ (fun _ _ => I))); [apply frame_unlocked|].
  rewrite forallb_app. rewrite (forallb_impl _ _ _ rpc_worker_event Hmid). reflexivity.
Qed.

Lemma handle_pkts_keeps (wr : CaptureMonitorWriter) (env : write_env) (pkts : list packet) :
  keeps frame_o worker_event (fun _ => True) (handle_pkts wr env pkts).
Proof.
  intros s r s' ev. rewrite handle_pkts_param. intros [= <- <- <-].
  refine (conj _ (conj _ (fun _ _ => I))); [reflexivity|].
  eapply forallb_impl; [apply writer_worker_event|apply handle_pkts_events].
Qed.

Lemma add_counters_keeps (n b : Z) : keeps frame_o worker_event (fun _ => True) (add_counters n b).
Proof.
  intros s r s' ev Ha. pose proof Ha as (-> & _ & Hf & _)%add_counters_inv.
  refine (conj (conj Hf _) (conj _ (fun _ _ => I))); [|reflexivity].
  revert Ha. unfold add_counters, attr, on_self, bind, gets, modify, ret, raise.
  destruct s as [m w]. cbn.
  destruct (pkt_count m); cbn; [destruct (byte_count m); cbn|]; intros [= <- <-]; reflexivity.
Qed.

Lemma cycle_body_keeps (c : cycle) : keeps frame_o worker_event (fun _ => True) (cycle_body c).
Proof.
  unfold cycle_body.
  kbind as slept; [apply sleep_keeps|]. destruct slept; cbn [negb]; [|apply keeps_ret; auto].
  kbind as wr; [apply attr_keeps|].
  kbind; [apply periodic_check_keeps|].
  kbind as got; [apply lock_keeps|]. destruct got; cbn [negb]; [|apply keeps_ret; auto].
  kbind as pkts; [apply fetch_under_lock_keeps|].
  destruct pkts; [apply keeps_ret; auto|].
  kbind as b; [apply handle_pkts_keeps|].
  kbind; [apply add_counters_keeps|]. apply keeps_ret; auto.
Qed.

Lemma main_loop_keeps (script : list cycle) :
  keeps frame_o worker_event (fun _ => True) (main_loop script).
Proof.
  induction script as [|c rest IH]; cbn [main_loop]; [apply keeps_ret; auto|].
  destruct (c_active c); [|apply keeps_ret; auto].
  kbind as ctl; [apply cycle_body_keeps|]. destruct ctl; [apply IH|apply keeps_ret; auto].
Qed.

Lemma on_self_counter_keeps (f : CaptureMonitor -> CaptureMonitor) :
  (forall m, f m = set_pkt_count (Some 0) m \/ f m = set_byte_count (Some 0) m) ->
  keeps frame_o worker_event (fun _ => True) (on_self f).
Proof.
  intros Hf. apply keeps_modify; auto. intros s.
  destruct (Hf (self s)) as [Hm|Hm]; (split; [constructor|]); cbn; rewrite ?Hm; reflexivity.
Qed.

Lemma thread_main_loop_keeps (script : list cycle) :
  keeps frame_o worker_event (fun _ => True) (__thread_main_loop script).
Proof.
  unfold __thread_main_loop.
  kbind; [apply on_self_counter_keeps; auto|].
  kbind; [apply on_self_counter_keeps; auto|]. apply main_loop_keeps.
Qed.

Lemma thread_cb_handler_keeps (e : exn) hm :
  thread_cb_handler e = Some hm -> keeps frame_o worker_event (fun _ => True) hm.
Proof.
  destruct e; cbn; intros [= <-];
    repeat (kbind; [apply keeps_emit; auto|]); apply keeps_ret; auto.
Qed.

(** What [__thread_cb] does with an exception of the loop: it reports an
    [Exception] and returns; anything else goes through. *)
Lemma thread_cb_handler_inv (body : M st loop_status) (s s' : st) (r : result loop_status)
  (ev : list event) :
  try_except body thread_cb_handler s = (r, s', ev) ->
  match r with
  | Ok Running => body s = (Ok Running, s', ev)
  | Ok Finished => body s = (Ok Finished, s', ev) \/
                   exists e ev1, body s = (Raise e, s', ev1) /\ is_Exception e = true
  | Raise e => body s = (Raise e, s', ev) /\ is_Exception e = false
  end.
Proof.
  intros Hb. apply try_except_inv in Hb
    as [(a & H1 & ->)|[(e & H1 & Hh & ->)|(e & s1 & ev1 & hm & ev2 & H1 & Hh & H2 & ->)]].
  - destruct a; auto.
  - split; [exact H1|]. destruct e; try discriminate Hh. reflexivity.
  - destruct e; cbn in Hh; try discriminate Hh; injection Hh as <-;
      unfold bind, emit, ret in H2; cbn in H2; injection H2 as <- <- <-;
      right; eexists _, _; (split; [exact H1|reflexivity]).
Qed.

(** The loop does not go on past the test that reads the cleared flag. *)
Lemma main_loop_stops (script : list cycle) (s s' : st) (r : result loop_status)
  (ev : list event) :
  main_loop (script ++ [stop_cycle]) s = (r, s', ev) -> r <> Ok Running.
Proof.
  revert s ev. induction script as [|c rest IH]; intros s ev; cbn [app main_loop].
  - cbn. intros [= <- <- <-]. discriminate.
  - destruct (c_active c); [|intros [= <- <- <-]; discriminate].
    intros Hb. apply bind_inv in Hb as [(a & s1 & ev1 & ev2 & H1 & H2 & ->)|(e & H1 & ->)];
      [|discriminate].
    destruct a; [exact (IH _ _ H2)|]. injection H2 as <- <- <-. discriminate.
Qed.

(** The thread target never lets an [Exception] out (an interrupt is not
    delivered to a worker thread, but the model does not exclude it); the
    worker keeps to its own attributes and events. *)
Lemma run_worker_spec (script : list cycle) (s : st) :
  exists r s' ev,
    run_worker script s = (r, s', ev) /\
    forallb worker_event ev = true /\
    frame s {| self := set_t (t (self s)) (self s'); world := world s' |} /\
    (t (self s') = t (self s) \/ t (self s') = Some Dead) /\
    (forall e, r = Raise e -> is_Exception e = false) /\
    orphan (self s') = orphan (self s).
Proof.
  assert (Hidle : exists r s' ev,
            ret tt s = (r, s', ev) /\
            forallb worker_event ev = true /\
            frame s {| self := set_t (t (self s)) (self s'); world := world s' |} /\
            (t (self s') = t (self s) \/ t (self s') = Some Dead) /\
            (forall e, r = Raise e -> is_Exception e = false) /\
            orphan (self s') = orphan (self s)).
  { exists (Ok tt), s, []. split; [reflexivity|]. split; [reflexivity|].
    split; [destruct s as [[] ?]; constructor; reflexivity|].
    split; [auto|]. split; [discriminate|reflexivity]. }
  unfold run_worker, bind, gets. cbn.
  destruct (t (self s)) as [[]|] eqn:Ht; cbn; rewrite ?app_nil_r; try exact Hidle.
  destruct script as [|c rest]; [exact Hidle|].
  set (script := c :: rest).
  set (body := match pkt_count (self s) with
               | Some _ => try_except (main_loop script) thread_cb_handler
               | None => __thread_cb script
               end).
  assert (Hk : keeps frame_o worker_event (fun _ => True) body).
  { subst body. destruct (pkt_count (self s)); [|unfold __thread_cb];
      apply keeps_try_except; try typeclasses eauto;
      try apply main_loop_keeps; try apply thread_main_loop_keeps;
      apply thread_cb_handler_keeps. }
  destruct (body s) as [[r s1] ev1] eqn:Hb.
  destruct (Hk _ _ _ _ Hb) as ((Hf & Hor) & Hev & _).
  assert (Hfr : frame s {| self := set_t (Some Alive) (self s1); world := world s1 |}).
  { destruct Hf. constructor; cbn; auto. }
  assert (Hexn : forall e, r = Raise e -> is_Exception e = false).
  { intros e ->. subst body. destruct (pkt_count (self s)); [|unfold __thread_cb in Hb];
      apply thread_cb_handler_inv in Hb as [_ He]; exact He. }
  destruct r as [[]|e]; cbn; do 3 eexists;
    (split; [reflexivity|]); (split; [exact Hev|]); (split; [exact Hfr|]); cbn.
  all: split; [|split; [|exact Hor]]; try discriminate; auto.
  - left. rewrite (fr_t _ _ Hf). exact Ht.
  - intros e0 [= <-]. auto.
Qed.

(** A worker that is joined after the flag has been cleared is dead when
    [join] returns. *)
Lemma run_worker_stops (pending : list cycle) (s s' : st) (r : result unit) (ev : list event) :
  t (self s) = Some Alive ->
  run_worker (pending ++ [stop_cycle]) s = (r, s', ev) ->
  t (self s') = Some Dead.
Proof.
  intros Ht. unfold run_worker, bind, gets. cbn. rewrite Ht.
  destruct (pending ++ [stop_cycle]) as [|c rest] eqn:Hs; [destruct pending; discriminate Hs|].
  rewrite <- Hs.
  set (body := match pkt_count (self s) with
               | Some _ => try_except (main_loop (pending ++ [stop_cycle])) thread_cb_handler
               | None => __thread_cb (pending ++ [stop_cycle])
               end).
  destruct (body s) as [[rb s1] ev1] eqn:Hb. rewrite ?app_nil_r.
  assert (Hrun : rb <> Ok Running).
  { intros ->. subst body. destruct (pkt_count (self s)).
    - apply thread_cb_handler_inv in Hb. exact (main_loop_stops _ _ _ _ _ Hb eq_refl).
    - unfold __thread_cb in Hb. apply thread_cb_handler_inv in Hb.
      unfold __thread_main_loop, on_self, bind, modify in Hb. cbn in Hb.
      destruct (main_loop (pending ++ [stop_cycle]) _) as [[rm sm] evm] eqn:Hm.
      injection Hb as -> <- <-. exact (main_loop_stops _ _ _ _ _ Hm eq_refl). }
  destruct rb as [[]|e]; [congruence| |]; intros [= <- <- <-]; reflexivity.
Qed.

End WorkerKeeps.

Section CycleFacts.
Context `{Decoder}.

(** Every pass of the loop follows one of the paths. *)
Lemma cycle_body_path (c : cycle) (s s' : st) r ev :
  cycle_body c s = (r, s', ev) -> cycle_path c s r s' ev.
Proof.
  unfold cycle_body, __sleep. intros Hc.
  apply bind_inv in Hc as [(slept & s1 & evs & ev1 & Hsl & Hc & ->)|(e & Hsl & ->)];
    apply sleep_ticks_inv in Hsl as (-> & sl & k & Hr & -> & _); [|discriminate Hr].
  destruct slept; cbn [negb] in Hc;
    [|injection Hc as <- <- <-; rewrite app_nil_r; apply path_woken].
  apply bind_inv in Hc as [(wr & s2 & evw & ev2 & Hw & Hc & ->)|(e & Hw & ->)];
    unfold attr, bind, gets, ret, raise in Hw; cbn in Hw;
    destruct (writer (self s)) as [wr'|] eqn:Hwr; try discriminate Hw;
    injection Hw as <- <- <-; [|rewrite app_nil_r; apply path_no_writer; exact Hwr].
  cbn [app].
  apply bind_inv in Hc as [([] & s3 & evp & ev3 & Hp & Hc & ->)|(e & Hp & ->)];
    pose proof Hp as Hp'; apply periodic_check_inv in Hp' as (-> & _);
    [|eapply path_check_failed; eauto].
  apply bind_inv in Hc as [(got & s4 & evl & ev4 & Hl & Hc & ->)|(e & Hl & ->)];
    rewrite lock_eq in Hl; [|discriminate Hl].
  injection Hl as <- <- <-.
  destruct (c_lock_got c) eqn:Hgot; cbn [negb] in Hc;
    [|injection Hc as <- <- <-; rewrite app_nil_r; eapply path_lock_given_up; eauto].
  apply bind_inv in Hc as [(pkts & s5 & evf & ev5 & Hf & Hc & ->)|(e & Hf & ->)];
    pose proof Hf as Hf'; apply fetch_under_lock_inv in Hf' as (-> & _);
    change (unlocked (locked s)) with (unlocked s) in *;
    [|eapply path_fetch_failed; eauto].
  destruct pkts as [|pkt pkts];
    [injection Hc as <- <- <-; rewrite app_nil_r; eapply path_nothing_fetched; eauto|].
  apply bind_inv in Hc as [(b & s6 & evh & ev6 & Hh & Hc & ->)|(e & Hh & ->)];
    rewrite handle_pkts_param in Hh; injection Hh as Hres <- <-;
    [|eapply path_write_failed; eauto].
  apply bind_inv in Hc as [([] & s7 & eva & ev7 & Ha & Hc & ->)|(e & Ha & ->)];
    pose proof Ha as Ha'; apply add_counters_inv in Ha' as (-> & _).
  - injection Hc as <- <- <-. rewrite !app_nil_r.
    exact (path_counted c s k wr' evp evf pkt pkts b (Ok tt) s7 Hwr Hp Hgot Hf Hres Ha).
  - rewrite !app_nil_r.
    exact (path_counted c s k wr' evp evf pkt pkts b (Raise e) s' Hwr Hp Hgot Hf Hres Ha).
Qed.

End CycleFacts.

(** Traces of the parts of a pass. *)
Lemma writer_unlocked_event (e : event) : writer_event e = true -> unlocked_event e = true.
Proof. destruct e; cbn; auto; discriminate. Qed.

Lemma scan_unlocked (ev : list event) :
  forallb unlocked_event ev = true -> scan false ev = Some false.
Proof.
  apply scan_free. intros e. destruct e; try destruct rc; cbn; auto; discriminate.
Qed.

Lemma scan_rpc (h : bool) (ev : list event) : forallb rpc_event ev = true -> scan h ev = Some h.
Proof.
  induction ev as [|e ev IH]; cbn [forallb scan]; [reflexivity|].
  intros [He Hev]%andb_true_iff. destruct e; cbn in He; try discriminate; auto.
Qed.

Lemma count_unlocked (p : event -> bool) (ev : list event) :
  p = is_release \/ p = is_acquired \/ p = is_fetch ->
  forallb unlocked_event ev = true -> count p ev = O.
Proof.
  intros Hp. apply count_none. intros e.
  destruct Hp as [->|[->| ->]]; destruct e; try destruct rc; cbn; auto; discriminate.
Qed.

Lemma count_rpc (p : event -> bool) (ev : list event) :
  p = is_release \/ p = is_acquired \/ p = is_handle_pkts ->
  forallb rpc_event ev = true -> count p ev = O.
Proof.
  intros Hp. apply count_none. intros e.
  destruct Hp as [->|[->| ->]]; destruct e; cbn; auto; discriminate.
Qed.

Lemma count_in (p : event -> bool) (ev : list event) (e : event) :
  In e ev -> p e = true -> (1 <= count p ev)%nat.
Proof.
  induction ev as [|x ev IH]; cbn; [tauto|].
  intros [->|Hin] He; [rewrite He; lia|]. specialize (IH Hin He). destruct (p x); lia.
Qed.

Lemma scan_app_unlocked (a b : list event) :
  forallb unlocked_event a = true -> scan false (a ++ b) = scan false b.
Proof. intros Ha. rewrite scan_app, (scan_unlocked a Ha). reflexivity. Qed.

Lemma scan_app_lock (busy : nat) (got : bool) (b : list event) :
  scan false (lock_trace busy got ++ b) = scan got b.
Proof. rewrite scan_app, lock_trace_scan. reflexivity. Qed.

Lemma scan_app_held (a b : list event) :
  scan true a = Some false -> scan true (a ++ b) = scan false b.
Proof. intros Ha. rewrite scan_app, Ha. reflexivity. Qed.

Section LockClaim.
Context `{Decoder}.

Lemma path_lock_discipline (c : cycle) (s s' : st) r ev :
  lock_held (world s) = false -> cycle_path c s r s' ev ->
  lock_held (world s') = false /\
  scan false ev = Some false /\
  count is_release ev = count is_acquired ev /\
  (count is_acquired ev <= 1)%nat.
Proof.
  intros Hfree Hpath.
  assert (Hsl : forall k, forallb unlocked_event (repeat EvSleep k) = true)
    by apply repeat_sleep_unlocked.
  assert (Hck : forall wr rp evp, periodic_check wr (c_check_poll c) s = (rp, s, evp) ->
                                  forallb unlocked_event evp = true).
  { intros wr rp evp (_ & Hev & _)%periodic_check_inv.
    eapply forallb_impl; [apply writer_unlocked_event|exact Hev]. }
  assert (Hfe : forall rf evf, fetch_under_lock c (locked s) = (rf, unlocked s, evf) ->
                  scan true evf = Some false /\ count is_release evf = 1%nat /\
                  count is_acquired evf = O).
  { intros rf evf (_ & mid & -> & Hmid & _)%fetch_under_lock_inv.
    rewrite scan_app, !count_app, (scan_rpc true mid Hmid).
    rewrite !(count_rpc _ mid) by auto. repeat split. }
  assert (Hhp : forall wr pkts,
             forallb unlocked_event (snd (handle_pkts wr (c_write c) pkts tt)) = true).
  { intros wr pkts. eapply forallb_impl; [apply writer_unlocked_event|apply handle_pkts_events]. }
  destruct Hpath;
    repeat match goal with
           | Hx : periodic_check _ _ _ = _ |- _ => apply Hck in Hx
           | Hx : fetch_under_lock _ _ = _ |- _ => apply Hfe in Hx as (? & ? & ?)
           | Hx : add_counters _ _ _ = _ |- _ => apply add_counters_inv in Hx as (_ & Hx & _)
           end;
    (split; [first [assumption|reflexivity|match goal with Hw : world _ = _ |- _ => rewrite Hw; reflexivity end]|]);
    (split;
     [ repeat first [ rewrite scan_app_unlocked by (first [apply Hsl|assumption|apply Hhp])
                    | rewrite scan_app_lock
                    | rewrite scan_app_held by assumption ];
       first [ apply scan_unlocked; first [apply Hsl|assumption|apply Hhp]
             | apply lock_trace_scan | assumption ]
     | ]);
    rewrite ?count_app;
    rewrite ?lock_trace_acquired, ?(lock_trace_count is_release) by (intros; reflexivity);
    repeat match goal with
           | |- context [count ?p (repeat EvSleep ?k)] =>
               rewrite (count_unlocked p (repeat EvSleep k)) by auto
           | Hx : forallb unlocked_event ?l = true |- context [count ?p ?l] =>
               rewrite (count_unlocked p l) by auto
           | |- context [count ?p (snd (handle_pkts ?w ?e ?pk tt))] =>
               rewrite (count_unlocked p (snd (handle_pkts w e pk tt))) by auto
           | Hx : count _ ?l = _ |- context [count _ ?l] => rewrite Hx
           end;
    split; lia.
Qed.

(** C6. A pass of the loop that starts without the command lock ends
    without it whatever its result, an exception included; its trace follows
    the lock discipline (the lock is released only while held, and only the
    connectivity check and the fetch happen under it); it releases as often
    as it acquires, and exactly once when it has acquired the lock. *)
Theorem lock_released_on_every_path (c : cycle) (s s' : st) (r : result loop_ctl)
  (ev : list event) :
  lock_held (world s) = false ->
  cycle_body c s = (r, s', ev) ->
  lock_held (world s') = false /\
  scan false ev = Some false /\
  count is_release ev = count is_acquired ev /\
  (In (EvAcquire true) ev -> count is_release ev = 1%nat).
Proof.
  intros Hfree Hc. apply cycle_body_path in Hc.
  destruct (path_lock_discipline c s s' r ev Hfree Hc) as (H1 & H2 & H3 & H4).
  repeat split; auto.
  intros Hin. pose proof (count_in is_acquired ev _ Hin eq_refl). lia.
Qed.

End LockClaim.

Lemma sleep_ticks_ok (n : nat) (reads : list bool) (s : st) :
  forallb (fun x => x) (firstn n reads) = true ->
  sleep_ticks n reads s = (Ok true, s, repeat EvSleep n).
Proof.
  revert reads. induction n as [|n IH]; intros reads Hr; [reflexivity|].
  cbn [sleep_ticks repeat]. destruct reads as [|[] reads]; cbn [hd tl] in *.
  - unfold bind, emit. rewrite (IH []) by (destruct n; reflexivity). reflexivity.
  - unfold bind, emit. rewrite (IH reads) by exact Hr. reflexivity.
  - discriminate Hr.
Qed.

Section CounterClaims.
Context `{Decoder}.

(** C2. A pass of the loop whose fetch is issued and returns an empty
    packet list goes on to the next pass, leaves the monitor object, and so
    both counters, as it was, and never enters [writer.handle_pkts]. *)
Theorem empty_fetch_changes_nothing (c : cycle) (s s' : st) (r : result loop_ctl)
  (ev : list event) :
  c_fetch c = Ok (RC_OK []) ->
  cycle_body c s = (r, s', ev) ->
  In (EvFetch (capture_id (self s)) 10) ev ->
  r = Ok Continue /\
  self s' = self s /\
  count is_handle_pkts ev = O /\
  (forall n, ~ In (EvHandlePkts n) ev).
Proof.
  intros Hfetch Hc Hin. apply cycle_body_path in Hc.
  assert (Hnf : forall l, count is_fetch l = O -> ~ In (EvFetch (capture_id (self s)) 10) l).
  { intros l Hl. apply (count_zero_not_in is_fetch); auto. }
  assert (Hsl : forall k, forallb unlocked_event (repeat EvSleep k) = true)
    by apply repeat_sleep_unlocked.
  assert (Hck : forall wr rp evp, periodic_check wr (c_check_poll c) s = (rp, s, evp) ->
                  forallb unlocked_event evp = true /\ count is_handle_pkts evp = O).
  { intros wr rp evp (_ & Hev & Hh & _)%periodic_check_inv. split; [|exact Hh].
    eapply forallb_impl; [apply writer_unlocked_event|exact Hev]. }
  assert (Hhs : forall k, count is_handle_pkts (repeat EvSleep k) = O)
    by (induction k; cbn; auto).
  assert (Hhl : forall b g, count is_handle_pkts (lock_trace b g) = O)
    by (intros; apply lock_trace_count; intros; reflexivity).
  assert (Hfl : forall b g, count is_fetch (lock_trace b g) = O)
    by (intros; apply lock_trace_count; intros; reflexivity).
  destruct Hc;
    repeat match goal with
           | Hx : periodic_check _ _ _ = _ |- _ => apply Hck in Hx as (? & ?)
           end.
  - exfalso. revert Hin. apply Hnf, count_unlocked; auto.
  - exfalso. revert Hin. apply Hnf, count_unlocked; auto.
  - exfalso. revert Hin. apply Hnf. rewrite count_app, !count_unlocked; auto.
  - exfalso. revert Hin. apply Hnf. rewrite !count_app, Hfl, !count_unlocked; auto.
  - exfalso. revert Hin. apply Hnf. rewrite !count_app, Hfl, !count_unlocked by auto.
    revert H3. unfold fetch_under_lock, try_finally, __unlock, call, bind, emit, gets, ret,
                      raise, on_world, modify.
    rewrite Hfetch. destruct (c_connected c) as [[]|]; cbn; intros Hx; try discriminate Hx;
      inversion Hx; subst; reflexivity.
  - assert (Hh0 : count is_handle_pkts (repeat EvSleep k ++ evp ++
                                        lock_trace (c_lock_busy c) true ++ evf) = O).
    { rewrite !count_app, Hhs, Hhl. apply fetch_under_lock_inv in H3 as (_ & mid & -> & Hm & _).
      rewrite count_app, (count_rpc is_handle_pkts mid) by auto. cbn. lia. }
    repeat split; auto.
    intros n. apply (count_zero_not_in is_handle_pkts); auto.
  - apply fetch_under_lock_inv in H3 as (_ & mid & _ & _ & _ & Hf & _).
    rewrite Hfetch in Hf. discriminate Hf.
  - apply fetch_under_lock_inv in H3 as (_ & mid & _ & _ & _ & Hf & _).
    rewrite Hfetch in Hf. discriminate Hf.
Qed.

(** One pass that goes all the way adds its packets and bytes. *)
Lemma cycle_ok_step (wr : CaptureMonitorWriter) (c : cycle) (k b pc bc : Z) (s : st) :
  cycle_ok wr c k b ->
  writer (self s) = Some wr ->
  pkt_count (self s) = Some pc ->
  byte_count (self s) = Some bc ->
  exists s' ev,
    cycle_body c s = (Ok Continue, s', ev) /\
    writer (self s') = Some wr /\
    pkt_count (self s') = Some (pc + k) /\
    byte_count (self s') = Some (bc + b).
Proof.
  intros (Hact & Hsl & Hck & Hgot & Hconn & pkts & Hfetch & -> & Hres) Hwr Hpc Hbc.
  destruct (periodic_check wr (c_check_poll c) s) as [[rp s1] evp] eqn:Hp.
  pose proof Hp as Hp'. apply periodic_check_inv in Hp' as (-> & _ & _ & Hok).
  rewrite (Hok Hck) in Hp.
  assert (Hf : fetch_under_lock c (locked s) =
               (Ok pkts, unlocked s, [EvIsConnected; EvFetch (capture_id (self s)) 10; EvRelease])).
  { unfold fetch_under_lock, try_finally, __unlock, call, bind, emit, gets, ret, raise, on_world,
           modify. rewrite Hconn, Hfetch. reflexivity. }
  unfold cycle_body, __sleep, attr, bind, gets, ret.
  rewrite (sleep_ticks_ok 5 (c_sleep c) s Hsl). cbn [negb]. rewrite Hwr, Hp, lock_eq, Hgot.
  cbn [negb]. rewrite Hf.
  destruct pkts as [|pkt pkts].
  - subst b. do 2 eexists. split; [reflexivity|]. cbn.
    rewrite Hwr, Hpc, Hbc. repeat split; f_equal; lia.
  - rewrite handle_pkts_param, Hres.
    unfold add_counters, attr, on_self, modify, bind, gets, ret. cbn.
    rewrite Hpc. cbn. rewrite Hbc. cbn.
    do 2 eexists. split; [reflexivity|]. cbn. rewrite Hwr. repeat split.
Qed.

End CounterClaims.

Lemma sumZ_firstn_mono (l : list Z) (i j : nat) :
  Forall (fun x => 0 <= x) l -> (i <= j)%nat -> sumZ (firstn i l) <= sumZ (firstn j l).
Proof.
  intros Hl. revert i j. induction Hl as [|x l Hx Hl IH]; intros i j Hij.
  - destruct i, j; cbn; lia.
  - destruct i as [|i], j as [|j]; try lia.
    + specialize (IH O j ltac:(lia)). unfold sumZ in *. simpl in *. lia.
    + specialize (IH i j ltac:(lia)). unfold sumZ in *. simpl in *. lia.
Qed.

Section SumClaim.
Context `{Decoder}.

Lemma handle_result_nonneg (wr : CaptureMonitorWriter) (env : write_env)
  (pkts : list packet) (b : Z) :
  handle_result wr env pkts = Ok b -> 0 <= b.
Proof.
  intros Hr. pose proof (handle_pkts_param wr env pkts tt) as Hp. rewrite Hr in Hp.
  apply handle_pkts_spec in Hp as (_ & Hb). eapply batch_bytes_nonneg, Hb.
Qed.

Lemma cycles_ok_nonneg (wr : CaptureMonitorWriter) script ks bs :
  cycles_ok wr script ks bs ->
  Forall (fun x => 0 <= x) ks /\ Forall (fun x => 0 <= x) bs.
Proof.
  induction 1 as [|c k b script ks bs Hc Hs [IHk IHb]]; [split; constructor|].
  destruct Hc as (_ & _ & _ & _ & _ & pkts & _ & -> & Hb).
  split; constructor; auto; [lia|].
  destruct pkts; [lia|]. eapply handle_result_nonneg, Hb.
Qed.

Lemma cycles_ok_firstn (wr : CaptureMonitorWriter) script ks bs (n : nat) :
  cycles_ok wr script ks bs ->
  cycles_ok wr (firstn n script) (firstn n ks) (firstn n bs).
Proof.
  intros Hs. revert n. induction Hs; intros [|n]; cbn; constructor; auto.
Qed.

(** A run of passes that go all the way adds up their packets and bytes, and
    leaves the worker inside its loop. *)
Lemma main_loop_sum (wr : CaptureMonitorWriter) script ks bs :
  cycles_ok wr script ks bs ->
  forall (s : st) (pc bc : Z),
    writer (self s) = Some wr ->
    pkt_count (self s) = Some pc ->
    byte_count (self s) = Some bc ->
    exists s' ev,
      main_loop script s = (Ok Running, s', ev) /\
      pkt_count (self s') = Some (pc + sumZ ks) /\
      byte_count (self s') = Some (bc + sumZ bs).
Proof.
  induction 1 as [|c k b script ks bs Hc Hs IH]; intros s pc bc Hwr Hpc Hbc.
  - exists s, []. cbn. rewrite Hpc, Hbc. repeat split; f_equal; unfold sumZ; simpl; lia.
  - destruct (cycle_ok_step wr c k b pc bc s Hc Hwr Hpc Hbc) as (s1 & ev1 & Hb & Hwr1 & Hpc1 & Hbc1).
    destruct (IH s1 _ _ Hwr1 Hpc1 Hbc1) as (s2 & ev2 & Hl & Hpc2 & Hbc2).
    exists s2, (ev1 ++ ev2). cbn [main_loop].
    destruct Hc as (-> & _). unfold bind. rewrite Hb, Hl.
    split; [reflexivity|]. rewrite Hpc2, Hbc2. split; f_equal; unfold sumZ; simpl; lia.
Qed.

Lemma counters_after_ok (wr : CaptureMonitorWriter) script ks bs (s : st) :
  writer (self s) = Some wr ->
  cycles_ok wr script ks bs ->
  __thread_main_loop script s =
    (Ok Running, snd (fst (__thread_main_loop script s)), snd (__thread_main_loop script s)) /\
  counters_after script s = (Some (sumZ ks), Some (sumZ bs)).
Proof.
  intros Hwr Hs. unfold counters_after, __thread_main_loop, on_self, modify, bind.
  cbn [fst snd app].
  set (s0 := {| self := set_byte_count (Some 0) (self {| self := set_pkt_count (Some 0) (self s);
                                                          world := world s |});
                world := world {| self := set_pkt_count (Some 0) (self s); world := world s |} |}).
  destruct (main_loop_sum wr script ks bs Hs s0 0 0) as (s' & ev & Hl & Hpc & Hbc);
    [exact Hwr|reflexivity|reflexivity|].
  rewrite Hl. cbn. rewrite Hpc, Hbc. split; reflexivity.
Qed.

(** C1. In a run of the worker whose passes all go the whole way, each
    fetch succeeding with [k] packets and the writer answering [b] bytes for
    them, the counters end at the sum of the [k] and at the sum of the [b],
    the worker is still inside its loop, and the counters after a prefix of
    the run never exceed the counters after a longer prefix. *)
Theorem counters_sum (wr : CaptureMonitorWriter) (script : list cycle) (ks bs : list Z)
  (s : st) :
  writer (self s) = Some wr ->
  cycles_ok wr script ks bs ->
  counters_after script s = (Some (sumZ ks), Some (sumZ bs)) /\
  fst (fst (__thread_main_loop script s)) = Ok Running /\
  (forall i j : nat, (i <= j)%nat ->
     exists p1 b1 p2 b2,
       counters_after (firstn i script) s = (Some p1, Some b1) /\
       counters_after (firstn j script) s = (Some p2, Some b2) /\
       p1 <= p2 /\ b1 <= b2).
Proof.
  intros Hwr Hs. destruct (counters_after_ok wr script ks bs s Hwr Hs) as [Hrun Hcnt].
  split; [exact Hcnt|]. split; [rewrite Hrun; reflexivity|].
  intros i j Hij. destruct (cycles_ok_nonneg wr script ks bs Hs) as [Hk Hb].
  exists (sumZ (firstn i ks)), (sumZ (firstn i bs)), (sumZ (firstn j ks)), (sumZ (firstn j bs)).
  repeat split.
  - apply (counters_after_ok wr); auto using cycles_ok_firstn.
  - apply (counters_after_ok wr); auto using cycles_ok_firstn.
  - apply sumZ_firstn_mono; auto.
  - apply sumZ_firstn_mono; auto.
Qed.

End SumClaim.

(** ** Stopping a monitor *)

Lemma worker_event_not_stop (ev : list event) :
  forallb worker_event ev = true -> count is_stop_capture ev = O.
Proof. apply count_none. intros e. destruct e; cbn; auto; discriminate. Qed.

Section StopFacts.
Context `{Decoder}.

(** The first block joins a live worker and forgets its handle; it leaves a
    handle that is not alive where it is. *)
Lemma stop_thread_spec (pending : list cycle) (s : st) :
  exists s1 ev1,
    stop_thread pending s = (Ok tt, s1, ev1) /\
    t (self s1) = match t (self s) with Some Alive => None | th => th end /\
    writer (self s1) = writer (self s) /\
    capture_id (self s1) = capture_id (self s) /\
    fs (world s1) = fs (world s) /\
    fds (world s1) = fds (world s) /\
    count is_stop_capture ev1 = O /\
    (t (self s) <> Some Alive -> s1 = s /\ ev1 = []) /\
    orphan (self s1) = match t (self s) with Some Alive => Some Dead | _ => orphan (self s) end.
Proof.
  unfold stop_thread, join, on_self, modify, emit, bind, gets. cbv beta iota.
  destruct (t (self s)) as [[]|] eqn:Ht;
    try (exists s, []; repeat split; auto; fail).
  match goal with
  | |- context [run_worker ?sc ?s0] =>
      destruct (run_worker_spec sc s0) as (r1 & s1 & ev & Hr & Hev & Hf & _);
      pose proof (run_worker_stops _ s0 s1 r1 ev Ht Hr) as Hdead; rewrite Hr
  end.
  do 2 eexists. split; [reflexivity|]. cbn.
  destruct Hf as [_ Hw Hc _ _ _ _ _ _ Hfs Hfds]. cbn in Hw, Hc, Hfs, Hfds |- *.
  repeat (split; [assumption || reflexivity|]).
  split; [|split; [intros Hne; congruence|exact Hdead]].
  rewrite app_nil_r. apply worker_event_not_stop, Hev.
Qed.

(** The second block never raises and leaves no writer; a pipe writer whose
    descriptor is open has its file removed. *)
Lemma stop_writer_spec (s : st) :
  exists s2 ev2,
    stop_writer s = (Ok tt, s2, ev2) /\
    writer (self s2) = None /\
    t (self s2) = t (self s) /\
    capture_id (self s2) = capture_id (self s) /\
    pkt_count (self s2) = pkt_count (self s) /\
    byte_count (self s2) = byte_count (self s) /\
    count is_stop_capture ev2 = O /\
    (writer (self s) = None -> s2 = s /\ ev2 = []) /\
    (forall p n, writer (self s) = Some (WPipe p) -> fifo_name p = Some n -> n <> EmptyString ->
                 (forall fd, fifo p = Some fd -> fd ∈ fds (world s)) ->
                 n ∉ fs (world s2)) /\
    (forall n, n ∉ fs (world s) -> n ∉ fs (world s2)) /\
    orphan (self s2) = orphan (self s).
Proof.
  unfold stop_writer, bind, gets. cbn.
  destruct (writer (self s)) as [[so|p]|] eqn:Hw; cbn.
  - exists {| self := set_writer None (self s); world := world s |}, [EvDeinit].
    repeat split; auto; discriminate.
  - unfold zoom.
    destruct (pipe_deinit_spec p (world s)) as (p' & w' & evd & Hd & _ & _ & _ & Hcnt & Hsub & Hrm).
    rewrite Hd. cbn. do 2 eexists. split; [reflexivity|]. cbn. rewrite app_nil_r.
    repeat (split; [first [assumption|reflexivity|intros Hx; discriminate Hx]|]).
    split; [|split; [exact Hsub|reflexivity]].
    intros p0 n [= <-] Hn Hne Hfd. apply (Hrm n Hn Hne Hfd).
  - exists s, []. repeat split; auto; discriminate.
Qed.

(** The last block forgets the capture id before it talks to the server, and
    asks the server to stop the capture only when the client is connected and
    the server lists the id. *)
Lemma stop_remote_spec (env : stop_env) (s s3 : st) r ev3 :
  stop_remote env s = (r, s3, ev3) ->
  s3 = {| self := set_capture_id None (self s); world := world s |} /\
  In EvIsConnected ev3 /\
  (forall id, In (EvStopCapture id) ev3 <->
              capture_id (self s) = Some id /\ st_connected env = Ok true /\
              exists ids, st_status env = Ok ids /\ id ∈ ids).
Proof.
  unfold stop_remote, call, on_self, modify, bind, gets, emit, ret, raise. cbn.
  destruct (st_connected env) as [[]|e] eqn:Hc; cbn.
  - destruct (st_status env) as [ids|e] eqn:Hs; cbn.
    + destruct (capture_id (self s)) as [id|] eqn:Hid; cbn.
      * destruct (decide (id ∈ ids)) as [Hin|Hnin]; cbn.
        -- destruct (st_stop_capture env); cbn; intros [= <- <- <-];
             (split; [reflexivity|]); (split; [left; reflexivity|]); intros id'; split.
           ++ intros [Hx|[Hx|[Hx|[]]]]; try discriminate Hx. injection Hx as <-. repeat split; eauto.
           ++ intros ([= <-] & _). right; right; left; reflexivity.
           ++ intros [Hx|[Hx|[Hx|[]]]]; try discriminate Hx. injection Hx as <-. repeat split; eauto.
           ++ intros ([= <-] & _). right; right; left; reflexivity.
        -- intros [= <- <- <-]. split; [reflexivity|]. split; [left; reflexivity|]. intros id'. split.
           ++ intros [Hx|[Hx|[]]]; discriminate Hx.
           ++ intros ([= <-] & _ & ids' & [= <-] & Hin). contradiction.
      * intros [= <- <- <-]. split; [reflexivity|]. split; [left; reflexivity|]. intros id'. split.
        -- intros [Hx|[Hx|[]]]; discriminate Hx.
        -- intros (Hx & _). discriminate Hx.
    + intros [= <- <- <-]. split; [reflexivity|]. split; [left; reflexivity|]. intros id'. split.
      * intros [Hx|[Hx|[]]]; discriminate Hx.
      * intros (_ & _ & ids' & Hx & _). discriminate Hx.
  - intros [= <- <- <-]. split; [reflexivity|]. split; [left; reflexivity|]. intros id'. split.
    + intros [Hx|[]]; discriminate Hx.
    + intros (_ & Hx & _). discriminate Hx.
  - intros [= <- <- <-]. split; [reflexivity|]. split; [left; reflexivity|]. intros id'. split.
    + intros [Hx|[]]; discriminate Hx.
    + intros (_ & Hx & _). discriminate Hx.
Qed.

Lemma stop_remote_no_deinit (env : stop_env) (s s3 : st) r ev3 :
  stop_remote env s = (r, s3, ev3) -> ~ In EvDeinit ev3.
Proof.
  unfold stop_remote, call, on_self, modify, bind, gets, emit, ret, raise. cbn.
  destruct (st_connected env) as [[]|e]; cbn;
    [destruct (st_status env) as [ids|e]; cbn;
     [destruct (capture_id (self s)) as [id|]; cbn;
      [destruct (decide (id ∈ ids)); cbn; [destruct (st_stop_capture env); cbn|]|]|]| |];
    intros [= <- <- <-]; cbn; intuition discriminate.
Qed.

End StopFacts.

Section StopClaims.
Context `{Decoder}.

(** [__stop] is its two local blocks, which never raise, followed by the
    talk with the server. *)
Lemma stop_blocks (pending : list cycle) (s : st) :
  exists s2 ev12,
    (forall env, st_pending env = pending ->
       __stop env s =
       (fst (fst (stop_remote env s2)), snd (fst (stop_remote env s2)),
        ev12 ++ snd (stop_remote env s2))) /\
    t (self s2) = match t (self s) with Some Alive => None | th => th end /\
    writer (self s2) = None /\
    capture_id (self s2) = capture_id (self s) /\
    count is_stop_capture ev12 = O /\
    (t (self s) <> Some Alive -> pkt_count (self s2) = pkt_count (self s) /\
                                 byte_count (self s2) = byte_count (self s)) /\
    (t (self s) <> Some Alive -> writer (self s) = None -> s2 = s /\ ev12 = []) /\
    (forall p n, writer (self s) = Some (WPipe p) -> fifo_name p = Some n -> n <> EmptyString ->
                 (forall fd, fifo p = Some fd -> fd ∈ fds (world s)) ->
                 n ∉ fs (world s2)) /\
    (forall n, n ∉ fs (world s) -> n ∉ fs (world s2)) /\
    orphan (self s2) = match t (self s) with Some Alive => Some Dead | _ => orphan (self s) end.
Proof.
  destruct (stop_thread_spec pending s)
    as (s1 & ev1 & H1 & Ht1 & Hw1 & Hc1 & Hfs1 & Hfd1 & Hn1 & Hid1 & Ho1).
  destruct (stop_writer_spec s1)
    as (s2 & ev2 & H2 & Hw2 & Ht2 & Hc2 & Hp2 & Hb2 & Hn2 & Hid2 & Hrm2 & Hsub2 & Ho2).
  exists s2, (ev1 ++ ev2). split; [|repeat split].
  - intros env <-. unfold __stop, bind. rewrite H1, H2.
    destruct (stop_remote env s2) as [[r s3] ev3]. cbn. rewrite app_assoc. reflexivity.
  - congruence.
  - exact Hw2.
  - congruence.
  - rewrite count_app, Hn1, Hn2. reflexivity.
  - destruct (Hid1 H0) as [-> _]. exact Hp2.
  - destruct (Hid1 H0) as [-> _]. exact Hb2.
  - match goal with
    | Hna : t (self s) <> Some Alive, Hwn : writer (self s) = None |- _ =>
        destruct (Hid1 Hna) as [-> _]; exact (proj1 (Hid2 Hwn))
    end.
  - match goal with
    | Hna : t (self s) <> Some Alive, Hwn : writer (self s) = None |- _ =>
        destruct (Hid1 Hna) as [-> ->]; destruct (Hid2 Hwn) as [_ ->]; reflexivity
    end.
  - intros p n Hw Hn Hne Hfd. apply (Hrm2 p n); [congruence|auto|auto|].
    intros fd Hfo. rewrite Hfd1. auto.
  - intros n Hn. apply Hsub2. rewrite Hfs1. exact Hn.
  - congruence.
Qed.

(** The public [stop] ends in the state [__stop] ends in, with its result. *)
Lemma stop_inv (env : stop_env) (s s' : st) r ev :
  stop env s = (r, s', ev) ->
  exists ev0 tail,
    __stop env s = (r, s', ev0) /\ ev = EvLog "Stopping capture monitor" :: ev0 ++ tail /\
    count is_stop_capture tail = O.
Proof.
  unfold stop, bind, try_except, emit, raise. cbn.
  destruct (__stop env s) as [[[[]|e] s1] ev0]; cbn.
  - intros [= <- <- <-]. exists ev0, [EvLog "OK"]. rewrite ?app_nil_r. auto.
  - destruct (is_Exception e); cbn; intros [= <- <- <-].
    + exists ev0, [EvLog "ERR"]. rewrite ?app_nil_r. auto.
    + exists ev0, []. rewrite ?app_nil_r. auto.
Qed.

Lemma in_stop_capture_app (a b c : list event) (id : Z) :
  count is_stop_capture a = O -> count is_stop_capture c = O ->
  In (EvStopCapture id) (a ++ b ++ c) <-> In (EvStopCapture id) b.
Proof.
  intros Ha Hc. rewrite !in_app_iff. split; [|auto].
  intros [Hx|[Hx|Hx]]; auto; exfalso.
  - exact (count_zero_not_in is_stop_capture a (EvStopCapture id) Ha eq_refl Hx).
  - exact (count_zero_not_in is_stop_capture c (EvStopCapture id) Hc eq_refl Hx).
Qed.

(** All that [__stop] does. *)
Lemma stop_spec (env : stop_env) (s s' : st) r ev :
  __stop env s = (r, s', ev) ->
  writer (self s') = None /\
  capture_id (self s') = None /\
  t (self s') = match t (self s) with Some Alive => None | th => th end /\
  In EvIsConnected ev /\
  (forall id, In (EvStopCapture id) ev <->
              capture_id (self s) = Some id /\ st_connected env = Ok true /\
              exists ids, st_status env = Ok ids /\ id ∈ ids) /\
  (forall env', st_pending env' = st_pending env -> snd (fst (__stop env' s)) = s') /\
  (t (self s) <> Some Alive -> pkt_count (self s') = pkt_count (self s) /\
                               byte_count (self s') = byte_count (self s)) /\
  (forall n, pipe_accounted n s -> n <> EmptyString -> n ∉ fs (world s')) /\
  orphan (self s') = match t (self s) with Some Alive => Some Dead | _ => orphan (self s) end /\
  (t (self s) <> Some Alive -> writer (self s) = None ->
   world s' = world s /\ ~ In EvDeinit ev).
Proof.
  intros Hs.
  destruct (stop_blocks (st_pending env) s)
    as (s2 & ev12 & Heq & Ht & Hw & Hc & Hn & Hcnt & Hsame & Hrm & Hsub & Ho).
  pose proof (Heq env eq_refl) as He. rewrite Hs in He.
  destruct (stop_remote env s2) as [[r3 s3] ev3] eqn:Hr. cbn in He.
  injection He as -> -> ->.
  pose proof (stop_remote_spec env s2 s3 r3 ev3 Hr) as (-> & Hconn & Hiff).
  cbn [self world].
  split; [exact Hw|]. split; [reflexivity|]. split; [exact Ht|].
  split; [apply in_app_iff; auto|].
  split; [|split; [|split; [|split; [|split]]]].
  - intros id. rewrite <- Hc, <- Hiff.
    pose proof (in_stop_capture_app ev12 ev3 [] id Hn eq_refl) as Happ.
    rewrite app_nil_r in Happ. exact Happ.
  - intros env' Hp. rewrite (Heq env' Hp). cbn [fst snd].
    destruct (stop_remote env' s2) as [[r4 s4] ev4] eqn:Hr'.
    pose proof (stop_remote_spec env' s2 s4 r4 ev4 Hr') as (-> & _). reflexivity.
  - exact Hcnt.
  - intros n Hacc Hne. unfold pipe_accounted in Hacc.
    destruct (writer (self s)) as [[so|p]|] eqn:Hws; [contradiction| |].
    + destruct Hacc as [Hfn Hfd]. apply (Hrm p n eq_refl Hfn Hne Hfd).
    + apply Hsub, Hacc.
  - exact Ho.
  - intros Hna Hwn. destruct (Hsame Hna Hwn) as [-> ->]. split; [reflexivity|].
    cbn [app]. exact (stop_remote_no_deinit _ _ _ _ _ Hr).
Qed.


End StopClaims.

(** ** Starting a monitor *)

Lemma new_pipe_spec (env : pipe_env) (start_ts : Z) (s s1 : st) r ev :
  new_pipe env start_ts s = (r, s1, ev) ->
  self s1 = self s /\
  match r with
  | Ok p => fifo_name p = Some (pe_mktemp env) /\
            (forall fd, fifo p = Some fd -> fd ∈ fds (world s1))
  | Raise e =>
      match e with
      | STLError _ => pe_mktemp env <> EmptyString -> pe_mktemp env ∉ fs (world s1)
      | Exception cls msg =>
          pipe_env_fails env cls msg /\ ~ In EvDeinit ev /\
          (In (EvMkfifo (pe_mktemp env)) ev -> pe_mktemp env ∈ fs (world s1))
      | _ => False
      end
  end.
Proof.
  unfold new_pipe, zoom, bind, gets.
  match goal with |- context [pipe_init env start_ts ?s0] =>
    destruct (pipe_init env start_ts s0) as [[[[]|e] ps1] ev0] eqn:Hi end; cbn;
    intros [= <- <- <-]; cbn; (split; [reflexivity|]).
  - apply pipe_init_success in Hi as (Hn & Hfd & _). auto.
  - apply pipe_init_raise in Hi as (e0 & s0 & ev1 & _ & Hm).
    destruct e0 as [m| |m|cls m]; [destruct Hm| | |].
    + destruct Hm as ((msg & ->) & _ & Hrm). intros Hne. apply (Hrm Hne).
    + destruct Hm as ((msg & ->) & _ & Hrm). intros Hne. apply (Hrm Hne).
    + destruct Hm as (Hf & -> & -> & -> & Hnd & _ & Hmk). auto.
Qed.

Section StartFacts.
Context `{Decoder}.

Lemma start_spec (env : start_env) (s s1 : st) r ev :
  writer (self s) = None ->
  __start env s = (r, s1, ev) ->
  pkt_count (self s1) = pkt_count (self s) /\
  byte_count (self s1) = byte_count (self s) /\
  (forall d, se_start_capture env = Ok d -> capture_id (self s1) = Some (fst d)) /\
  match r with
  | Ok _ => t (self s1) = Some Alive
  | Raise e => t (self s1) = t (self s) \/ t (self s1) = Some Unstarted
  end /\
  (mon_type (self s) = "pipe" -> (exists d, se_start_capture env = Ok d) ->
   pe_mktemp (se_pipe env) <> EmptyString ->
   match r with
   | Raise (Exception cls msg) =>
       writer (self s1) <> None /\ pipe_accounted (pe_mktemp (se_pipe env)) s1 \/
       writer (self s1) = None /\ pipe_env_fails (se_pipe env) cls msg /\
       ~ In EvDeinit ev /\
       (In (EvMkfifo (pe_mktemp (se_pipe env))) ev ->
        pe_mktemp (se_pipe env) ∈ fs (world s1))
   | _ => pipe_accounted (pe_mktemp (se_pipe env)) s1
   end).
Proof.
  intros Hw. unfold __start, pipe_accounted.
  intros Hs. apply bind_inv in Hs as [(m & s0 & ev0 & ev0' & Hg & Hs & ->)|(e & Hg & _)];
    [|discriminate Hg].
  injection Hg as <- <- <-.
  apply bind_inv in Hs as [(dd & sa & eva & eva' & Hc & Hs & ->)|(e & Hc & ->)];
    unfold call, bind, emit, ret, raise in Hc; cbn in Hc;
    destruct (se_start_capture env) as [d|e'] eqn:Hsc; try discriminate Hc;
    injection Hc as <- <- <-;
    [|repeat split; auto; try discriminate; intros _ [d Hd]; discriminate Hd].
  apply bind_inv in Hs as [([] & sb & evb & evb' & Hb & Hs & ->)|(e & Hb & _)];
    [|discriminate Hb].
  injection Hb as <- <-.
  apply bind_inv in Hs as [([] & sc & evc & evc' & Hb & Hs & ->)|(e & Hb & _)];
    [|discriminate Hb].
  injection Hb as <- <-. cbn [self world] in Hs.
  apply bind_inv in Hs as [([] & sw & evw & evw' & Hwr & Hs & ->)|(e & Hwr & ->)].
  - (* the writer is in place: the thread is created and started *)
    assert (Hsw : pkt_count (self sw) = pkt_count (self s) /\
                  byte_count (self sw) = byte_count (self s) /\
                  capture_id (self sw) = Some (fst d) /\
                  (mon_type (self s) = "pipe" ->
                   pe_mktemp (se_pipe env) <> EmptyString ->
                   match writer (self sw) with
                   | Some (WPipe p) =>
                       fifo_name p = Some (pe_mktemp (se_pipe env)) /\
                       forall fd, fifo p = Some fd -> fd ∈ fds (world sw)
                   | _ => False
                   end)).
    { revert Hwr. unfold stdout_init, on_self, modify, bind, emit, ret, raise.
      destruct (decide (mon_type (self s) = "compact")) as [Hc|Hc];
        [cbn; intros [= <- <-]; repeat split; intros Hp; congruence|].
      destruct (decide (mon_type (self s) = "verbose")) as [Hv|Hv];
        [cbn; intros [= <- <-]; repeat split; intros Hp; congruence|].
      destruct (decide (mon_type (self s) = "pipe")) as [Hp|Hp]; [|discriminate].
      match goal with |- context [new_pipe ?e ?t0 ?s0] =>
        destruct (new_pipe e t0 s0) as [[[p|e1] sp] evp] eqn:Hnp end; [|discriminate].
      apply new_pipe_spec in Hnp as (Hself & Hn & Hfd).
      cbn. intros [= <- <-]. cbn. rewrite Hself. cbn. repeat split; auto. }
    destruct Hsw as (Hpc & Hbc & Hcid & Hpipe).
    revert Hs. unfold call, on_self, modify, bind, emit, ret, raise. cbn.
    destruct (se_thread_start env) as [[]|e]; cbn; intros [= <- <- <-]; cbn;
      (split; [exact Hpc|]); (split; [exact Hbc|]);
      (split; [intros d0 [= <-]; exact Hcid|]); (split; [auto|]);
      intros Hp _ Hne; specialize (Hpipe Hp Hne);
      destruct (writer (self sw)) as [[|p]|]; try contradiction; auto;
      destruct e; auto; left; (split; [discriminate|auto]).
  - (* the writer could not be constructed *)
    revert Hwr. unfold stdout_init, on_self, modify, bind, emit, ret, raise.
    destruct (decide (mon_type (self s) = "compact")) as [Hc|Hc]; [discriminate|].
    destruct (decide (mon_type (self s) = "verbose")) as [Hv|Hv]; [discriminate|].
    destruct (decide (mon_type (self s) = "pipe")) as [Hp|Hp].
    + match goal with |- context [new_pipe ?e ?t0 ?s0] =>
        destruct (new_pipe e t0 s0) as [[[p|e1] sp] evp] eqn:Hnp end; [discriminate|].
      apply new_pipe_spec in Hnp as (Hself & Hgone).
      cbn. intros [= <- <- <-]. rewrite Hself. cbn. rewrite Hw.
      split; [reflexivity|]. split; [reflexivity|].
      split; [intros d0 [= <-]; reflexivity|]. split; [auto|].
      intros _ _ Hne.
      destruct e1 as [m| |m|cls m]; try contradiction; auto.
      destruct Hgone as (Hf & Hnd & Hmk). right.
      split; [reflexivity|]. split; [exact Hf|]. split.
      * intros [Hx|Hx]; [discriminate Hx|auto].
      * intros [Hx|Hx]; [discriminate Hx|auto].
    + cbn. intros [= <- <- <-]. cbn. repeat split; auto; try contradiction.
      intros d0 [= <-]. reflexivity.
Qed.


End StartFacts.

Section InitFacts.
Context `{Decoder}.

(** The constructor is [__start] on the fresh object, and [__stop] after it
    when [__start] raised an [Exception]. *)
Lemma init_inv (tx rx : list Z) (rate : Z) (type : string) (env : start_env)
  (renv : stop_env) (s s' : st) r ev :
  CaptureMonitor_init tx rx rate type env renv s = (r, s', ev) ->
  let s0 := monitor_entry tx rx rate type s in
  (r = Ok tt /\ __start env s0 = (Ok tt, s', ev)) \/
  (exists e, r = Raise e /\ is_Exception e = false /\ __start env s0 = (Raise e, s', ev)) \/
  (exists e0 s1 ev1 r2 ev2,
     __start env s0 = (Raise e0, s1, ev1) /\ is_Exception e0 = true /\
     __stop renv s1 = (r2, s', ev2) /\
     r = Raise (match r2 with Ok _ => e0 | Raise e2 => e2 end) /\
     ev = ev1 ++ ev2).
Proof.
  unfold CaptureMonitor_init. intros Hi.
  apply bind_inv in Hi as [([] & sa & eva & evb & Hset & Hi & ->)|(e & Hset & _)];
    [|discriminate Hset].
  unfold on_self, modify in Hset. injection Hset as <- <-. cbn [self world app] in *.
  apply try_except_inv in Hi
    as [([] & Hb & ->)|[(e0 & Hb & Hh & ->)|(e0 & s1 & ev1 & hm & ev2 & Hb & Hh & Hm & ->)]].
  - left. auto.
  - right. left. exists e0. destruct (is_Exception e0) eqn:He; [discriminate Hh|]. auto.
  - right. right. destruct (is_Exception e0) eqn:He; [|discriminate Hh].
    injection Hh as <-. unfold bind, raise in Hm.
    destruct (__stop renv s1) as [[[[]|e2] s2] ev3] eqn:Hst; injection Hm as <- <- <-.
    + exists e0, s1, ev1, (Ok tt), ev3. rewrite app_nil_r. auto.
    + exists e0, s1, ev1, (Raise e2), ev3. auto.
Qed.


(** A constructed monitor has a live worker that has not run yet. *)
Lemma init_ok_fresh (tx rx : list Z) (rate : Z) (type : string) (env : start_env)
  (renv : stop_env) (s s' : st) ev :
  CaptureMonitor_init tx rx rate type env renv s = (Ok tt, s', ev) ->
  t (self s') = Some Alive /\ pkt_count (self s') = None /\ byte_count (self s') = None.
Proof.
  intros Hi. apply init_inv in Hi as [[_ Hst]|[(e1 & Hr & _)|(e0 & s1 & ev1 & r2 & ev2 & _ & _ & _ & Hr & _)]];
    [|discriminate Hr|discriminate Hr].
  apply start_spec in Hst as (Hpc & Hbc & _ & Ht & _); [|reflexivity]. auto.
Qed.


(** C10, as amended. [get_mon_row] raises an AttributeError after a
    [stop] that found the worker alive (the handle is then [None]), and on a
    monitor just constructed whose worker has not run yet (the counters are
    not assigned); after the [stop] of a monitor whose worker had already
    ended, the handle is kept and [get_mon_row] answers a row of status
    DEAD with the counters the worker left. *)
Theorem get_mon_row_partial :
  (forall (env : stop_env) (s s' : st) r ev,
     stop env s = (r, s', ev) -> t (self s) = Some Alive ->
     get_mon_row (self s') =
       Raise (Exception "AttributeError" "'NoneType' object has no attribute 'is_alive'")) /\
  (forall tx rx rate type (env : start_env) (renv : stop_env) (s s' : st) ev,
     CaptureMonitor_init tx rx rate type env renv s = (Ok tt, s', ev) ->
     get_mon_row (self s') =
       Raise (Exception "AttributeError"
                "'CaptureMonitor' object has no attribute 'pkt_count'")) /\
  (forall (env : stop_env) (s s' : st) r ev pc bc,
     stop env s = (r, s', ev) -> t (self s) = Some Dead ->
     pkt_count (self s) = Some pc -> byte_count (self s) = Some bc ->
     get_mon_row (self s') =
       Ok {| row_id := None; row_status := "DEAD"; row_pkts := pc; row_bytes := bc;
             row_tx := ports_str (tx_port_list (self s'));
             row_rx := ports_str (rx_port_list (self s')) |}).
Proof.
  split; [|split].
  - intros env s s' r ev Hs Ht. apply stop_inv in Hs as (ev0 & tail & Hs & _).
    apply stop_spec in Hs as (_ & _ & Ht' & _). rewrite Ht in Ht'.
    unfold get_mon_row. rewrite Ht'. reflexivity.
  - intros tx rx rate type env renv s s' ev Hi. apply init_ok_fresh in Hi as (Ht & Hpc & _).
    unfold get_mon_row. rewrite Ht, Hpc. reflexivity.
  - intros env s s' r ev pc bc Hs Ht Hpc Hbc. apply stop_inv in Hs as (ev0 & tail & Hs & _).
    apply stop_spec in Hs as (_ & Hc & Ht' & _ & _ & _ & Hcnt & _).
    rewrite Ht in Ht'. destruct Hcnt as [Hpc' Hbc']; [congruence|].
    unfold get_mon_row. rewrite Ht', Hpc', Hbc', Hpc, Hbc, Hc. reflexivity.
Qed.

End InitFacts.

(** ** The manager *)





Section ManagerFacts.
Context `{Decoder}.

(** After [stop] the worker is not alive: a worker that was alive has been
    joined, and has gone through the loop test that reads the cleared flag. *)
Lemma stop_not_running (env : stop_env) (s s' : st) r ev :
  stop env s = (r, s', ev) -> orphan_alive (self s) = false -> running (self s') = false.
Proof.
  intros Hs Ho. apply stop_inv in Hs as (ev0 & tail & Hs & _).
  apply stop_spec in Hs as (_ & _ & Ht & _ & _ & _ & _ & _ & Ho' & _).
  unfold running, live, orphan_alive in *. rewrite Ht, Ho'.
  destruct (t (self s)) as [[]|]; cbn; auto.
Qed.








End ManagerFacts.

(** * More about the writers *)

(** ** The layer name *)

Lemma last_cons_default {A} (a d : A) (l : list A) : List.last (a :: l) d = List.last l a.
Proof.
  revert a d. induction l as [|b l IH]; intros a d; [reflexivity|].
  change (List.last (a :: b :: l) d) with (List.last (b :: l) d).
  rewrite (IH b d), (IH b a). reflexivity.
Qed.

Lemma layers_head (l : scapy_pkt) : layers l = layer_name l :: tl (layers l).
Proof. destruct l; reflexivity. Qed.

(** X1. [get_scapy_name] answers the name of the innermost layer that comes
    before the first Padding or Raw payload: the last name of the longest
    run of layers under the outermost one that are neither, or the name of
    the outermost layer when that run is empty. *)
Theorem get_scapy_name_innermost (l : scapy_pkt) :
  get_scapy_name l =
  List.last (take_while (fun n => negb (bool_decide (n ∈ ["Padding"; "Raw"]))) (tl (layers l)))
            (layer_name l).
Proof.
  induction l as [n|n p IH]; [reflexivity|].
  cbn [get_scapy_name layers tl layer_name].
  rewrite (layers_head p). cbn [take_while].
  destruct (bool_decide (layer_name p ∈ ["Padding"; "Raw"])); cbn [negb]; [reflexivity|].
  rewrite last_cons_default. exact IH.
Qed.

(** X2. The name [get_scapy_name] answers is the name of a layer of the
    packet, and it is Padding or Raw only when the packet's outermost layer
    is. *)
Theorem get_scapy_name_not_padding (l : scapy_pkt) :
  layer_name l ∉ ["Padding"; "Raw"] ->
  In (get_scapy_name l) (layers l) /\ get_scapy_name l ∉ ["Padding"; "Raw"].
Proof.
  induction l as [n|n p IH]; cbn [get_scapy_name layers layer_name]; intros Hn.
  - split; [left; reflexivity|exact Hn].
  - destruct (bool_decide (layer_name p ∈ ["Padding"; "Raw"])) eqn:Hp.
    + split; [left; reflexivity|exact Hn].
    + apply bool_decide_eq_false in Hp. destruct (IH Hp) as [Hin Hno].
      split; [right; exact Hin|exact Hno].
Qed.

(** ** [deinit] of the pipe writer *)

Ltac goal_decide :=
  repeat (match goal with
          | |- context [decide ?P] => destruct (decide P)
          end; cbn).

(** X3. [deinit] of the pipe writer never raises, and a second [deinit]
    finds nothing left to do: it closes nothing, unlinks nothing and
    leaves the writer and the world as the first one left them. *)
Theorem pipe_deinit_twice (s : pipe_st) :
  exists s1 ev1,
    pipe_deinit s = (Ok tt, s1, ev1) /\
    pipe_deinit s1 = (Ok tt, s1, [EvDeinit]).
Proof.
  destruct s as [[fo fn sts pc pl ii] [f d l]].
  pipe_unfold. cbn.
  destruct fo as [fd|], fn as [n|]; cbn; goal_decide;
    (do 2 eexists; split; [reflexivity|]); cbn; goal_decide;
    try reflexivity; exfalso; set_solver.
Qed.

(** X4. When the descriptor of the pipe cannot be closed, [deinit] stops
    there: the [OSError] is swallowed, the file of the pipe is not removed
    and the writer keeps its descriptor and its name. *)
Theorem pipe_deinit_close_failure (p : WriterPipe) (w : World) (fd : Z) :
  fifo p = Some fd -> fd <> 0 -> fd ∉ fds w ->
  pipe_deinit {| ps_self := p; ps_world := w |} =
  (Ok tt, {| ps_self := p; ps_world := w |}, [EvDeinit]).
Proof.
  destruct p as [fo fn sts pc pl ii], w as [f d l]. cbn [fifo fds].
  intros -> Hz Hfd. pipe_unfold. cbn.
  rewrite (decide_False (P := fd = 0)) by exact Hz. cbn.
  rewrite (decide_False (P := fd ∈ d)) by exact Hfd. reflexivity.
Qed.

(** ** The construction of the pipe writer *)

(** X5. When the path [tempfile.mktemp] answers is taken, the construction
    of the pipe writer fails on [mkfifo], and its cleanup removes the file
    that was there: the error reads "failed to create pipe None", as the
    name has been cleared by then. *)
Theorem pipe_init_unlinks_existing_path (env : pipe_env) (start_ts : Z) (s : pipe_st) :
  pe_mktemp env ∈ fs (ps_world s) -> pe_mktemp env <> EmptyString -> pe_mkfifo env = OsOk tt ->
  pipe_init env start_ts s =
  (Raise (STLError ("failed to create pipe None" +:+
                    String (Ascii.ascii_of_nat 10) "[Errno 17] File exists")),
   {| ps_self := {| fifo := None; fifo_name := None; pp_start_ts := start_ts;
                    pcap := false; poll := false; is_init := false |};
      ps_world := set_fs (fun f => f ∖ {[ pe_mktemp env ]}) (ps_world s) |},
   [EvLog "Starting pipe capture monitor"; EvDeinit; EvUnlink (pe_mktemp env); EvLog "ERR"]).
Proof.
  destruct env as [name mk op pc hd rg], s as [p [f d l]]. cbn [pe_mktemp pe_mkfifo ps_world fs].
  intros Hin Hne ->. unfold pipe_init, pipe_init_except. pipe_unfold. cbn.
  rewrite (decide_False (P := name = EmptyString)) by exact Hne. cbn.
  rewrite (decide_True (P := name ∈ f)) by exact Hin. cbn.
  rewrite (decide_False (P := name = EmptyString)) by exact Hne. cbn.
  rewrite (decide_True (P := name ∈ f)) by exact Hin. reflexivity.
Qed.

(** The [try] block of the constructor fails with the file in place exactly
    when [mkfifo] has been made. *)
Lemma pipe_init_try_raise (env : pipe_env) (p : WriterPipe) (w : World) e s1 ev :
  fifo p = None ->
  fifo_name p = Some (pe_mktemp env) ->
  pipe_init_try env {| ps_self := p; ps_world := w |} = (Raise e, s1, ev) ->
  (forall x, ~ In (EvUnlink x) ev) /\
  (forall fd, fifo (ps_self s1) = Some fd -> fd ∈ fds (ps_world s1)) /\
  fifo_name (ps_self s1) = Some (pe_mktemp env) /\
  (In (EvMkfifo (pe_mktemp env)) ev -> pe_mktemp env ∈ fs (ps_world s1) /\ pe_mktemp env <> EmptyString).
Proof.
  destruct env as [name mk op pc hd rg], p as [fo fn sts pcp pl ii], w as [f d l].
  cbn [fifo fifo_name pe_mktemp]. intros -> -> H.
  pipe_unfold. cbn in H.
  repeat pipe_step H; inversion H; subst; cbn;
    (split; [intros x Hx; cbn in Hx; intuition discriminate|]);
    (split; [intros fd' Hfd'; try discriminate; injection Hfd' as <-; set_solver|]);
    (split; [reflexivity|]);
    intros Hx; cbn in Hx; try (intuition discriminate); (split; [set_solver|assumption]).
Qed.

(** [deinit] of a writer whose descriptor is open and whose file exists
    clears the name, and unlinks the file. *)
Lemma pipe_deinit_clears (p : WriterPipe) (w : World) (n : string) :
  fifo_name p = Some n -> n <> EmptyString -> n ∈ fs w ->
  (forall fd, fifo p = Some fd -> fd ∈ fds w) ->
  exists s' ev,
    pipe_deinit {| ps_self := p; ps_world := w |} = (Ok tt, s', ev) /\
    fifo_name (ps_self s') = None /\ In (EvUnlink n) ev.
Proof.
  destruct p as [fo fn sts pc pl ii], w as [f d l]. cbn [fifo fifo_name fds fs].
  intros -> Hne Hin Hfd. pipe_unfold. cbn.
  destruct fo as [fd|]; cbn; goal_decide;
    try (do 2 eexists; split; [reflexivity|]; cbn; split; [reflexivity|]; auto 6; fail);
    exfalso; try (specialize (Hfd _ eq_refl)); try congruence; set_solver.
Qed.

(** X6. When the construction of a pipe writer fails after [mkfifo] has
    made the file, there are two cases.  A failure the constructor catches
    (an [OSError], an interrupt) reaches the caller as an [STLError] that is
    either the abort of an interrupt or reads "failed to create pipe None":
    the message is formatted after [deinit] has cleared the name.  Any other
    failure reaches the caller as it is: [deinit] has not run and the
    writer still has its name. *)
Theorem pipe_init_error_names_no_pipe (env : pipe_env) (start_ts : Z) (s s' : pipe_st)
  (e : exn) (ev : list event) :
  pipe_init env start_ts s = (Raise e, s', ev) ->
  In (EvMkfifo (pe_mktemp env)) ev ->
  (In EvDeinit ev /\ fifo_name (ps_self s') = None /\
   (e = STLError "*** pipe monitor aborted...cleaning up" \/
    exists m, e = STLError ("failed to create pipe None" +:+ String (Ascii.ascii_of_nat 10) m))) \/
  (~ In EvDeinit ev /\ fifo_name (ps_self s') = Some (pe_mktemp env) /\
   exists cls msg, e = Exception cls msg /\ pipe_env_fails env cls msg).
Proof.
  intros H Hmk. unfold pipe_init in H.
  apply bind_inv in H as [(a & s1 & ev1 & ev2 & Hset & H & ->)|(e0 & Hset & _)];
    [|discriminate Hset].
  unfold on_pipe, modify in Hset. injection Hset as <- <- <-. cbn [app] in Hmk |- *.
  apply try_except_inv in H
    as [(a' & _ & Hr)|[(e0 & Hb & Hh & Hr)|(e0 & s2 & ev3 & hm & ev4 & Hb & Hh & Hm & ->)]];
    [discriminate Hr| |].
  - right. injection Hr as ->.
    apply pipe_init_try_spec in Hb as (Hn & _ & _ & _ & [->|[[m ->]|(cls & m & -> & Hf)]] & Hnd & _);
      [discriminate Hh|discriminate Hh| |reflexivity|reflexivity].
    split; [exact Hnd|]. split; [exact Hn|]. eauto.
  - left. destruct s2 as [p2 w2].
    pose proof Hb as Hb'.
    apply pipe_init_try_spec in Hb' as (_ & _ & _ & _ & Hcls & _); [|reflexivity ..].
    apply pipe_init_try_raise in Hb as (Hnounl & Hfd & Hn & Hfile); [|reflexivity ..].
    cbn [ps_self ps_world] in *.
    assert (Hcls' : e0 = KeyboardInterrupt \/ exists m, e0 = OSError m).
    { destruct Hcls as [->|[[m ->]|(cls & m & -> & _)]]; [auto|eauto|discriminate Hh]. }
    clear Hcls.
    assert (Hmk3 : In (EvMkfifo (pe_mktemp env)) ev3).
    { apply in_app_or in Hmk as [Hx|Hx]; [exact Hx|]. exfalso.
      destruct (pipe_deinit_spec p2 w2) as (p3 & w3 & evd & Hd & _ & _ & Hnomk & _).
      destruct Hcls' as [->|[m ->]]; injection Hh as <-;
        unfold bind, emit, raise, gets in Hm; rewrite Hd in Hm; cbn in Hm;
        injection Hm as <- <- <-; rewrite ?app_nil_r in Hx;
        apply in_app_or in Hx as [Hx|[Hx|[]]];
        first [exact (Hnomk _ Hx)|discriminate Hx]. }
    destruct (Hfile Hmk3) as [Hin Hne].
    destruct (pipe_deinit_clears p2 w2 _ Hn Hne Hin Hfd) as (s3 & evd & Hd & Hcl & _).
    assert (Hdei : In EvDeinit evd).
    { destruct (pipe_deinit_spec p2 w2) as (p3 & w3 & evd' & Hd' & _ & Hin' & _).
      rewrite Hd in Hd'. injection Hd' as _ ->. exact Hin'. }
    destruct Hcls' as [->|[m ->]]; injection Hh as <-;
      unfold bind, emit, raise, gets in Hm; rewrite Hd in Hm; cbn in Hm;
      injection Hm as <- <- <-;
      (split; [rewrite !in_app_iff; auto|]); (split; [exact Hcl|]).
    + left. reflexivity.
    + right. exists m. rewrite Hcl. reflexivity.
Qed.

(** ** What a batch leaves on the screen and in the pipe *)

Section WriterTraces.
Context `{Decoder}.





Lemma pipe_loop_quiet {S} (p : WriterPipe) (pkts : list packet) (outs : list (option exn))
  (acc : Z) (s : S) :
  Forall (fun o => o = None) outs ->
  pipe_loop p pkts outs acc s =
  (match batch_bytes pkts with
   | Some n => Ok (acc + n)
   | None => Raise (Exception "binascii.Error" "Incorrect padding")
   end,
   s,
   map (written p) (decoded_prefix pkts)).
Proof.
  revert outs acc. induction pkts as [|pkt rest IH]; intros outs acc Hq.
  - cbn. unfold ret. rewrite Z.add_0_r. reflexivity.
  - cbn [pipe_loop batch_bytes decoded_prefix].
    destruct (b64decode (binary pkt)) as [bin|]; [|reflexivity].
    assert (Hhd : hd None outs = None) by (destruct Hq; [reflexivity|assumption]).
    assert (Htl : Forall (fun o => o = None) (tl outs)) by (destruct Hq; [constructor|assumption]).
    unfold bind, try_except. rewrite Hhd. unfold emit. cbn.
    rewrite (IH (tl outs) (acc + Z.of_nat (length bin)) Htl).
    destruct (batch_bytes rest); cbn; [|reflexivity].
    rewrite Z.add_assoc. reflexivity.
Qed.

(** X8. While the reader is attached and every write goes through, the
    pipe writer first probes the pipe and then writes one record for each
    packet before the first one that does not decode, in their order, each
    with its decoded bytes and the seconds and microseconds that
    [sec_split_usec] makes of the difference between its timestamp and the
    start of the capture. *)
Theorem pipe_handle_pkts_trace {S} (p : WriterPipe) (env : write_env) (pkts : list packet)
  (s : S) :
  we_poll env = [] ->
  Forall (fun o => o = None) (we_write env) ->
  pipe_handle_pkts p env pkts s =
  (match batch_bytes pkts with
   | Some n => Ok n
   | None => Raise (Exception "binascii.Error" "Incorrect padding")
   end,
   s,
   EvPoll 0 :: map (written p) (decoded_prefix pkts)).
Proof.
  intros Hpoll Hq.
  unfold pipe_handle_pkts, pipe_handle_pkts_internal, check_pipe, bind, emit. cbn.
  rewrite Hpoll. unfold ret. cbn.
  rewrite (pipe_loop_quiet p pkts (we_write env) 0 s Hq).
  destruct (batch_bytes pkts); reflexivity.
Qed.

End WriterTraces.

(** * More about the worker *)

Lemma sleep_ticks_exact (n : nat) (reads : list bool) (s : st) :
  exists k, (k <= n)%nat /\
    sleep_ticks n reads s = (Ok (Nat.eqb k n), s, repeat EvSleep k) /\
    (forall i, (i < k)%nat -> nth i reads true = true) /\
    ((k < n)%nat -> nth k reads true = false).
Proof.
  revert reads. induction n as [|n IH]; intros reads.
  - exists O. cbn. repeat split; auto; lia.
  - cbn [sleep_ticks]. destruct reads as [|[] rest]; cbn [hd tl].
    + destruct (IH []) as (k & Hk & Hs & Ht & Hf). exists (Datatypes.S k).
      unfold bind, emit. rewrite Hs. cbn. repeat split; try lia.
      * intros i _. destruct i; reflexivity.
      * intros Hlt. assert (Hlt' : (k < n)%nat) by lia. specialize (Hf Hlt').
        destruct k; discriminate Hf.
    + destruct (IH rest) as (k & Hk & Hs & Ht & Hf). exists (Datatypes.S k).
      unfold bind, emit. rewrite Hs. cbn. repeat split; try lia.
      * intros i Hi. destruct i; [reflexivity|]. cbn. apply Ht. lia.
      * intros Hlt. cbn. apply Hf. lia.
    + exists O. cbn. repeat split; auto; lia.
Qed.

(** X9. [__sleep] reads the flag before each of its five naps: it naps as
    often as it has read the flag set, at most five times, answers [True]
    exactly when it has napped five times, and gives up, without a further
    nap, at the first read that finds the flag cleared. *)
Theorem sleep_checks_flag_before_each_nap (reads : list bool) (s : st) :
  exists k, (k <= 5)%nat /\
    __sleep reads s = (Ok (Nat.eqb k 5), s, repeat EvSleep k) /\
    (forall i, (i < k)%nat -> nth i reads true = true) /\
    ((k < 5)%nat -> nth k reads true = false).
Proof. apply sleep_ticks_exact. Qed.

Lemma sleep_ticks_all (n : nat) (reads : list bool) (s : st) :
  forallb (fun x => x) (firstn n reads) = true ->
  sleep_ticks n reads s = (Ok true, s, repeat EvSleep n).
Proof.
  revert reads. induction n as [|n IH]; intros reads Hall; [reflexivity|].
  cbn [sleep_ticks]. destruct reads as [|b rest]; cbn [hd tl].
  - unfold bind, emit. rewrite (IH []); [reflexivity|]. destruct n; reflexivity.
  - cbn in Hall. apply andb_true_iff in Hall as [-> Hall].
    unfold bind, emit. rewrite (IH rest Hall). reflexivity.
Qed.

Lemma forallb_true (ev : list event) : forallb (fun _ => true) ev = true.
Proof. induction ev; auto. Qed.

Global Instance grows_refl : Reflexive grows.
Proof. intros s pc bc Hc. exact Hc. Qed.

Global Instance grows_trans : Transitive grows.
Proof. intros a b c Hab Hbc pc bc Hc. auto. Qed.

Lemma grows_same (s s' : st) : self s' = self s -> grows s s'.
Proof. intros Hs pc bc Hc. rewrite Hs. exact Hc. Qed.

Lemma grows_t (s : st) th w : grows s {| self := set_t th (self s); world := w |}.
Proof. intros pc bc Hc. exact Hc. Qed.

Section WorkerMore.
Context `{Decoder}.

(** X10. A pass of the loop that does not go on to the next one (it ends
    the loop, or fails) leaves the monitor object as it was: the packets
    of a batch the writer has failed on are not counted, not even those
    already written. *)
Theorem failed_pass_counts_nothing (c : cycle) (s s' : st) (r : result loop_ctl)
  (ev : list event) (pc bc : Z) :
  cycle_body c s = (r, s', ev) ->
  pkt_count (self s) = Some pc -> byte_count (self s) = Some bc ->
  r <> Ok Continue ->
  self s' = self s.
Proof.
  intros Hc Hpc Hbc Hr. apply cycle_body_path in Hc.
  inversion Hc; subst; try reflexivity; try (exfalso; apply Hr; reflexivity).
  match goal with Ha : add_counters _ _ _ = _ |- _ =>
    apply add_counters_inv in Ha as (_ & _ & _ & Ha) end.
  cbn [unlocked self] in *. rewrite Hpc, Hbc in *.
  match goal with Ha : _ = Ok tt /\ _ |- _ => destruct Ha as (-> & _) end.
  exfalso. apply Hr. reflexivity.
Qed.

Lemma cycle_body_grows (c : cycle) :
  keeps grows (fun _ => true) (fun _ => True) (cycle_body c).
Proof.
  intros s r s' ev Hc. split; [|split; [apply forallb_true|auto]].
  apply cycle_body_path in Hc.
  inversion Hc; subst; try reflexivity; try (apply grows_same; reflexivity).
  match goal with Ha : add_counters _ _ _ = _ |- _ =>
    apply add_counters_inv in Ha as (_ & _ & _ & Ha) end.
  match goal with Hh : handle_result _ _ _ = Ok _ |- _ =>
    apply handle_result_nonneg in Hh end.
  intros pc0 bc0 (pc' & bc' & Hpc & Hbc & Hle1 & Hle2).
  cbn [unlocked self] in *. rewrite Hpc, Hbc in *.
  match goal with Ha : _ = Ok tt /\ _ |- _ => destruct Ha as (_ & Hp & Hb) end.
  eexists _, _. split; [exact Hp|]. split; [exact Hb|]. lia.
Qed.

Lemma main_loop_grows (script : list cycle) :
  keeps grows (fun _ => true) (fun _ => True) (main_loop script).
Proof.
  induction script as [|c rest IH]; cbn [main_loop]; [apply keeps_ret; auto|].
  destruct (c_active c); [|apply keeps_ret; auto].
  kbind as ctl; [apply cycle_body_grows|]. destruct ctl; [apply IH|apply keeps_ret; auto].
Qed.

Lemma thread_cb_handler_grows (e : exn) hm :
  thread_cb_handler e = Some hm -> keeps grows (fun _ => true) (fun _ => True) hm.
Proof.
  destruct e; cbn; intros [= <-];
    repeat (kbind; [apply keeps_emit; auto|]); apply keeps_ret; auto.
Qed.

(** X11. Whatever the worker meets (errors of the server, of the writer, of
    the decoder or of scapy, a stop), counters that are assigned stay
    assigned and never go down. *)
Theorem counters_never_decrease (script : list cycle) (s s' : st) (pc bc : Z)
  (r : result unit) (ev : list event) :
  pkt_count (self s) = Some pc -> byte_count (self s) = Some bc ->
  run_worker script s = (r, s', ev) ->
  counters_from pc bc (self s').
Proof.
  intros Hpc Hbc.
  assert (H0 : counters_from pc bc (self s)) by (exists pc, bc; repeat split; auto; lia).
  unfold run_worker, bind, gets. cbn. rewrite Hpc.
  destruct (t (self s)) as [[]|]; cbn; try (intros [= <- <- <-]; exact H0).
  destruct script as [|c rest]; [intros [= <- <- <-]; exact H0|].
  destruct (try_except (main_loop (c :: rest)) thread_cb_handler s) as [[rb s1] ev1] eqn:Hm.
  assert (Hg : grows s s1).
  { eapply (keeps_try_except grows (fun _ => true) (fun _ => True)); [| |exact Hm].
    - apply main_loop_grows.
    - apply thread_cb_handler_grows. }
  destruct rb as [[]|e]; intros [= <- <- <-]; cbn; apply Hg, H0.
Qed.

(** X12. When the reader of the pipe has gone, the next pass of a live
    worker ends the worker at the writer's periodic check: it reports
    'pipe has been disconnected' with the notice that the monitor is
    inactive, redraws the prompt, never asks for the command lock, fetches
    nothing, and leaves the counters, the writer and the capture id for the
    console to read. *)
Theorem pipe_hangup_stops_worker (c : cycle) (rest : list cycle) (s : st) (p : WriterPipe)
  (pc : Z) :
  t (self s) = Some Alive -> writer (self s) = Some (WPipe p) ->
  pkt_count (self s) = Some pc ->
  c_active c = true -> c_check_poll c <> [] ->
  forallb (fun x => x) (firstn 5 (c_sleep c)) = true ->
  run_worker (c :: rest) s =
  (Ok tt, {| self := set_t (Some Dead) (self s); world := world s |},
   repeat EvSleep 5 ++
   [EvPeriodicCheck; EvPoll 0;
    EvLog "Monitor has encountered the following error: 'pipe has been disconnected'";
    EvLog "*** monitor is inactive - please restart the monitor ***";
    EvPromptRedraw]).
Proof.
  intros Ht Hw Hpc Hact Hpoll Hsl.
  unfold run_worker, bind, gets. cbn [fst snd]. cbv beta iota. rewrite Ht, Hpc.
  unfold try_except. cbn [main_loop]. rewrite Hact.
  unfold cycle_body, __sleep, bind. rewrite (sleep_ticks_all 5 _ s Hsl). cbn [negb].
  unfold attr, bind, gets, ret. cbn [fst snd]. cbv beta iota. rewrite Hw. cbv beta iota.
  unfold periodic_check, pipe_periodic_check, check_pipe, bind, emit, raise.
  destruct (c_check_poll c) as [|x l]; [congruence|]. reflexivity.
Qed.

(** X13. The target of the worker thread lets no [Exception] out: its two
    [except] clauses report an [STLError] and any other [Exception], and the
    thread ends; only what is not an [Exception] goes through.  The worker
    leaves to the command thread what is its own: the writer, the capture
    id, the flag, the ports, the files and the descriptors are as before;
    of the calls to the server it makes only the connectivity check and
    the fetch; its handle changes only from alive to dead; and a thread
    that is not alive does nothing at all. *)
Theorem worker_touches_only_counters (script : list cycle) (s : st) :
  exists r s' ev,
    run_worker script s = (r, s', ev) /\
    (r = Ok tt \/ r = Raise KeyboardInterrupt /\ t (self s') = Some Dead) /\
    writer (self s') = writer (self s) /\
    capture_id (self s') = capture_id (self s) /\
    active (self s') = active (self s) /\
    tx_port_list (self s') = tx_port_list (self s) /\
    rx_port_list (self s') = rx_port_list (self s) /\
    fs (world s') = fs (world s) /\
    fds (world s') = fds (world s) /\
    (forall e, In e ev -> is_server_call e = true -> rpc_event e = true) /\
    (t (self s') = t (self s) \/ t (self s) = Some Alive /\ t (self s') = Some Dead) /\
    (t (self s) <> Some Alive -> r = Ok tt /\ s' = s /\ ev = []).
Proof.
  destruct (run_worker_spec script s) as (r & s' & ev & Hr & Hev & Hf & Ht & Hexn & _).
  exists r, s', ev. split; [exact Hr|].
  assert (Hidle : t (self s) <> Some Alive -> r = Ok tt /\ s' = s /\ ev = []).
  { intros Hna. revert Hr. unfold run_worker, bind, gets. cbn.
    destruct (t (self s)) as [[]|]; try congruence; intros [= <- <- <-]; auto. }
  assert (Hdead : forall e, r = Raise e -> t (self s') = Some Dead).
  { intros e ->. revert Hr. unfold run_worker, bind, gets. cbn.
    destruct (t (self s)) as [[]|]; try discriminate.
    destruct script as [|c rest]; [discriminate|].
    set (body := match pkt_count (self s) with
                 | Some _ => try_except (main_loop (c :: rest)) thread_cb_handler
                 | None => __thread_cb (c :: rest)
                 end).
    destruct (body s) as [[[[]|e0] s1] ev1]; try discriminate.
    intros [= ? ? ?]; subst; reflexivity. }
  split.
  { destruct r as [[]|e]; [left; reflexivity|right].
    pose proof (Hexn e eq_refl) as He. destruct e; try discriminate He.
    split; [reflexivity|]. eapply Hdead. reflexivity. }
  destruct Hf. cbn in *.
  repeat (split; [assumption|]).
  split.
  { intros e Hin Hs. rewrite forallb_forall in Hev. specialize (Hev e Hin).
    destruct e; cbn in *; auto; discriminate. }
  split; [|exact Hidle].
  destruct Ht as [Ht|Ht]; [left; exact Ht|].
  destruct (t (self s)) as [[]|] eqn:Hts;
    try (left; destruct Hidle as (_ & -> & _); [congruence|exact Hts]).
  right. auto.
Qed.

End WorkerMore.

(** * More about stopping a monitor *)

Lemma set_capture_id_same (m : CaptureMonitor) :
  capture_id m = None -> set_capture_id None m = m.
Proof. destruct m; cbn; intros ->; reflexivity. Qed.

Lemma pipe_deinit_events (p : WriterPipe) (w : World) :
  exists rest, snd (pipe_deinit {| ps_self := p; ps_world := w |}) = EvDeinit :: rest /\
               forallb os_release_event rest = true.
Proof.
  destruct p as [fo fn sts pc pl ii], w as [f d l].
  pipe_unfold. cbn.
  destruct fo as [fd|], fn as [n|]; cbn; goal_decide; eexists; split; reflexivity.
Qed.

Section StopMore.
Context `{Decoder}.

Lemma stop_thread_events (pending : list cycle) (s s1 : st) r ev1 :
  stop_thread pending s = (r, s1, ev1) ->
  (t (self s) <> Some Alive /\ ev1 = []) \/
  (t (self s) = Some Alive /\
   exists evw, ev1 = EvThreadJoin :: evw /\ forallb worker_event evw = true).
Proof.
  unfold stop_thread, join, on_self, modify, emit, bind, gets. cbv beta iota.
  destruct (t (self s)) as [[]|] eqn:Ht;
    try (intros [= <- <- <-]; left; split; [congruence|reflexivity]).
  match goal with
  | |- context [run_worker ?sc ?s0] =>
      destruct (run_worker_spec sc s0) as (r2 & s2 & ev & Hr & Hev & _); rewrite Hr
  end.
  cbn. intros [= <- <- <-]. right. split; [reflexivity|].
  exists ev. rewrite app_nil_r. auto.
Qed.

Lemma stop_writer_events (s s2 : st) r ev2 :
  stop_writer s = (r, s2, ev2) ->
  match writer (self s) with
  | None => ev2 = []
  | Some _ => exists rest, ev2 = EvDeinit :: rest /\ forallb os_release_event rest = true
  end.
Proof.
  unfold stop_writer, bind, gets. cbn.
  destruct (writer (self s)) as [[so|p]|] eqn:Hw; cbn.
  - intros [= <- <- <-]. exists []. auto.
  - unfold zoom. destruct (pipe_deinit_events p (world s)) as (rest & Hev & Hrest).
    destruct (pipe_deinit {| ps_self := p; ps_world := world s |}) as [[[[]|e] ps] evd];
      cbn in Hev |- *; subst evd; intros [= <- <- <-]; exists rest;
      rewrite ?app_nil_r; auto.
  - intros [= <- <- <-]. reflexivity.
Qed.

Lemma stop_remote_events (env : stop_env) (s s3 : st) r ev3 :
  stop_remote env s = (r, s3, ev3) ->
  forallb stop_remote_event ev3 = true /\
  (st_connected env = Ok false -> r = Ok tt /\ ev3 = [EvIsConnected]) /\
  (capture_id (self s) = None -> forallb probe_event ev3 = true) /\
  (forall e, r = Raise e ->
     st_connected env = Raise e \/
     st_connected env = Ok true /\
     (st_status env = Raise e \/
      exists ids id, st_status env = Ok ids /\ capture_id (self s) = Some id /\ id ∈ ids /\
                     st_stop_capture env = Raise e)).
Proof.
  unfold stop_remote, call, on_self, modify, bind, gets, emit, ret, raise. cbn.
  destruct (st_connected env) as [[]|e] eqn:Hc; cbn.
  - destruct (st_status env) as [ids|e] eqn:Hs; cbn.
    + destruct (capture_id (self s)) as [id|] eqn:Hid; cbn.
      * destruct (decide (id ∈ ids)) as [Hin|Hnin]; cbn.
        -- destruct (st_stop_capture env) eqn:Hsc; cbn; intros [= <- <- <-];
             (split; [reflexivity|]); (split; [discriminate|]); (split; [discriminate|]);
             intros e0 [= <-]. right. split; [reflexivity|]. right. eauto 8.
        -- intros [= <- <- <-]. repeat split; try discriminate.
      * intros [= <- <- <-]. repeat split; try discriminate.
    + intros [= <- <- <-]. repeat split; try discriminate.
      intros e0 [= <-]. right. auto.
  - intros [= <- <- <-]. repeat split; try discriminate.
  - intros [= <- <- <-]. repeat split; try discriminate.
    intros e0 [= <-]. left. reflexivity.
Qed.

(** [__stop] in its three parts: the first two never raise. *)
Lemma stop_parts (env : stop_env) (s s' : st) r ev :
  __stop env s = (r, s', ev) ->
  exists s1 ev1 s2 ev2 ev3,
    stop_thread (st_pending env) s = (Ok tt, s1, ev1) /\
    stop_writer s1 = (Ok tt, s2, ev2) /\
    stop_remote env s2 = (r, s', ev3) /\
    ev = ev1 ++ ev2 ++ ev3.
Proof.
  destruct (stop_thread_spec (st_pending env) s) as (s1 & ev1 & H1 & _).
  destruct (stop_writer_spec s1) as (s2 & ev2 & H2 & _).
  unfold __stop, bind. rewrite H1, H2.
  destruct (stop_remote env s2) as [[r3 s3] ev3] eqn:H3.
  intros [= <- <- <-]. exists s1, ev1, s2, ev2, ev3. auto.
Qed.

(** The public [stop] around [__stop]. *)
Lemma stop_tail (env : stop_env) (s s' : st) r ev :
  stop env s = (r, s', ev) ->
  exists ev0 tail,
    __stop env s = (r, s', ev0) /\ ev = EvLog "Stopping capture monitor" :: ev0 ++ tail /\
    forallb (fun e => match e with EvLog _ => true | _ => false end) tail = true /\
    (r = Ok tt -> tail = [EvLog "OK"]) /\
    (forall e, r = Raise e -> is_Exception e = true -> tail = [EvLog "ERR"]).
Proof.
  unfold stop, bind, try_except, emit, raise. cbn.
  destruct (__stop env s) as [[[[]|e] s1] ev0]; cbn.
  - intros [= <- <- <-]. exists ev0, [EvLog "OK"]. rewrite ?app_nil_r.
    repeat split; auto. discriminate.
  - destruct (is_Exception e) eqn:He; cbn; intros [= <- <- <-].
    + exists ev0, [EvLog "ERR"]. rewrite ?app_nil_r. repeat split; auto. discriminate.
    + exists ev0, []. rewrite ?app_nil_r. repeat split; auto; try discriminate.
      intros e0 [= <-]. congruence.
Qed.

(** X14. A [stop] of a monitor that has been stopped finds nothing to do:
    it leaves the monitor and the world as they are, joins no thread,
    releases no writer, and only logs, checks the connection and, when
    connected, reads the list of captures; this holds whether the first
    [stop] returned or failed. *)
Theorem stop_twice (env1 env2 : stop_env) (s s1 s2 : st) (r1 r2 : result unit)
  (ev1 ev2 : list event) :
  stop env1 s = (r1, s1, ev1) ->
  stop env2 s1 = (r2, s2, ev2) ->
  s2 = s1 /\ forallb probe_event ev2 = true.
Proof.
  intros H1 H2.
  apply stop_inv in H1 as (ev0 & tail & H1 & _ & _).
  apply stop_spec in H1 as (Hw & Hc & Ht & _).
  assert (Hna : t (self s1) <> Some Alive).
  { rewrite Ht. destruct (t (self s)) as [[]|]; discriminate. }
  apply stop_tail in H2 as (ev0' & tail' & H2 & -> & Htail & _).
  apply stop_parts in H2 as (sa & eva & sb & evb & evc & Ha & Hb & Hcc & ->).
  destruct (stop_thread_spec (st_pending env2) s1)
    as (sa' & eva' & Ha' & _ & _ & _ & _ & _ & _ & Hid & _).
  rewrite Ha in Ha'. injection Ha' as <- <-. destruct (Hid Hna) as [-> ->].
  destruct (stop_writer_spec s1) as (sb' & evb' & Hb' & _ & _ & _ & _ & _ & _ & Hidw & _).
  rewrite Hb in Hb'. injection Hb' as <- <-. destruct (Hidw Hw) as [-> ->].
  pose proof (stop_remote_spec _ _ _ _ _ Hcc) as (-> & _).
  apply stop_remote_events in Hcc as (_ & _ & Hprobe & _).
  split.
  - rewrite (set_capture_id_same _ Hc). destruct s1; reflexivity.
  - cbn [app forallb probe_event andb]. rewrite forallb_app, (Hprobe Hc). cbn.
    eapply forallb_impl; [|exact Htail]. intros e; destruct e; auto.
Qed.

(** X15. A console that has lost its connection can still stop its
    monitor: [stop] returns, with the worker joined and through (its thread
    is not alive any more, whether or not the monitor still refers to it),
    the writer released and the capture id forgotten, after the
    connectivity check alone; it neither reads the list of captures nor
    asks the server to stop one. *)
Theorem stop_when_disconnected (env : stop_env) (s : st) :
  st_connected env = Ok false ->
  orphan_alive (self s) = false ->
  exists s' ev,
    stop env s = (Ok tt, s', ev) /\
    running (self s') = false /\ writer (self s') = None /\ capture_id (self s') = None /\
    ~ In EvGetCaptureStatus ev /\
    count is_stop_capture ev = O.
Proof.
  intros Hconn Horph.
  destruct (stop env s) as [[r s'] ev] eqn:Hs. exists s', ev.
  pose proof (stop_not_running _ _ _ _ _ Hs Horph) as Hlive.
  apply stop_tail in Hs as (ev0 & tail & Hs & -> & Htail & Hok & _).
  pose proof (stop_spec _ _ _ _ _ Hs) as (Hw & Hc & _).
  apply stop_parts in Hs as (s1 & ev1 & s2 & ev2 & ev3 & H1 & H2 & H3 & ->).
  apply stop_remote_events in H3 as (_ & Hoff & _). destruct (Hoff Hconn) as [-> ->].
  rewrite (Hok eq_refl).
  split; [reflexivity|]. repeat (split; [assumption|]).
  assert (Hloc : forallb stop_local_event (ev1 ++ ev2) = true).
  { rewrite forallb_app. apply andb_true_iff. split.
    - apply stop_thread_events in H1 as [[_ ->]|(_ & evw & -> & Hevw)]; [reflexivity|].
      cbn. eapply forallb_impl; [|exact Hevw]. intros e; destruct e; auto.
    - apply stop_writer_events in H2. destruct (writer (self s1)); [|subst; reflexivity].
      destruct H2 as (rest & -> & Hrest). cbn.
      eapply forallb_impl; [|exact Hrest]. intros e; destruct e; auto; discriminate. }
  split.
  - cbn [app]. intros [Hx|Hin]; [discriminate Hx|].
    rewrite !in_app_iff in Hin. rewrite forallb_app in Hloc.
    apply andb_true_iff in Hloc as [Hl1 Hl2]. rewrite forallb_forall in Hl1, Hl2.
    destruct Hin as [[Hin|[Hin|[Hx|[]]]]|[Hx|[]]]; try discriminate Hx.
    + specialize (Hl1 _ Hin). discriminate Hl1.
    + specialize (Hl2 _ Hin). discriminate Hl2.
  - assert (Hcnt : count is_stop_capture (ev1 ++ ev2) = O).
    { apply (count_none is_stop_capture stop_local_event); [|exact Hloc].
      intros e; destruct e; cbn; auto; discriminate. }
    cbn [count is_stop_capture].
    replace (ev1 ++ ev2 ++ [EvIsConnected]) with ((ev1 ++ ev2) ++ [EvIsConnected])
      by (rewrite <- app_assoc; reflexivity).
    do 2 rewrite count_app. rewrite Hcnt. reflexivity.
Qed.

(** X16. [stop] fails only when the client raises in the connectivity
    check, in the status request or in the stop request, and with that
    very exception; the local cleanup has been done by then (the thread of
    the worker is not alive any more, there is no writer and no capture
    id), and an [Exception] is logged as ERR before it is raised again. *)
Theorem stop_fails_only_on_server_errors (env : stop_env) (s s' : st) (e : exn)
  (ev : list event) :
  stop env s = (Raise e, s', ev) ->
  orphan_alive (self s) = false ->
  (st_connected env = Raise e \/
   st_connected env = Ok true /\
   (st_status env = Raise e \/
    exists ids id, st_status env = Ok ids /\ capture_id (self s) = Some id /\ id ∈ ids /\
                   st_stop_capture env = Raise e)) /\
  running (self s') = false /\ writer (self s') = None /\ capture_id (self s') = None /\
  (is_Exception e = true -> exists ev0, ev = ev0 ++ [EvLog "ERR"]).
Proof.
  intros Hs Horph.
  pose proof (stop_not_running _ _ _ _ _ Hs Horph) as Hlive.
  apply stop_tail in Hs as (ev0 & tail & Hs & -> & _ & _ & Herr).
  pose proof (stop_spec _ _ _ _ _ Hs) as (Hw & Hc & _).
  apply stop_parts in Hs as (s1 & ev1 & s2 & ev2 & ev3 & H1 & H2 & H3 & ->).
  destruct (stop_thread_spec (st_pending env) s) as (s1' & ev1' & H1' & _ & _ & Hc1 & _).
  rewrite H1 in H1'. injection H1' as <- <-.
  destruct (stop_writer_spec s1) as (s2' & ev2' & H2' & _ & _ & Hc2 & _).
  rewrite H2 in H2'. injection H2' as <- <-.
  apply stop_remote_events in H3 as (_ & _ & _ & Hfail).
  specialize (Hfail e eq_refl). rewrite Hc2, Hc1 in Hfail.
  split; [exact Hfail|]. repeat (split; [assumption|]).
  intros He. rewrite (Herr e eq_refl He).
  exists (EvLog "Stopping capture monitor" :: ev1 ++ ev2 ++ ev3). reflexivity.
Qed.

(** X17. [stop] releases the writer exactly once, and only after the
    worker has been joined: the one [deinit] comes after the join of a live
    worker, and after it no thread is joined and the writer is not used
    again (no check, no batch, no write). *)
Theorem stop_releases_writer_after_join (env : stop_env) (s s' : st) (r : result unit)
  (ev : list event) (wr : CaptureMonitorWriter) :
  writer (self s) = Some wr ->
  stop env s = (r, s', ev) ->
  exists a b,
    ev = a ++ EvDeinit :: b /\
    count is_deinit a = O /\ count is_deinit b = O /\
    count is_join a = (if live (self s) then 1 else 0)%nat /\ count is_join b = O /\
    count writer_event b = O.
Proof.
  intros Hwr Hs.
  apply stop_tail in Hs as (ev0 & tail & Hs & -> & Htail & _).
  apply stop_parts in Hs as (s1 & ev1 & s2 & ev2 & ev3 & H1 & H2 & H3 & ->).
  destruct (stop_thread_spec (st_pending env) s) as (s1' & ev1' & H1' & _ & Hw1 & _).
  rewrite H1 in H1'. injection H1' as <- <-.
  apply stop_writer_events in H2. rewrite Hw1, Hwr in H2. destruct H2 as (rest & -> & Hrest).
  apply stop_remote_events in H3 as (Hrem & _).
  exists (EvLog "Stopping capture monitor" :: ev1), (rest ++ ev3 ++ tail).
  split; [rewrite <- !app_assoc; reflexivity|].
  assert (Hb : forallb (fun e => os_release_event e || stop_remote_event e ||
                                 match e with EvLog _ => true | _ => false end)
                 (rest ++ ev3 ++ tail) = true).
  { rewrite !forallb_app, !andb_true_iff. repeat split.
    - eapply forallb_impl; [|exact Hrest]. intros e ->. reflexivity.
    - eapply forallb_impl; [|exact Hrem]. intros e ->. rewrite orb_true_r. reflexivity.
    - eapply forallb_impl; [|exact Htail]. intros e ->. rewrite !orb_true_r. reflexivity. }
  assert (Hno : forall p : event -> bool,
             (forall e, p e = true -> os_release_event e = false /\
                        stop_remote_event e = false /\
                        match e with EvLog _ => false | _ => true end = true) ->
             count p (rest ++ ev3 ++ tail) = O).
  { intros p Hp. eapply count_none; [|exact Hb]. intros e He.
    destruct (p e) eqn:Hpe; [|reflexivity]. destruct (Hp e Hpe) as (Ha & Hb' & Hc).
    cbv beta in He. rewrite Ha, Hb' in He. destruct e; cbn in *; congruence. }
  apply stop_thread_events in H1 as [[Hna ->]|(Ht & evw & -> & Hevw)].
  - split; [reflexivity|].
    split; [apply Hno; intros e; destruct e; cbn; auto; discriminate|].
    split; [unfold live; destruct (t (self s)) as [[]|]; cbn; congruence|].
    split; apply Hno; intros e; destruct e; cbn; auto; discriminate.
  - split.
    { cbn. apply (count_none is_deinit worker_event); [|exact Hevw].
      intros e; destruct e; cbn; auto; discriminate. }
    split; [apply Hno; intros e; destruct e; cbn; auto; discriminate|].
    split.
    { unfold live. rewrite Ht. cbn. f_equal.
      apply (count_none is_join worker_event); [|exact Hevw].
      intros e; destruct e; cbn; auto; discriminate. }
    split; apply Hno; intros e; destruct e; cbn; auto; discriminate.
Qed.

(** The events of a [stop]. *)
Lemma stop_events (env : stop_env) (s s' : st) r ev :
  stop env s = (r, s', ev) ->
  forallb (fun e => stop_local_event e || stop_remote_event e) ev = true.
Proof.
  intros Hs.
  apply stop_tail in Hs as (ev0 & tail & Hs & -> & Htail & _).
  apply stop_parts in Hs as (s1 & ev1 & s2 & ev2 & ev3 & H1 & H2 & H3 & ->).
  apply stop_remote_events in H3 as (Hrem & _).
  cbn [forallb stop_local_event worker_event orb andb].
  rewrite !forallb_app, !andb_true_iff. repeat split.
  - apply stop_thread_events in H1 as [[_ ->]|(_ & evw & -> & Hevw)]; [reflexivity|].
    cbn. eapply forallb_impl; [|exact Hevw]. intros e He.
    destruct e; cbn in *; auto.
  - apply stop_writer_events in H2. destruct (writer (self s1)); [|subst; reflexivity].
    destruct H2 as (rest & -> & Hrest). cbn.
    eapply forallb_impl; [|exact Hrest]. intros e; destruct e; auto; discriminate.
  - eapply forallb_impl; [|exact Hrem]. intros e ->. apply orb_true_r.
  - eapply forallb_impl; [|exact Htail]. intros e; destruct e; auto; discriminate.
Qed.

(** When the server answers, [__stop] returns. *)
Lemma stop_answering (env : stop_env) (s s' : st) r ev :
  answering env -> __stop env s = (r, s', ev) -> r = Ok tt.
Proof.
  intros (Hc & Hs & Hsc) Hst.
  apply stop_parts in Hst as (s1 & ev1 & s2 & ev2 & ev3 & _ & _ & H3 & _).
  apply stop_remote_events in H3 as (_ & _ & _ & Hfail).
  destruct r as [[]|e]; [reflexivity|]. exfalso.
  destruct (Hfail e eq_refl) as [Hx|(_ & [Hx|(ids & id & _ & _ & _ & Hx)])].
  - exact (Hc e Hx).
  - exact (Hs e Hx).
  - exact (Hsc e Hx).
Qed.

End StopMore.

(** * More about starting a monitor *)

(** The [try] block of the pipe writer's constructor, when it goes through. *)
Lemma pipe_init_try_ok (env : pipe_env) (p : WriterPipe) (w : World) s1 ev :
  fifo p = None ->
  fifo_name p = Some (pe_mktemp env) ->
  pipe_init_try env {| ps_self := p; ps_world := w |} = (Ok tt, s1, ev) ->
  exists fd fd',
    pe_open env = OsOk fd /\ pe_pcap env = OsOk fd' /\
    (pe_mktemp env ∉ fs w) /\ pe_mktemp env <> EmptyString /\
    s1 = {| ps_self := {| fifo := Some fd; fifo_name := Some (pe_mktemp env);
                          pp_start_ts := pp_start_ts p; pcap := true; poll := true;
                          is_init := true |};
            ps_world := {| fs := {[ pe_mktemp env ]} ∪ fs w;
                           fds := {[ fd' ]} ∪ ({[ fd ]} ∪ fds w);
                           lock_held := lock_held w |} |}.
Proof.
  destruct env as [name mk op pc hd rg], p as [fo fn sts pcp pl ii], w as [f d l].
  cbn [fifo fifo_name pe_mktemp pe_open pe_pcap fs fds lock_held pp_start_ts]. intros -> -> H.
  pipe_unfold. cbn in H.
  repeat pipe_step H; inversion H; subst; cbn.
  eexists _, _. split; [reflexivity|]. split; [reflexivity|].
  split; [assumption|]. split; [assumption|]. reflexivity.
Qed.

Lemma pipe_init_ok (env : pipe_env) (start_ts : Z) (s s' : pipe_st) (ev : list event) :
  pipe_init env start_ts s = (Ok tt, s', ev) ->
  exists fd fd',
    pe_open env = OsOk fd /\ pe_pcap env = OsOk fd' /\
    (pe_mktemp env ∉ fs (ps_world s)) /\ pe_mktemp env <> EmptyString /\
    s' = {| ps_self := {| fifo := Some fd; fifo_name := Some (pe_mktemp env);
                          pp_start_ts := start_ts; pcap := true; poll := true;
                          is_init := true |};
            ps_world := {| fs := {[ pe_mktemp env ]} ∪ fs (ps_world s);
                           fds := {[ fd' ]} ∪ ({[ fd ]} ∪ fds (ps_world s));
                           lock_held := lock_held (ps_world s) |} |}.
Proof.
  intros H. unfold pipe_init in H.
  apply bind_inv in H as [(a & s1 & ev1 & ev2 & Hset & H & ->)|(e0 & Hset & _)];
    [|discriminate Hset].
  unfold on_pipe, modify in Hset. injection Hset as <- <- <-.
  apply try_except_inv in H
    as [(a' & Hb & Ha)|[(e0 & _ & _ & Hr)|(e0 & s2 & ev3 & hm & ev4 & Hb & Hh & Hm & _)]];
    [|discriminate Hr|].
  - injection Ha as <-.
    apply pipe_init_try_ok in Hb as (fd & fd' & Ho & Hp & Hn & Hne & ->); [|reflexivity ..].
    exists fd, fd'. auto.
  - exfalso. destruct s2 as [p2 w2].
    apply pipe_init_try_spec in Hb as (_ & _ & _ & _ & Hcls & _); [|reflexivity ..].
    destruct (pipe_deinit_spec p2 w2) as (p3 & w3 & evd & Hd & _).
    destruct Hcls as [->|[[m ->]|(cls & m & -> & _)]]; [| |discriminate Hh];
      injection Hh as <-;
      unfold bind, emit, raise, gets in Hm; rewrite Hd in Hm; cbn in Hm; discriminate Hm.
Qed.

Lemma new_pipe_ok (env : pipe_env) (start_ts : Z) (s s1 : st) (p : WriterPipe) ev :
  new_pipe env start_ts s = (Ok p, s1, ev) ->
  exists fd fd',
    pe_open env = OsOk fd /\ pe_pcap env = OsOk fd' /\
    (pe_mktemp env ∉ fs (world s)) /\ pe_mktemp env <> EmptyString /\
    p = {| fifo := Some fd; fifo_name := Some (pe_mktemp env); pp_start_ts := start_ts;
           pcap := true; poll := true; is_init := true |} /\
    s1 = {| self := self s;
            world := {| fs := {[ pe_mktemp env ]} ∪ fs (world s);
                        fds := {[ fd' ]} ∪ ({[ fd ]} ∪ fds (world s));
                        lock_held := lock_held (world s) |} |}.
Proof.
  unfold new_pipe, zoom, bind, gets.
  match goal with |- context [pipe_init env start_ts ?s0] =>
    destruct (pipe_init env start_ts s0) as [[[[]|e] ps1] ev0] eqn:Hi end; cbn;
    intros [= <- <- <-].
  apply pipe_init_ok in Hi as (fd & fd' & Ho & Hp & Hn & Hne & ->). cbn in *.
  exists fd, fd'. auto 6.
Qed.

Section StartMore.
Context `{Decoder}.

(** All that a [__start] that returns has done. *)
Lemma start_ok_state (env : start_env) (s s1 : st) ev :
  __start env s = (Ok tt, s1, ev) ->
  exists id ts wr,
    se_start_capture env = Ok (id, ts) /\
    self s1 = set_t (Some Alive) (set_active (Some true) (set_writer (Some wr)
                (set_start_ts (Some ts) (set_capture_id (Some id) (self s))))) /\
    In (EvStartCapture (tx_port_list (self s)) (rx_port_list (self s)) (rate_pps (self s))
          "cyclic") ev /\
    match wr with
    | WStdout so =>
        world s1 = world s /\ so_start_ts so = ts /\
        (mon_type (self s) = "compact" /\ so_is_brief so = true \/
         mon_type (self s) = "verbose" /\ so_is_brief so = false)
    | WPipe p =>
        mon_type (self s) = "pipe" /\
        exists fd fd',
          pe_open (se_pipe env) = OsOk fd /\ pe_pcap (se_pipe env) = OsOk fd' /\
          (pe_mktemp (se_pipe env) ∉ fs (world s)) /\ pe_mktemp (se_pipe env) <> EmptyString /\
          p = {| fifo := Some fd; fifo_name := Some (pe_mktemp (se_pipe env));
                 pp_start_ts := ts; pcap := true; poll := true; is_init := true |} /\
          world s1 = {| fs := {[ pe_mktemp (se_pipe env) ]} ∪ fs (world s);
                        fds := {[ fd' ]} ∪ ({[ fd ]} ∪ fds (world s));
                        lock_held := lock_held (world s) |}
    end.
Proof.
  unfold __start.
  intros Hs. apply bind_inv in Hs as [(m & s0 & ev0 & ev0' & Hg & Hs & ->)|(e & Hg & _)];
    [|discriminate Hg].
  injection Hg as <- <- <-.
  apply bind_inv in Hs as [(dd & sa & eva & eva' & Hc & Hs & ->)|(e & Hc & Hr)];
    unfold call, bind, emit, ret, raise in Hc; cbn in Hc;
    destruct (se_start_capture env) as [[id ts]|e'] eqn:Hsc; try discriminate Hc;
    injection Hc as <- <- <-; [|discriminate Hr].
  apply bind_inv in Hs as [([] & sb & evb & evb' & Hb & Hs & ->)|(e & Hb & _)];
    [|discriminate Hb].
  injection Hb as <- <-.
  apply bind_inv in Hs as [([] & sc & evc & evc' & Hb & Hs & ->)|(e & Hb & _)];
    [|discriminate Hb].
  injection Hb as <- <-. cbn [self world fst snd] in Hs.
  apply bind_inv in Hs as [([] & sw & evw & evw' & Hwr & Hs & ->)|(e & _ & Hr)];
    [|discriminate Hr].
  exists id, ts.
  assert (Hev : forall tl0, In (EvStartCapture (tx_port_list (self s)) (rx_port_list (self s))
                                  (rate_pps (self s)) "cyclic")
                              ([] ++ [EvStartCapture (tx_port_list (self s))
                                        (rx_port_list (self s)) (rate_pps (self s)) "cyclic"]
                                  ++ tl0)) by (intros; left; reflexivity).
  revert Hs. unfold call, on_self, modify, bind, emit, ret, raise. cbn.
  destruct (se_thread_start env) as [[]|e]; cbn; [|discriminate]. intros [= <- <-].
  revert Hwr. unfold stdout_init, on_self, modify, bind, emit, ret, raise.
  destruct (decide (mon_type (self s) = "compact")) as [Hc|Hc];
    [cbn; intros [= <- <-]; eexists; split; [reflexivity|]; split; [reflexivity|];
     split; [apply Hev|]; cbn; auto|].
  destruct (decide (mon_type (self s) = "verbose")) as [Hv|Hv];
    [cbn; intros [= <- <-]; eexists; split; [reflexivity|]; split; [reflexivity|];
     split; [apply Hev|]; cbn; auto|].
  destruct (decide (mon_type (self s) = "pipe")) as [Hp|Hp]; [|discriminate].
  match goal with |- context [new_pipe ?e ?t0 ?s0] =>
    destruct (new_pipe e t0 s0) as [[[p|e1] sp] evp] eqn:Hnp end; [|discriminate].
  apply new_pipe_ok in Hnp as (fd & fd' & Ho & Hpc & Hn & Hne & -> & ->).
  cbn. intros [= <- <-]. eexists. split; [reflexivity|]. split; [reflexivity|].
  split; [apply Hev|]. cbn. split; [exact Hp|]. exists fd, fd'. auto 6.
Qed.



(** X19. While the worker of a constructed monitor has not moved,
    [get_mon_row] raises an AttributeError, as the counters are not
    assigned.  Once the worker has been through the first test of its loop,
    however far it has got and even when it has ended on an error,
    [get_mon_row] answers a row: the capture id of the monitor, ACTIVE or
    DEAD as the worker is alive or not, the counters, which are not
    negative, and the ports the monitor was asked for. *)
Theorem get_mon_row_after_worker (tx rx : list Z) (rate : Z) (type : string)
  (env : start_env) (renv : stop_env) (script : list cycle) (s s1 : st) (ev1 : list event) :
  CaptureMonitor_init tx rx rate type env renv s = (Ok tt, s1, ev1) ->
  exists r s2 ev2,
    run_worker script s1 = (r, s2, ev2) /\
    match script with
    | [] =>
        s2 = s1 /\
        get_mon_row (self s2) =
        Raise (Exception "AttributeError"
                 "'CaptureMonitor' object has no attribute 'pkt_count'")
    | _ :: _ =>
        exists pc bc, 0 <= pc /\ 0 <= bc /\
          get_mon_row (self s2) =
          Ok {| row_id := capture_id (self s1);
                row_status := if live (self s2) then "ACTIVE" else "DEAD";
                row_pkts := pc; row_bytes := bc;
                row_tx := ports_str tx; row_rx := ports_str rx |}
    end.
Proof.
  intros Hi.
  pose proof (init_ok_fresh _ _ _ _ _ _ _ _ _ Hi) as (Ht & Hpc & Hbc).
  apply init_inv in Hi
    as [[_ Hst]|[(e1 & Hr & _)|(e0 & sx & evx & r2 & ev2 & _ & _ & _ & Hr & _)]];
    [|discriminate Hr|discriminate Hr].
  apply start_ok_state in Hst as (id & ts & wr & _ & Hself & _).
  cbn [self monitor_entry] in Hself.
  destruct (run_worker_spec script s1) as (rw & s2 & evw & Hrw & _ & Hf & Hts & _).
  exists rw, s2, evw. split; [exact Hrw|].
  destruct script as [|c rest].
  { revert Hrw. unfold run_worker, bind, gets. cbn. rewrite Ht. intros [= <- <- <-].
    split; [reflexivity|]. unfold get_mon_row. rewrite Ht, Hpc. reflexivity. }
  destruct Hf as [_ _ Hcid _ _ Htx Hrx _ _ _ _]. cbn in Hcid, Htx, Hrx.
  assert (Hcnt : counters_from 0 0 (self s2)).
  { revert Hrw. unfold run_worker, bind, gets. cbn. rewrite Ht, Hpc.
    unfold __thread_cb.
    destruct (try_except (__thread_main_loop (c :: rest)) thread_cb_handler s1)
      as [[r sx] evx] eqn:Hm.
    assert (Hsx : counters_from 0 0 (self sx)).
    { apply try_except_inv in Hm
        as [(a & Hm & _)|[(e & Hm & _ & _)|(e & sy & evy & hm & evz & Hm & Hh & Hhm & _)]].
      all: unfold __thread_main_loop, on_self, modify, bind in Hm; cbn [fst snd] in Hm.
      all: match type of Hm with context [main_loop ?sc ?s0] =>
             destruct (main_loop sc s0) as [[rm sm] evm] eqn:Hml end.
      all: apply main_loop_grows in Hml as (Hg & _).
      all: assert (Hsm : counters_from 0 0 (self sm))
             by (apply Hg; exists 0, 0; cbn; repeat split; auto; lia).
      1, 2: injection Hm as _ <- _; exact Hsm.
      apply (thread_cb_handler_grows _ _ Hh) in Hhm as (Hg' & _). apply Hg'.
      injection Hm as _ <- _. exact Hsm. }
    destruct r as [[]|e]; intros [= <- <- <-]; exact Hsx. }
  destruct Hcnt as (pc & bc & Hp & Hb & Hp0 & Hb0).
  exists pc, bc. split; [exact Hp0|]. split; [exact Hb0|].
  unfold get_mon_row, live. rewrite Hp, Hb, Hcid, Htx, Hrx, Hself. cbn.
  destruct Hts as [Hts|Hts]; rewrite Hts; [rewrite Ht|]; reflexivity.
Qed.

End StartMore.

(** * More about the manager and its console commands *)

Lemma monitor_of_inv (mon : option CaptureMonitor) (id : Z) (m : CaptureMonitor) :
  monitor_of mon id = Some m -> mon = Some m /\ get_capture_id m = Some id.
Proof.
  unfold monitor_of. destruct mon as [m0|]; [|discriminate].
  destruct (decide (get_capture_id m0 = Some id)); [|discriminate].
  intros [= <-]. auto.
Qed.

Lemma monitor_of_own (m : CaptureMonitor) (id : Z) :
  get_capture_id m = Some id -> monitor_of (Some m) id = Some m.
Proof. intros Hid. unfold monitor_of. rewrite decide_True by exact Hid. reflexivity. Qed.

Section ManagerMore.
Context `{Decoder}.

(** All that a construction by the manager that returns has done. *)
Lemma new_monitor_ok (tx rx : list Z) (rate : Z) (type : string) (env : start_env)
  (renv : stop_env) (s s' : sys) ev :
  new_monitor tx rx rate type env renv s = (Ok tt, s', ev) ->
  exists m wr,
    monitor s' = Some m /\ writer m = Some wr /\
    tx_port_list m = tx /\ rx_port_list m = rx /\ rate_pps m = rate /\
    In (EvStartCapture tx rx rate "cyclic") ev /\
    match wr with
    | WStdout so => type = "compact" /\ so_is_brief so = true \/
                    type = "verbose" /\ so_is_brief so = false
    | WPipe p => type = "pipe" /\ is_init p = true
    end.
Proof.
  unfold new_monitor.
  match goal with |- context [CaptureMonitor_init tx rx rate type env renv ?s0] =>
    destruct (CaptureMonitor_init tx rx rate type env renv s0) as [[[[]|e] s1] ev1] eqn:Hi end;
    intros [= <- <-].
  apply init_inv in Hi
    as [[_ Hst]|[(e1 & Hr & _)|(e0 & sx & evx & r2 & ev2 & _ & _ & _ & Hr & _)]];
    [|discriminate Hr|discriminate Hr].
  apply start_ok_state in Hst as (id & ts & wr & _ & Hself & Hev & Hwr).
  cbn [self world tx_port_list rx_port_list rate_pps mon_type monitor_entry] in *.
  exists (self s1), wr. cbn [monitor]. rewrite Hself. cbn.
  repeat (split; [reflexivity || assumption|]).
  destruct wr as [so|p].
  - destruct Hwr as (_ & _ & Hty). exact Hty.
  - destruct Hwr as (Hty & fd & fd' & _ & _ & _ & _ & -> & _). auto.
Qed.

(** X20. A [capture monitor start] that returns has asked the server for a
    cyclic capture of 100 packets on the given ports and holds a monitor
    with the writer the flags ask for: the verbose stdout writer when
    --verbose is given, whatever --pipe says, else the pipe writer, fully
    constructed, when --pipe is given, else the brief stdout writer. *)
Theorem monitor_start_chooses_writer (o : opts) (env : monitor_start_env) (s s' : sys)
  (ev : list event) :
  parse_monitor_start o env s = (Ok tt, s', ev) ->
  opt_tx_port_list o <> [] \/ opt_rx_port_list o <> [] ->
  exists m wr,
    monitor s' = Some m /\ writer m = Some wr /\ chosen_writer o wr /\
    tx_port_list m = opt_tx_port_list o /\ rx_port_list m = opt_rx_port_list o /\
    rate_pps m = 100 /\
    In (EvStartCapture (opt_tx_port_list o) (opt_rx_port_list o) 100 "cyclic") ev.
Proof.
  unfold parse_monitor_start. intros Hp Hports.
  assert (Hgo : (manager_stop (ms_stop env) ;;
                 new_monitor (opt_tx_port_list o) (opt_rx_port_list o) 100
                   (if opt_verbose o then "verbose" else if opt_pipe o then "pipe" else "compact")
                   (ms_start env) (ms_rollback env)) s = (Ok tt, s', ev)).
  { destruct (opt_tx_port_list o) as [|x tx]; [destruct (opt_rx_port_list o) as [|y rx]|];
      try exact Hp. destruct Hports; contradiction. }
  clear Hp.
  apply bind_inv in Hgo as [([] & s1 & ev1 & ev2 & _ & Hnew & ->)|(e & _ & Hr)];
    [|discriminate Hr].
  apply new_monitor_ok in Hnew as (m & wr & Hm & Hw & Htx & Hrx & Hrate & Hev & Hwr).
  exists m, wr. repeat (split; [assumption|]).
  split; [|split; [assumption|split; [assumption|split; [assumption|]]]].
  - unfold chosen_writer. destruct wr as [so|p].
    + destruct (opt_verbose o), (opt_pipe o); cbn;
        destruct Hwr as [[Hx Hb]|[Hx Hb]]; try discriminate Hx; auto.
    + destruct (opt_verbose o), (opt_pipe o); destruct Hwr as [Hx Hb];
        try discriminate Hx; auto.
  - apply in_or_app. right. exact Hev.
Qed.

(** X21. When the stop of the monitor fails during [capture clear], the
    captures of the server are not removed and the manager keeps the
    monitor it had, which is stopped all the same: the thread of its worker
    is not alive any more, and it has no writer and no capture id. *)
Theorem clear_keeps_captures_when_stop_fails (env : stop_env) (remove_all : result unit)
  (s : sys) (m : CaptureMonitor) (e : exn) (s1 : st) (ev1 : list event) :
  monitor s = Some m ->
  orphan_alive m = false ->
  stop env {| self := m; world := sys_world s |} = (Raise e, s1, ev1) ->
  parse_clear env remove_all s =
    (Raise e, {| monitor := Some (self s1); dropped := dropped s; sys_world := world s1 |},
     ev1) /\
  ~ In EvRemoveAllCaptures ev1 /\
  running (self s1) = false /\ writer (self s1) = None /\ capture_id (self s1) = None.
Proof.
  intros Hm Horph Hs. split; [|split].
  - unfold parse_clear, manager_stop, on_monitor, zoom, bind, gets. cbv beta iota.
    rewrite Hm. cbv beta iota. rewrite Hs. reflexivity.
  - intros Hin. apply stop_events in Hs. rewrite forallb_forall in Hs.
    specialize (Hs _ Hin). discriminate Hs.
  - split; [exact (stop_not_running _ _ _ _ _ Hs Horph)|].
    apply stop_inv in Hs as (ev0 & tail & Hs & _).
    apply stop_spec in Hs as (Hw & Hc & _). auto.
Qed.

(** ** Recording *)

(** X22. The commands of [capture record] leave the manager and its
    monitor as they are, and the only capture they can stop is the one
    named in a [stop] command, when the server lists it and it is not the
    capture of the monitor in place: the capture of a monitor is never
    stopped by [capture record stop]. *)
Theorem record_commands_spare_monitor (c : record_cmd) (env : console_env) (s s' : sys)
  (r : result unit) (ev : list event) :
  parse_record c env s = (r, s', ev) ->
  s' = s /\
  (forall id, In (EvStopCapture id) ev <->
     (exists file, c = RecordStop id file) /\
     monitor_of (monitor s) id = None /\
     exists data, ce_status env = Ok data /\ id ∈ map ci_id data) /\
  (forall m id, monitor s = Some m -> get_capture_id m = Some id ->
                ~ In (EvStopCapture id) ev).
Proof.
  intros Hp.
  assert (Hmain : s' = s /\
    (forall id, In (EvStopCapture id) ev <->
       (exists file, c = RecordStop id file) /\
       monitor_of (monitor s) id = None /\
       exists data, ce_status env = Ok data /\ id ∈ map ci_id data)).
  { destruct c as [tx rx limit|cid file|]; cbn [parse_record] in Hp.
    - revert Hp. unfold parse_record_start, call, bind, emit, ret, raise.
      destruct tx, rx; cbn; try destruct (ce_start_capture env); cbn;
        intros [= <- <- <-]; (split; [reflexivity|]); intros id; (split;
          [intros Hin; cbn in Hin; exfalso; intuition discriminate
          |intros ((file & Hx) & _); discriminate Hx]).
    - revert Hp. unfold parse_record_stop, call, bind, emit, gets, ret, raise. cbn.
      destruct (ce_status env) as [data|e0] eqn:Hst; cbn.
      + destruct (monitor_of (monitor s) cid) as [m0|] eqn:Hmo; cbn.
        * intros [= <- <- <-]. split; [reflexivity|]. intros id. split.
          -- intros [Hx|[Hx|[]]]; discriminate Hx.
          -- intros ((file' & [= <- <-]) & Hno & _). congruence.
        * destruct (decide (cid ∈ map ci_id data)) as [Hin|Hnin]; cbn.
          -- destruct (ce_stop_capture env); cbn; intros [= <- <- <-];
               (split; [reflexivity|]); intros id; (split;
                 [intros [Hx|[Hx|[]]]; try discriminate Hx; injection Hx as <-; eauto 8
                 |intros ((file' & [= <- <-]) & _); right; left; reflexivity]).
          -- intros [= <- <- <-]. split; [reflexivity|]. intros id. split.
             ++ intros [Hx|[Hx|[]]]; discriminate Hx.
             ++ intros ((file' & [= <- <-]) & _ & data' & [= <-] & Hin). contradiction.
      + intros [= <- <- <-]. split; [reflexivity|]. intros id. split.
        * intros [Hx|[]]; discriminate Hx.
        * intros (_ & _ & data' & Hx & _). discriminate Hx.
    - injection Hp as <- <- <-. split; [reflexivity|]. intros id. split.
      + intros [Hx|[]]; discriminate Hx.
      + intros ((file & Hx) & _). discriminate Hx. }
  destruct Hmain as [Hs Hiff]. split; [exact Hs|]. split; [exact Hiff|].
  intros m id Hm Hid Hin. apply Hiff in Hin as (_ & Hno & _).
  rewrite Hm, (monitor_of_own m id Hid) in Hno. discriminate Hno.
Qed.

(** ** The tables of [capture show] *)

Lemma show_rows_ok (mon : option CaptureMonitor) (data : list capture_info)
  (c0 : list cap_row) (m0 : list mon_row) caps mons :
  show_rows mon data c0 m0 = Ok (caps, mons) ->
  caps = c0 ++ map recorder_row (List.filter (fun elem => negb (monitored mon elem)) data) /\
  exists extra,
    mons = m0 ++ extra /\
    length extra = length (List.filter (monitored mon) data) /\
    forall row, In row extra -> exists m, mon = Some m /\ get_mon_row m = Ok row.
Proof.
  revert c0 m0 caps mons.
  induction data as [|elem rest IH]; intros c0 m0 caps mons; cbn [show_rows List.filter].
  - intros [= <- <-]. rewrite !app_nil_r. split; [reflexivity|].
    exists []. rewrite app_nil_r. repeat split; auto. intros row [].
  - destruct (monitor_of mon (ci_id elem)) as [m|] eqn:Hmo.
    + assert (Hmon : monitored mon elem = true) by (unfold monitored; rewrite Hmo; reflexivity).
      rewrite Hmon. cbn [negb].
      destruct (get_mon_row m) as [row|e] eqn:Hrow; [|discriminate].
      intros Hs. apply IH in Hs as (-> & extra & -> & Hlen & Hrows).
      split; [reflexivity|]. exists (row :: extra). rewrite <- app_assoc.
      split; [reflexivity|]. split; [cbn; rewrite Hlen; reflexivity|].
      intros row' [<-|Hin]; [|auto].
      apply monitor_of_inv in Hmo as [-> _]. eauto.
    + assert (Hmon : monitored mon elem = false) by (unfold monitored; rewrite Hmo; reflexivity).
      rewrite Hmon. cbn [negb].
      intros Hs. apply IH in Hs as (-> & extra & -> & Hlen & Hrows).
      split; [cbn; rewrite <- app_assoc; reflexivity|]. exists extra. auto.
Qed.

Lemma show_rows_raise (mon : option CaptureMonitor) (data : list capture_info)
  (c0 : list cap_row) (m0 : list mon_row) (e : exn) :
  show_rows mon data c0 m0 = Raise e ->
  exists m elem, mon = Some m /\ In elem data /\
                 get_capture_id m = Some (ci_id elem) /\ get_mon_row m = Raise e.
Proof.
  revert c0 m0. induction data as [|elem rest IH]; intros c0 m0; cbn [show_rows];
    [discriminate|].
  destruct (monitor_of mon (ci_id elem)) as [m|] eqn:Hmo.
  - destruct (get_mon_row m) as [row|e0] eqn:Hrow.
    + intros Hs. apply IH in Hs as (m' & elem' & Hm & Hin & Hid & Hr).
      exists m', elem'. repeat split; auto. right. exact Hin.
    + intros [= <-]. apply monitor_of_inv in Hmo as [-> Hid].
      exists m, elem. repeat split; auto. left. reflexivity.
  - intros Hs. apply IH in Hs as (m' & elem' & Hm & Hin & Hid & Hr).
    exists m', elem'. repeat split; auto. right. exact Hin.
Qed.

(** X23. A [capture show] that returns has changed nothing and has made
    one call, the status request.  Each capture the server lists is in
    exactly one of the two tables: the captures that are not the
    monitor's are in the table of recorders, in the order of the list,
    with what the server says of them; the capture of the monitor is in
    the monitor's table, with the row of [get_mon_row], that is with the
    counters of the monitor itself.  A table is printed only when it has a
    row. *)
Theorem parse_show_tables (env : console_env) (s s' : sys) (caps : list cap_row)
  (mons : list mon_row) (ev : list event) :
  parse_show env s = (Ok (caps, mons), s', ev) ->
  s' = s /\
  exists data,
    ce_status env = Ok data /\
    caps = map recorder_row
               (List.filter (fun elem => negb (monitored (monitor s) elem)) data) /\
    length mons = length (List.filter (monitored (monitor s)) data) /\
    (forall row, In row mons -> exists m, monitor s = Some m /\ get_mon_row m = Ok row) /\
    ev = EvGetCaptureStatus ::
         match caps with [] => [] | _ :: _ => [EvLog "Active Recorders"] end ++
         match mons with [] => [] | _ :: _ => [EvLog "Active Monitor"] end.
Proof.
  unfold parse_show, call, bind, emit, gets, ret, raise. cbn.
  destruct (ce_status env) as [data|e0] eqn:Hst; cbn; [|discriminate].
  destruct (show_rows (monitor s) data [] []) as [[caps0 mons0]|e0] eqn:Hrows; cbn;
    [|discriminate].
  apply show_rows_ok in Hrows as (-> & extra & -> & Hlen & Hin). cbn [app] in *.
  destruct (map recorder_row _) as [|c cs] eqn:Hcaps, extra as [|x xs]; cbn;
    intros [= <- <- <- <-]; (split; [reflexivity|]); exists data;
    (split; [reflexivity|]); (split; [symmetry; exact Hcaps|]);
    (split; [exact Hlen|]); (split; [exact Hin|]); reflexivity.
Qed.

(** X24. [capture show] changes nothing even when it fails, and it fails
    only when the status request does, or when the server lists the
    capture of the monitor in place and [get_mon_row] raises (the worker
    has not yet assigned the counters); the error is then that of
    [get_mon_row], and no table is printed. *)
Theorem parse_show_failure (env : console_env) (s s' : sys) (e : exn) (ev : list event) :
  parse_show env s = (Raise e, s', ev) ->
  s' = s /\ ev = [EvGetCaptureStatus] /\
  (ce_status env = Raise e \/
   exists data m elem,
     ce_status env = Ok data /\ monitor s = Some m /\ In elem data /\
     get_capture_id m = Some (ci_id elem) /\ get_mon_row m = Raise e).
Proof.
  unfold parse_show, call, bind, emit, gets, ret, raise. cbn.
  destruct (ce_status env) as [data|e0] eqn:Hst; cbn.
  - destruct (show_rows (monitor s) data [] []) as [[caps0 mons0]|e0] eqn:Hrows; cbn.
    + destruct caps0, mons0; cbn; discriminate.
    + intros [= <- <- <-]. split; [reflexivity|]. split; [reflexivity|]. right.
      apply show_rows_raise in Hrows as (m & elem & Hm & Hin & Hid & Hr).
      exists data, m, elem. auto.
  - intros [= <- <- <-]. auto.
Qed.

End ManagerMore.

(** * A command from the console to the operating system and back *)

(** Ctrl-C while the constructor of the pipe writer waits for the reader. *)
Lemma pipe_init_interrupted (env : pipe_env) (start_ts : Z) (s : pipe_st) :
  pe_mkfifo env = OsOk tt -> pe_open env = OsIntr ->
  pe_mktemp env <> EmptyString -> pe_mktemp env ∉ fs (ps_world s) ->
  exists s' ev,
    pipe_init env start_ts s =
      (Raise (STLError "*** pipe monitor aborted...cleaning up"), s', ev) /\
    fs (ps_world s') = fs (ps_world s) /\ fds (ps_world s') = fds (ps_world s) /\
    In (EvMkfifo (pe_mktemp env)) ev /\ In (EvUnlink (pe_mktemp env)) ev /\
    count is_thread_start ev = O.
Proof.
  destruct env as [name mk op pc hd rg], s as [p [f d l]].
  cbn [pe_mktemp pe_mkfifo pe_open ps_world fs fds].
  intros -> -> Hne Hn. unfold pipe_init, pipe_init_except. pipe_unfold. cbn.
  rewrite (decide_False (P := name = EmptyString)) by exact Hne. cbn.
  rewrite (decide_False (P := name ∈ f)) by exact Hn. cbn.
  rewrite (decide_False (P := name = EmptyString)) by exact Hne. cbn.
  rewrite (decide_True (P := name ∈ {[name]} ∪ f)) by set_solver. cbn.
  eexists _, _. split; [reflexivity|]. cbn.
  split; [set_solver|]. split; [reflexivity|]. split; [auto 10|]. split; [auto 10|].
  reflexivity.
Qed.

Section Scenario.
Context `{Decoder}.

Lemma start_pipe_interrupted (env : start_env) (s : st) (d : Z * Z) :
  mon_type (self s) = "pipe" -> se_start_capture env = Ok d ->
  pe_mkfifo (se_pipe env) = OsOk tt -> pe_open (se_pipe env) = OsIntr ->
  pe_mktemp (se_pipe env) <> EmptyString -> pe_mktemp (se_pipe env) ∉ fs (world s) ->
  exists s1 ev1,
    __start env s = (Raise (STLError "*** pipe monitor aborted...cleaning up"), s1, ev1) /\
    fs (world s1) = fs (world s) /\ fds (world s1) = fds (world s) /\
    t (self s1) = t (self s) /\ writer (self s1) = writer (self s) /\
    In (EvUnlink (pe_mktemp (se_pipe env))) ev1 /\
    count is_thread_start ev1 = O.
Proof.
  intros Hty Hsc Hmk Hop Hne Hn.
  unfold __start, call, on_self, modify, bind, gets, emit, ret, raise. cbn.
  rewrite Hsc, Hty. cbn.
  rewrite (decide_False (P := "pipe" = "compact")) by discriminate.
  rewrite (decide_False (P := "pipe" = "verbose")) by discriminate.
  rewrite (decide_True (P := "pipe" = "pipe")) by reflexivity.
  unfold new_pipe, zoom, bind.
  match goal with |- context [pipe_init ?e ?ts ?s0] =>
    destruct (pipe_init_interrupted e ts s0 Hmk Hop Hne Hn)
      as (s' & ev & Hp & Hfs & Hfds & Hin1 & Hin2 & Hcnt); rewrite Hp end.
  cbn. eexists _, _. split; [reflexivity|]. cbn in *.
  repeat (split; [assumption || reflexivity|]).
  split; [right; assumption|exact Hcnt].
Qed.

(** The same, seen from the manager. *)
Lemma new_monitor_interrupted (tx rx : list Z) (rate : Z) (env : start_env)
  (renv : stop_env) (s s' : sys) r ev :
  (exists d, se_start_capture env = Ok d) ->
  pe_mkfifo (se_pipe env) = OsOk tt -> pe_open (se_pipe env) = OsIntr ->
  pe_mktemp (se_pipe env) <> EmptyString -> pe_mktemp (se_pipe env) ∉ fs (sys_world s) ->
  answering renv ->
  new_monitor tx rx rate "pipe" env renv s = (r, s', ev) ->
  r = Raise (STLError "*** pipe monitor aborted...cleaning up") /\
  monitor s' = monitor s /\
  live_count s' = live_count s /\
  fs (sys_world s') = fs (sys_world s) /\
  fds (sys_world s') = fds (sys_world s) /\
  In (EvUnlink (pe_mktemp (se_pipe env))) ev /\
  count is_thread_start ev = O.
Proof.
  intros [d Hsc] Hmk Hop Hne Hn Hans. unfold new_monitor.
  match goal with |- context [CaptureMonitor_init ?tx ?rx ?rate ?ty ?e ?re ?s0] =>
    destruct (CaptureMonitor_init tx rx rate ty e re s0) as [[ri si] evi] eqn:Hi;
    pose proof (start_pipe_interrupted e (monitor_entry tx rx rate ty s0) d eq_refl Hsc
                  Hmk Hop Hne Hn)
      as (s1 & ev1 & Hst & Hfs & Hfds & Ht & Hw & Hin2 & Hcnt)
  end.
  cbn [self world monitor_entry] in *.
  apply init_inv in Hi
    as [[_ Hst']|[(e1 & _ & He1 & Hst')|(e0 & sx & evx & r2 & ev2 & Hst' & _ & Hsp & -> & ->)]];
    cbn [world] in Hst'; rewrite Hst in Hst'; try discriminate Hst'.
  { injection Hst' as <- _ _. discriminate He1. }
  injection Hst' as <- <- <-.
  pose proof (stop_answering _ _ _ _ _ Hans Hsp) as ->.
  pose proof (stop_spec _ _ _ _ _ Hsp) as (_ & _ & Htsi & _).
  apply stop_parts in Hsp as (sa & eva & sb & evb & evc & Ha & Hb & Hc & ->).
  destruct (stop_thread_spec (st_pending renv) s1)
    as (sa' & eva' & Ha' & _ & _ & _ & _ & _ & _ & Hid & _).
  rewrite Ha in Ha'. injection Ha' as <- <-.
  destruct Hid as [-> ->]; [rewrite Ht; discriminate|].
  destruct (stop_writer_spec s1) as (sb' & evb' & Hb' & _ & _ & _ & _ & _ & _ & Hidw & _).
  rewrite Hb in Hb'. injection Hb' as <- <-.
  destruct (Hidw Hw) as [-> ->].
  pose proof (stop_remote_spec _ _ _ _ _ Hc) as (-> & _).
  apply stop_remote_events in Hc as (Hrem & _).
  intros [= <- <- <-]. cbn [monitor dropped sys_world self world].
  split; [reflexivity|]. split; [reflexivity|].
  split.
  { unfold live_count, all_monitors. cbn [monitor dropped].
    assert (Hdead : ~ live (set_capture_id None (self s1)) = true)
      by (unfold live; cbn; rewrite Ht; discriminate).
    destruct (monitor s) as [m|].
    - rewrite (filter_cons _ m), (filter_cons _ m (dropped s)).
      rewrite (filter_cons_False (fun m => live m = true) _ _ Hdead). reflexivity.
    - rewrite (filter_cons_False (fun m => live m = true) _ _ Hdead). reflexivity. }
  split; [exact Hfs|]. split; [exact Hfds|].
  split; [rewrite !in_app_iff; auto|].
  cbn [app]. rewrite count_app, Hcnt.
  apply (count_none is_thread_start stop_remote_event); [|exact Hrem].
  intros e; destruct e; cbn; auto; discriminate.
Qed.

(** X25. Ctrl-C while [capture monitor start --pipe] waits for the reader
    of the pipe, with no monitor in place and a server that answers the
    cleanup: [parse_line] does not raise, it logs the failure and answers
    the error 'pipe monitor aborted'; the manager holds no monitor, no
    worker has been started, the file made for the pipe has been removed,
    and the files and the open descriptors are those from before the
    command. *)
Theorem interrupted_pipe_start_is_rolled_back (parse_args : string -> option command)
  (line : string) (o : opts) (env : console_env) (s s' : sys) (r : result (option string))
  (ev : list event) :
  parse_args line = Some (CmdMonitor (MonStart o)) -> line <> EmptyString ->
  opt_verbose o = false -> opt_pipe o = true ->
  opt_tx_port_list o <> [] \/ opt_rx_port_list o <> [] ->
  monitor s = None ->
  (exists d, se_start_capture (ms_start (ce_monitor env)) = Ok d) ->
  pe_mkfifo (se_pipe (ms_start (ce_monitor env))) = OsOk tt ->
  pe_open (se_pipe (ms_start (ce_monitor env))) = OsIntr ->
  pe_mktemp (se_pipe (ms_start (ce_monitor env))) <> EmptyString ->
  pe_mktemp (se_pipe (ms_start (ce_monitor env))) ∉ fs (sys_world s) ->
  answering (ms_rollback (ce_monitor env)) ->
  parse_line parse_args line env s = (r, s', ev) ->
  r = Ok (Some "*** pipe monitor aborted...cleaning up") /\
  monitor s' = None /\
  live_count s' = live_count s /\
  fs (sys_world s') = fs (sys_world s) /\
  fds (sys_world s') = fds (sys_world s) /\
  In (EvUnlink (pe_mktemp (se_pipe (ms_start (ce_monitor env))))) ev /\
  count is_thread_start ev = O.
Proof.
  intros Hpa Hline Hv Hp Hports Hmon Hsc Hmk Hop Hne Hn Hans.
  unfold parse_line, parse_line_internal.
  rewrite (decide_False (P := line = EmptyString)) by exact Hline. rewrite Hpa.
  cbn [parse_monitor]. unfold parse_monitor_start. rewrite Hv, Hp.
  set (menv := ce_monitor env) in *.
  assert (Hgo : match opt_tx_port_list o, opt_rx_port_list o with
                | [], [] => emit (EvLog "please provide either --tx or --rx")
                | _, _ =>
                    manager_stop (ms_stop menv) ;;
                    new_monitor (opt_tx_port_list o) (opt_rx_port_list o) 100 "pipe"
                      (ms_start menv) (ms_rollback menv)
                end =
                (manager_stop (ms_stop menv) ;;
                 new_monitor (opt_tx_port_list o) (opt_rx_port_list o) 100 "pipe"
                   (ms_start menv) (ms_rollback menv))).
  { destruct (opt_tx_port_list o), (opt_rx_port_list o); try reflexivity.
    destruct Hports; contradiction. }
  rewrite Hgo. clear Hgo.
  assert (Hms : manager_stop (ms_stop menv) s = (Ok tt, s, [])).
  { unfold manager_stop, bind, gets. rewrite Hmon. reflexivity. }
  destruct (new_monitor (opt_tx_port_list o) (opt_rx_port_list o) 100 "pipe"
              (ms_start menv) (ms_rollback menv) s) as [[rn sn] evn] eqn:Hnm.
  pose proof (new_monitor_interrupted _ _ _ _ _ _ _ _ _ Hsc Hmk Hop Hne Hn Hans Hnm)
    as (-> & Hm' & Hlive & Hfs & Hfds & Hin & Hcnt).
  unfold try_except, bind. rewrite Hms, Hnm. unfold emit, ret. cbn.
  intros [= <- <- <-].
  split; [reflexivity|]. split; [congruence|].
  repeat (split; [assumption|]).
  split; [apply in_or_app; left; exact Hin|].
  rewrite count_app, Hcnt. reflexivity.
Qed.

End Scenario.

(** * The writers under the worker *)

Section WriterContract.
Context `{Decoder}.



End WriterContract.

(** * Instances: the theorems at work on the sample data *)

Lemma counters_sum_witness :
  counters_after (H := Samples.decoder) [Samples.fetching Samples.good_batch; Samples.fetching []]
    Samples.started = (Some 3, Some 44).
Proof.
  refine (proj1 (counters_sum (H := Samples.decoder) Samples.stdout_writer
                   [Samples.fetching Samples.good_batch; Samples.fetching []]
                   [3; 0] [44; 0] Samples.started _ _)).
  - reflexivity.
  - apply cycles_ok_cons; [|apply cycles_ok_cons; [|apply cycles_ok_nil]].
    + repeat (split; [reflexivity || discriminate|]).
      exists Samples.good_batch. repeat split.
    + repeat (split; [reflexivity || discriminate|]).
      exists []. repeat split.
Defined.

(** C10 does not hold as stated: after the [stop] of a monitor whose
    worker had ended, [get_mon_row] answers a row. *)
Lemma get_mon_row_after_stop_of_dead_worker :
  fst (fst (stop (H := Samples.decoder) Samples.stop_ok Samples.worker_died)) = Ok tt /\
  get_mon_row (self (snd (fst (stop (H := Samples.decoder) Samples.stop_ok Samples.worker_died)))) =
    Ok {| row_id := None; row_status := "DEAD"; row_pkts := 3; row_bytes := 44;
          row_tx := "0"; row_rx := "1" |}.
Proof. split; vm_compute; reflexivity. Qed.


Lemma empty_fetch_changes_nothing_witness :
  fst (fst (cycle_body (H := Samples.decoder) (Samples.fetching []) Samples.started)) =
    Ok Continue /\
  self (snd (fst (cycle_body (H := Samples.decoder) (Samples.fetching []) Samples.started))) =
    self Samples.started.
Proof.
  pose proof (empty_fetch_changes_nothing (H := Samples.decoder) (Samples.fetching [])
                Samples.started
                (snd (fst (cycle_body (H := Samples.decoder) (Samples.fetching []) Samples.started)))
                (fst (fst (cycle_body (H := Samples.decoder) (Samples.fetching []) Samples.started)))
                (snd (cycle_body (H := Samples.decoder) (Samples.fetching []) Samples.started))
                eq_refl) as Hw.
  destruct Hw as (H1 & H2 & _).
  - vm_compute. reflexivity.
  - vm_compute. repeat (first [left; reflexivity|right]).
  - split; assumption.
Defined.

Lemma lock_released_on_every_path_witness :
  lock_held (world (snd (fst (cycle_body (H := Samples.decoder)
                                (Samples.fetching Samples.good_batch) Samples.started)))) = false /\
  count is_release (snd (cycle_body (H := Samples.decoder)
                           (Samples.fetching Samples.good_batch) Samples.started)) = 1%nat.
Proof.
  pose proof (lock_released_on_every_path (H := Samples.decoder)
                (Samples.fetching Samples.good_batch) Samples.started
                (snd (fst (cycle_body (H := Samples.decoder)
                             (Samples.fetching Samples.good_batch) Samples.started)))
                (fst (fst (cycle_body (H := Samples.decoder)
                             (Samples.fetching Samples.good_batch) Samples.started)))
                (snd (cycle_body (H := Samples.decoder)
                        (Samples.fetching Samples.good_batch) Samples.started))) as Hw.
  destruct Hw as (H1 & _ & _ & H4).
  - vm_compute. reflexivity.
  - vm_compute. reflexivity.
  - split; [exact H1|]. apply H4. vm_compute. repeat (first [left; reflexivity|right]).
Defined.



Lemma get_mon_row_partial_witness :
  get_mon_row (self (snd (fst (stop (H := Samples.decoder) Samples.stop_ok Samples.started)))) =
    Raise (Exception "AttributeError" "'NoneType' object has no attribute 'is_alive'") /\
  get_mon_row (self Samples.started) =
    Raise (Exception "AttributeError" "'CaptureMonitor' object has no attribute 'pkt_count'").
Proof.
  destruct (get_mon_row_partial (H := Samples.decoder)) as (H1 & H2 & _).
  split.
  - apply (H1 Samples.stop_ok Samples.started _
              (fst (fst (stop (H := Samples.decoder) Samples.stop_ok Samples.started)))
              (snd (stop (H := Samples.decoder) Samples.stop_ok Samples.started))).
    + vm_compute. reflexivity.
    + reflexivity.
  - apply (H2 [0] [1] 100 "compact" Samples.start_ok Samples.stop_ok Samples.blank Samples.started
              (snd (CaptureMonitor_init (H := Samples.decoder) [0] [1] 100 "compact"
                      Samples.start_ok Samples.stop_ok Samples.blank))).
    vm_compute. reflexivity.
Defined.


(** An Ethernet frame with a UDP datagram is shown as UDP. *)
Lemma get_scapy_name_not_padding_witness :
  In (get_scapy_name Examples.udp_pkt) (layers Examples.udp_pkt) /\
  get_scapy_name Examples.udp_pkt ∉ ["Padding"; "Raw"].
Proof.
  apply (get_scapy_name_not_padding Examples.udp_pkt).
  apply (bool_decide_unpack _). vm_compute. exact I.
Defined.

Lemma pipe_deinit_close_failure_witness :
  pipe_deinit Examples.stale_pipe = (Ok tt, Examples.stale_pipe, [EvDeinit]).
Proof.
  apply (pipe_deinit_close_failure (ps_self Examples.stale_pipe) (ps_world Examples.stale_pipe) 4).
  - reflexivity.
  - discriminate.
  - apply (bool_decide_unpack _). vm_compute. exact I.
Defined.

Lemma pipe_init_unlinks_existing_path_witness :
  fst (fst (pipe_init Samples.pipe_ok 0 Examples.taken)) =
    Raise (STLError ("failed to create pipe None" +:+
                     String (Ascii.ascii_of_nat 10) "[Errno 17] File exists")) /\
  In (EvUnlink "/tmp/tmpq1") (snd (pipe_init Samples.pipe_ok 0 Examples.taken)).
Proof.
  rewrite (pipe_init_unlinks_existing_path Samples.pipe_ok 0 Examples.taken).
  - split; [reflexivity|]. right. right. left. reflexivity.
  - apply (bool_decide_unpack _). vm_compute. exact I.
  - discriminate.
  - reflexivity.
Defined.

Lemma pipe_init_error_names_no_pipe_witness :
  fifo_name (ps_self (snd (fst (pipe_init Examples.pipe_no_reader 0 Samples.blank_pipe_st)))) =
    None /\
  fst (fst (pipe_init Examples.pipe_no_reader 0 Samples.blank_pipe_st)) =
    Raise (STLError ("failed to create pipe None" +:+
                     String (Ascii.ascii_of_nat 10) "[Errno 4] EINTR")).
Proof.
  destruct (pipe_init_error_names_no_pipe Examples.pipe_no_reader 0 Samples.blank_pipe_st
              (snd (fst (pipe_init Examples.pipe_no_reader 0 Samples.blank_pipe_st)))
              (STLError ("failed to create pipe None" +:+
                         String (Ascii.ascii_of_nat 10) "[Errno 4] EINTR"))
              (snd (pipe_init Examples.pipe_no_reader 0 Samples.blank_pipe_st)))
    as [(_ & Hname & _)|(Hnd & _)].
  - vm_compute. reflexivity.
  - vm_compute. right. left. reflexivity.
  - split; [exact Hname|]. vm_compute. reflexivity.
  - exfalso. apply Hnd. vm_compute. auto 10.
Defined.

Lemma pipe_handle_pkts_trace_witness :
  pipe_handle_pkts (H := Samples.decoder) Examples.pipe_writer Samples.quiet
    Samples.good_batch tt =
  (Ok 44, tt,
   [EvPoll 0; EvWritePacket Samples.frame15 0 250000; EvWritePacket Samples.frame14 0 500000;
    EvWritePacket Samples.frame15 0 750000]).
Proof.
  rewrite (pipe_handle_pkts_trace (H := Samples.decoder) Examples.pipe_writer Samples.quiet
             Samples.good_batch tt).
  - vm_compute. reflexivity.
  - reflexivity.
  - constructor.
Defined.

(** The second write of a batch of three fails: one packet has reached the
    pipe, none is counted. *)
Lemma failed_pass_counts_nothing_witness :
  self (snd (fst (cycle_body (H := Samples.decoder) Examples.failing_write
                    Examples.pipe_running))) = self Examples.pipe_running /\
  count is_write_packet (snd (cycle_body (H := Samples.decoder) Examples.failing_write
                                Examples.pipe_running)) = 1%nat.
Proof.
  split.
  - apply (failed_pass_counts_nothing (H := Samples.decoder) Examples.failing_write
             Examples.pipe_running _
             (fst (fst (cycle_body (H := Samples.decoder) Examples.failing_write
                          Examples.pipe_running)))
             (snd (cycle_body (H := Samples.decoder) Examples.failing_write
                     Examples.pipe_running)) 3 44).
    + vm_compute. reflexivity.
    + vm_compute. reflexivity.
    + vm_compute. reflexivity.
    + vm_compute. discriminate.
  - vm_compute. reflexivity.
Defined.

Lemma counters_never_decrease_witness :
  counters_from 3 44
    (self (snd (fst (run_worker (H := Samples.decoder) [Samples.refused] Examples.running)))).
Proof.
  apply (counters_never_decrease (H := Samples.decoder) [Samples.refused] Examples.running
           _ 3 44
           (fst (fst (run_worker (H := Samples.decoder) [Samples.refused] Examples.running)))
           (snd (run_worker (H := Samples.decoder) [Samples.refused] Examples.running))).
  - vm_compute. reflexivity.
  - vm_compute. reflexivity.
  - vm_compute. reflexivity.
Defined.

Lemma pipe_hangup_stops_worker_witness :
  t (self (snd (fst (run_worker (H := Samples.decoder)
                       [Examples.hangup; Samples.fetching Samples.good_batch]
                       Examples.pipe_running)))) = Some Dead /\
  count is_acquire (snd (run_worker (H := Samples.decoder)
                           [Examples.hangup; Samples.fetching Samples.good_batch]
                           Examples.pipe_running)) = O.
Proof.
  rewrite (pipe_hangup_stops_worker (H := Samples.decoder) Examples.hangup
             [Samples.fetching Samples.good_batch] Examples.pipe_running
             Examples.pipe_writer 3).
  - split; reflexivity.
  - vm_compute. reflexivity.
  - vm_compute. reflexivity.
  - vm_compute. reflexivity.
  - reflexivity.
  - discriminate.
  - reflexivity.
Defined.

Lemma stop_twice_witness :
  snd (fst (stop (H := Samples.decoder) Samples.stop_ok
              (snd (fst (stop (H := Samples.decoder) Samples.stop_ok Samples.started))))) =
    snd (fst (stop (H := Samples.decoder) Samples.stop_ok Samples.started)) /\
  forallb probe_event
    (snd (stop (H := Samples.decoder) Samples.stop_ok
            (snd (fst (stop (H := Samples.decoder) Samples.stop_ok Samples.started))))) = true.
Proof.
  apply (stop_twice (H := Samples.decoder) Samples.stop_ok Samples.stop_ok Samples.started
           (snd (fst (stop (H := Samples.decoder) Samples.stop_ok Samples.started)))
           _
           (fst (fst (stop (H := Samples.decoder) Samples.stop_ok Samples.started)))
           (fst (fst (stop (H := Samples.decoder) Samples.stop_ok
                        (snd (fst (stop (H := Samples.decoder) Samples.stop_ok
                                     Samples.started))))))
           (snd (stop (H := Samples.decoder) Samples.stop_ok Samples.started))).
  - vm_compute. reflexivity.
  - vm_compute. reflexivity.
Defined.

Lemma stop_when_disconnected_witness :
  fst (fst (stop (H := Samples.decoder) Examples.stop_offline Examples.running)) = Ok tt /\
  ~ In EvGetCaptureStatus (snd (stop (H := Samples.decoder) Examples.stop_offline
                                  Examples.running)).
Proof.
  destruct (stop_when_disconnected (H := Samples.decoder) Examples.stop_offline
              Examples.running eq_refl) as (s' & ev & Hs & _ & _ & _ & Hno & _).
  - vm_compute. reflexivity.
  - rewrite Hs. split; [reflexivity|exact Hno].
Defined.

Lemma stop_fails_only_on_server_errors_witness :
  running (self (snd (fst (stop (H := Samples.decoder) Samples.stop_failing Examples.running)))) =
    false /\
  exists ev0, snd (stop (H := Samples.decoder) Samples.stop_failing Examples.running) =
              ev0 ++ [EvLog "ERR"].
Proof.
  destruct (stop_fails_only_on_server_errors (H := Samples.decoder) Samples.stop_failing
              Examples.running
              (snd (fst (stop (H := Samples.decoder) Samples.stop_failing Examples.running)))
              (STLError "timeout")
              (snd (stop (H := Samples.decoder) Samples.stop_failing Examples.running)))
    as (_ & Hl & _ & _ & Herr).
  - vm_compute. reflexivity.
  - vm_compute. reflexivity.
  - split; [exact Hl|]. apply Herr. reflexivity.
Defined.

Lemma stop_releases_writer_after_join_witness :
  exists a b,
    snd (stop (H := Samples.decoder) Samples.stop_ok Examples.pipe_running) =
      a ++ EvDeinit :: b /\
    count is_deinit a = O /\ count is_deinit b = O /\
    count is_join a = 1%nat /\ count is_join b = O /\
    count writer_event b = O.
Proof.
  apply (stop_releases_writer_after_join (H := Samples.decoder) Samples.stop_ok
           Examples.pipe_running
           (snd (fst (stop (H := Samples.decoder) Samples.stop_ok Examples.pipe_running)))
           (fst (fst (stop (H := Samples.decoder) Samples.stop_ok Examples.pipe_running)))
           (snd (stop (H := Samples.decoder) Samples.stop_ok Examples.pipe_running))
           (WPipe Examples.pipe_writer)).
  - vm_compute. reflexivity.
  - vm_compute. reflexivity.
Defined.


Lemma get_mon_row_after_worker_witness :
  exists pc bc,
    0 <= pc /\ 0 <= bc /\
    get_mon_row (self Samples.worker_died) =
    Ok {| row_id := Some 7; row_status := "DEAD"; row_pkts := pc; row_bytes := bc;
          row_tx := "0"; row_rx := "1" |}.
Proof.
  destruct (get_mon_row_after_worker (H := Samples.decoder) [0] [1] 100 "compact"
              Samples.start_ok Samples.stop_ok
              [Samples.fetching Samples.good_batch; Samples.refused]
              Samples.blank Samples.started
              (snd (CaptureMonitor_init (H := Samples.decoder) [0] [1] 100 "compact"
                      Samples.start_ok Samples.stop_ok Samples.blank)))
    as (r & s2 & ev2 & Hr & pc & bc & Hp & Hb & Hrow).
  - vm_compute. reflexivity.
  - exists pc, bc. split; [exact Hp|]. split; [exact Hb|].
    assert (Hs2 : Samples.worker_died = s2) by (unfold Samples.worker_died; rewrite Hr; reflexivity).
    rewrite Hs2, Hrow. subst s2. reflexivity.
Defined.

(** With both flags the monitor writes to the terminal, in full. *)
Lemma monitor_start_chooses_writer_witness :
  exists m wr,
    monitor (snd (fst (parse_monitor_start (H := Samples.decoder) Examples.both_opts
                         Samples.start_cmd (CaptureManager_init Samples.world0)))) = Some m /\
    writer m = Some wr /\ chosen_writer Examples.both_opts wr /\
    tx_port_list m = [0] /\ rx_port_list m = [] /\ rate_pps m = 100 /\
    In (EvStartCapture [0] [] 100 "cyclic")
       (snd (parse_monitor_start (H := Samples.decoder) Examples.both_opts
               Samples.start_cmd (CaptureManager_init Samples.world0))).
Proof.
  apply (monitor_start_chooses_writer (H := Samples.decoder) Examples.both_opts
           Samples.start_cmd (CaptureManager_init Samples.world0)).
  - vm_compute. reflexivity.
  - left. discriminate.
Defined.

Lemma clear_keeps_captures_when_stop_fails_witness :
  fst (fst (parse_clear (H := Samples.decoder) Samples.stop_failing (Ok tt)
              Examples.managing)) = Raise (STLError "timeout") /\
  ~ In EvRemoveAllCaptures
      (snd (stop (H := Samples.decoder) Samples.stop_failing Examples.running)).
Proof.
  destruct (clear_keeps_captures_when_stop_fails (H := Samples.decoder) Samples.stop_failing
              (Ok tt) Examples.managing (self Examples.running) (STLError "timeout")
              (snd (fst (stop (H := Samples.decoder) Samples.stop_failing Examples.running)))
              (snd (stop (H := Samples.decoder) Samples.stop_failing Examples.running))
              eq_refl) as (Heq & Hno & _).
  - vm_compute. reflexivity.
  - vm_compute. reflexivity.
  - rewrite Heq. split; [reflexivity|exact Hno].
Defined.

(** [capture record stop --id 7] while 7 is the capture of the monitor. *)
Lemma record_commands_spare_monitor_witness :
  snd (fst (parse_record (RecordStop 7 "out.pcap") Examples.console Examples.managing)) =
    Examples.managing /\
  ~ In (EvStopCapture 7)
      (snd (parse_record (RecordStop 7 "out.pcap") Examples.console Examples.managing)).
Proof.
  destruct (record_commands_spare_monitor (RecordStop 7 "out.pcap") Examples.console
              Examples.managing
              (snd (fst (parse_record (RecordStop 7 "out.pcap") Examples.console
                           Examples.managing)))
              (fst (fst (parse_record (RecordStop 7 "out.pcap") Examples.console
                           Examples.managing)))
              (snd (parse_record (RecordStop 7 "out.pcap") Examples.console
                      Examples.managing)))
    as (H1 & _ & H3).
  - vm_compute. reflexivity.
  - split; [exact H1|]. apply (H3 (self Examples.running) 7); vm_compute; reflexivity.
Defined.

(** The recorder 5 and the monitor's capture 7: one row in each table, and
    the monitor's row shows the three packets it has seen, not the forty the
    server has captured. *)
Lemma parse_show_tables_witness :
  fst (fst (parse_show Examples.console Examples.managing)) =
    Ok ([ {| cr_id := 5; cr_state := "ACTIVE"; cr_packets := "[12/1000]"; cr_bytes := 768;
             cr_tx := 1; cr_rx := 0 |} ],
        [ {| row_id := Some 7; row_status := "ACTIVE"; row_pkts := 3; row_bytes := 44;
             row_tx := "0"; row_rx := "1" |} ]) /\
  snd (parse_show Examples.console Examples.managing) =
    [EvGetCaptureStatus; EvLog "Active Recorders"; EvLog "Active Monitor"].
Proof.
  destruct (parse_show_tables Examples.console Examples.managing
              (snd (fst (parse_show Examples.console Examples.managing)))
              [ {| cr_id := 5; cr_state := "ACTIVE"; cr_packets := "[12/1000]"; cr_bytes := 768;
                   cr_tx := 1; cr_rx := 0 |} ]
              [ {| row_id := Some 7; row_status := "ACTIVE"; row_pkts := 3; row_bytes := 44;
                   row_tx := "0"; row_rx := "1" |} ]
              (snd (parse_show Examples.console Examples.managing)))
    as (_ & data & _ & _ & _ & _ & Hev).
  - vm_compute. reflexivity.
  - split; [vm_compute; reflexivity|exact Hev].
Defined.

(** [capture show] before the worker of the monitor has run. *)
Lemma parse_show_failure_witness :
  snd (fst (parse_show Examples.console Examples.managing_fresh)) = Examples.managing_fresh /\
  snd (parse_show Examples.console Examples.managing_fresh) = [EvGetCaptureStatus].
Proof.
  destruct (parse_show_failure Examples.console Examples.managing_fresh
              (snd (fst (parse_show Examples.console Examples.managing_fresh)))
              (Exception "AttributeError" "'CaptureMonitor' object has no attribute 'pkt_count'")
              (snd (parse_show Examples.console Examples.managing_fresh)))
    as (H1 & H2 & _).
  - vm_compute. reflexivity.
  - split; assumption.
Defined.

Lemma interrupted_pipe_start_is_rolled_back_witness :
  fst (fst (parse_line (H := Samples.decoder) Examples.parse_args
              "monitor start --tx 0 --pipe" Examples.interrupted_cmd
              (CaptureManager_init Samples.world0))) =
    Ok (Some "*** pipe monitor aborted...cleaning up") /\
  monitor (snd (fst (parse_line (H := Samples.decoder) Examples.parse_args
                       "monitor start --tx 0 --pipe" Examples.interrupted_cmd
                       (CaptureManager_init Samples.world0)))) = None.
Proof.
  destruct (interrupted_pipe_start_is_rolled_back (H := Samples.decoder) Examples.parse_args
              "monitor start --tx 0 --pipe" Examples.pipe_opts Examples.interrupted_cmd
              (CaptureManager_init Samples.world0)
              (snd (fst (parse_line (H := Samples.decoder) Examples.parse_args
                           "monitor start --tx 0 --pipe" Examples.interrupted_cmd
                           (CaptureManager_init Samples.world0))))
              (fst (fst (parse_line (H := Samples.decoder) Examples.parse_args
                           "monitor start --tx 0 --pipe" Examples.interrupted_cmd
                           (CaptureManager_init Samples.world0))))
              (snd (parse_line (H := Samples.decoder) Examples.parse_args
                      "monitor start --tx 0 --pipe" Examples.interrupted_cmd
                      (CaptureManager_init Samples.world0))))
    as (H1 & H2 & _).
  - vm_compute. reflexivity.
  - discriminate.
  - reflexivity.
  - reflexivity.
  - left. discriminate.
  - reflexivity.
  - exists (7, 1000000). reflexivity.
  - reflexivity.
  - reflexivity.
  - discriminate.
  - apply (bool_decide_unpack _). vm_compute. exact I.
  - split; [|split]; intros e; discriminate.
  - vm_compute. reflexivity.
  - split; assumption.
Defined.





